(** * cs2-arbitrage-bot: the arbitrage signal engine, embedded and verified

    A shallow embedding of the rule-bearing core of the repository:
    - [clients/buff_client.py]       : [BuffSaleDTO], [BuffItemDTO] and its
                                       [overall_min_price]
    - [clients/csfloat_client.py]    : [CSFloatStickerDTO], [CSFloatListingDTO]
    - [ingestion/buff_prices.py]     : [is_within_price_range],
                                       [is_allowed_item_type],
                                       [create_price_snapshot]
    - [ingestion/csfloat_listings.py]: [upsert_csfloat_listing],
                                       [ingest_csfloat_listings_once]
    - [core/arbitrage_engine.py]     : both signal computations, the
                                       staleness sweep and the ranking query
    - [run_bot.py], [db/session.py]  : [run_csfloat_scan], [get_session]
    - [db/models.py]                 : the rows and the derived metrics of
                                       [Trade]
    and, around it,
    - [ingestion/buff_prices.py]     : [parse_item_name],
                                       [upsert_buff_item], both lookups of
                                       the latest floor
    - [ingestion/csfloat_listings.py]: [mark_inactive_listings], the lookups
                                       of the active listings of an item
    - [clients/csfloat_client.py]    : [fetch_listings],
                                       [fetch_top_discounted_buy_now_listings]
    - [core/watchlist.py]            : [Watchlist], the default watch-list
    - [run_bot.py]                   : [run_buff_to_csfloat_scan],
                                       [run_stale_cleanup]
    - [cli/main.py]                  : [record-trade], [update-trade],
                                       [list-opps]
    - [dashboard/live_dashboard.py]  : the counts of the statistics panel,
                                       the rows of the opportunities table

    Conventions of the embedding.
    - A Python [float] is an exact rational ([Q]); rounding is not modelled.
      Comparisons are the boolean tests [Qltb] and [Qleb].
    - A [datetime] is an integer number of microseconds ([Z]); a
      [timedelta(hours=h)] is [h * 3_600_000_000].  A clock reading
      ([datetime.utcnow()], the server default [func.now()]) is an explicit
      argument.
    - A [str] is a [string] of bytes (UTF-8); [str.lower] acts on the ASCII
      letters, and white space ([\s], [str.strip]) is ASCII white space.  A
      regular expression is the chain of its pieces, each trying its
      alternatives in the order of [re.match].
    - The SQLAlchemy session is a record of tables (lists of rows, in
      insertion order, which is the order queries return them in) and of the
      objects handed to [session.add] that were not flushed yet: the session
      factory sets [autoflush=False], so a query sees the flushed rows only.
      An attribute assigned on a row is seen at once, as it is on the
      object.  The calls of the HTTP clients are arguments: what the client
      fetched.  The database is SQLite as configured: a foreign key is not
      enforced.
    - A command of the CLI is what it leaves in the database and how it
      ends; what it prints is not modelled, but for the values it computes
      on the way. *)

From Stdlib Require Import ZArith QArith List String Ascii Bool Lia.
From Stdlib Require Import Sorted Permutation.
Import ListNotations.

Local Open Scope Q_scope.

(* ------------------------------------------------------------------ *)
(** ** Numbers *)

(** [a < b] on floats. *)
Definition Qltb (a b : Q) : bool :=
  match a ?= b with Lt => true | _ => false end.

(** [a <= b] on floats. *)
Definition Qleb (a b : Q) : bool :=
  match a ?= b with Gt => false | _ => true end.

(** Python's [min] over a non-empty iterable whose first element is [m]:
    the running minimum is replaced only by a strictly smaller element. *)
Fixpoint py_min (m : Q) (xs : list Q) : Q :=
  match xs with
  | [] => m
  | x :: rest => py_min (if Qltb x m then x else m) rest
  end.

(* ------------------------------------------------------------------ *)
(** ** Configuration ([config.py]) *)

Module Config.
Record t := {
  fx_cny_to_usd : Q;
  buff_sell_fee_pct : Q;
  csfloat_buy_fee_pct : Q;
  csfloat_sell_fee_pct : Q;
  min_price_usd : Q;
  max_price_usd : Q;
  min_roi_csfloat_to_buff : Q;
  min_roi_buff_to_csfloat : Q;
  min_csfloat_listings : Z;
  min_watchers : Z;
  allowed_item_types : list string
}.

(** The [Field(default=...)] values. *)
Definition default : t := {|
  fx_cny_to_usd := 14 # 100;
  buff_sell_fee_pct := 25 # 1000;
  csfloat_buy_fee_pct := 0;
  csfloat_sell_fee_pct := 2 # 100;
  min_price_usd := 100;
  max_price_usd := 1500;
  min_roi_csfloat_to_buff := 8 # 100;
  min_roi_buff_to_csfloat := 10 # 100;
  min_csfloat_listings := 5%Z;
  min_watchers := 0%Z;
  allowed_item_types := ["weapon"; "knife"; "gloves"]%string
|}.
End Config.

(* ------------------------------------------------------------------ *)
(** ** Market-A feed records ([clients/buff_client.py]) *)

Module BuffSaleDTO.
Record t := {
  min_price : Q;
  tag_id : option Z;
  tag_name : option string
}.
End BuffSaleDTO.

Module BuffItemDTO.
Record t := {
  goods_id : Z;
  market_hash_name : string;
  update_time : option Z;
  stat_time : option Z;
  sales : list BuffSaleDTO.t
}.

(** The property [overall_min_price]: [None] without sales, else the
    minimum over all sales. *)
Definition overall_min_price (self : t) : option Q :=
  match sales self with
  | [] => None
  | s :: rest => Some (py_min (BuffSaleDTO.min_price s)
                              (map BuffSaleDTO.min_price rest))
  end.
End BuffItemDTO.

(* ------------------------------------------------------------------ *)
(** ** New price snapshots ([db/models.py]) *)

(** What [BuffPriceSnapshot(...)] is constructed with; [id] and [timestamp]
    are given by the store when the row is flushed. *)
Module SnapshotInit.
Record t := {
  goods_id : Z;
  overall_min_price : Q;
  tag_floors_json : option (list (string * Q));
  stat_time : option Z;
  within_target_range : bool
}.
End SnapshotInit.

(* ------------------------------------------------------------------ *)
(** ** Strings *)

Local Open Scope string_scope.

(** [str.lower] on one byte: the ASCII capitals move to their small letters. *)
Definition lower_ascii (c : ascii) : ascii :=
  let n := nat_of_ascii c in
  if (65 <=? n)%nat && (n <=? 90)%nat then ascii_of_nat (n + 32) else c.

(** [s.lower()]. *)
Fixpoint lower (s : string) : string :=
  match s with
  | EmptyString => EmptyString
  | String c rest => String (lower_ascii c) (lower rest)
  end.

(** [s.startswith(p)]. *)
Definition startswith (p s : string) : bool := String.prefix p s.

(** [p in s]: [p] occurs in [s] as a substring. *)
Fixpoint contains (p s : string) : bool :=
  String.prefix p s
  || match s with
     | EmptyString => false
     | String _ rest => contains p rest
     end.

(** [s.endswith(p)]. *)
Definition endswith (p s : string) : bool :=
  let n := String.length s in
  let m := String.length p in
  (m <=? n)%nat && String.eqb (String.substring (n - m) m s) p.

(** [x in xs] for a list of strings. *)
Definition mem (x : string) (xs : list string) : bool :=
  existsb (String.eqb x) xs.

(* ------------------------------------------------------------------ *)
(** ** The classification filter ([ingestion/buff_prices.py]) *)

Definition gloves_keywords : list string :=
  ["gloves"; "hand wraps"; "driver gloves"; "specialist gloves";
   "sport gloves"; "moto gloves"; "hydra gloves"; "broken fang gloves"].

Definition skip_keywords : list string :=
  ["capsule"; "package"; "pass"; "pin"].

(** The six tests that come before the capsule rule, on the lowered name;
    [Some b] when one of them answers [b]. *)
Definition early_rules (name_lower : string) (allowed : list string)
  : option bool :=
  if startswith "sticker |" name_lower then Some (mem "sticker" allowed)
  else if contains "graffiti |" name_lower
          || startswith "sealed graffiti" name_lower
  then Some (mem "graffiti" allowed)
  else if startswith "patch |" name_lower then Some (mem "patch" allowed)
  else if existsb (fun agent => contains agent name_lower)
                  ["agent |"; "operator |"]
  then Some (mem "agent" allowed)
  else if startswith "music kit |" name_lower
  then Some (mem "music_kit" allowed)
  else if endswith " case" name_lower || endswith " key" name_lower
  then Some (mem "case" allowed || mem "key" allowed)
  else None.

Definition is_allowed_item_type (market_hash_name : string) (config : Config.t)
  : bool :=
  let allowed := Config.allowed_item_types config in
  match allowed with
  | [] => true
  | _ :: _ =>
      let name_lower := lower market_hash_name in
      match early_rules name_lower allowed with
      | Some answer => answer
      | None =>
          if existsb (fun skip => contains skip name_lower) skip_keywords
          then false
          else if startswith "★" name_lower then
            if existsb (fun g => contains g name_lower) gloves_keywords
            then mem "gloves" allowed
            else mem "knife" allowed
          else if contains " | " market_hash_name
                  && contains "(" market_hash_name
          then mem "weapon" allowed
          else true
      end
  end.

Local Close Scope string_scope.

(* ------------------------------------------------------------------ *)
(** ** Rows of the store ([db/models.py]) *)

Definition CSFLOAT_TO_BUFF : string := "CSFLOAT_TO_BUFF".
Definition BUFF_TO_CSFLOAT : string := "BUFF_TO_CSFLOAT".

Module BuffItem.
Record t := {
  id : Z;
  goods_id : Z;
  market_hash_name : string;
  weapon : option string;
  skin_name : option string;
  wear : option string;
  first_seen_at : Z;
  last_seen_at : Z
}.
End BuffItem.

Module BuffPriceSnapshot.
Record t := {
  id : Z;
  timestamp : Z;
  goods_id : Z;
  overall_min_price : Q;
  tag_floors_json : option (list (string * Q));
  stat_time : option Z;
  within_target_range : bool
}.
End BuffPriceSnapshot.

(** The listing record of the market-B client
    ([clients/csfloat_client.py]). *)
Module CSFloatStickerDTO.
Record t := {
  name : string;
  slot : Z;
  wear : option Q
}.
End CSFloatStickerDTO.

Module CSFloatListingDTO.
Record t := {
  listing_id : string;
  market_hash_name : string;
  price_cents : Z;
  discount : option Q;
  listing_type : string;
  float_value : option Q;
  paint_seed : option Z;
  wear_name : option string;
  stickers : list CSFloatStickerDTO.t;
  created_at : option string;
  reference_quantity : option Z;
  watchers : option Z
}.
End CSFloatListingDTO.

Module CSFloatListing.
Record t := {
  id : Z;
  csfloat_id : string;
  market_hash_name : string;
  price_cents : Z;
  discount : option Q;
  listing_type : string;
  float_value : option Q;
  paint_seed : option Z;
  wear_name : option string;
  stickers_json : option (list CSFloatStickerDTO.t);
  reference_quantity : option Z;
  watchers : option Z;
  seen_at : Z;
  last_checked_at : Z;
  is_active : bool
}.
End CSFloatListing.

Module ArbitrageSignal.
Record t := {
  id : Z;
  direction : string;
  market_hash_name : string;
  buff_goods_id : option Z;
  csfloat_listing_id : option Z;
  buff_floor_cny : option Q;
  buff_floor_usd : option Q;
  csfloat_price_usd : option Q;
  roi_pct : Q;
  created_at : Z;
  note : option string;
  is_active : bool;
  acted_on : bool
}.

(** The four assignments of the update branch of both computations. *)
Definition set_prices (cny usd price roi : Q) (s : t) : t := {|
  id := id s;
  direction := direction s;
  market_hash_name := market_hash_name s;
  buff_goods_id := buff_goods_id s;
  csfloat_listing_id := csfloat_listing_id s;
  buff_floor_cny := Some cny;
  buff_floor_usd := Some usd;
  csfloat_price_usd := Some price;
  roi_pct := roi;
  created_at := created_at s;
  note := note s;
  is_active := is_active s;
  acted_on := acted_on s
|}.

(** [signal.is_active = False]. *)
Definition deactivate (s : t) : t := {|
  id := id s;
  direction := direction s;
  market_hash_name := market_hash_name s;
  buff_goods_id := buff_goods_id s;
  csfloat_listing_id := csfloat_listing_id s;
  buff_floor_cny := buff_floor_cny s;
  buff_floor_usd := buff_floor_usd s;
  csfloat_price_usd := csfloat_price_usd s;
  roi_pct := roi_pct s;
  created_at := created_at s;
  note := note s;
  is_active := false;
  acted_on := acted_on s
|}.
End ArbitrageSignal.

(** The keyword arguments of [ArbitrageSignal(...)]; the other columns take
    their defaults when the row is flushed. *)
Module SignalInit.
Record t := {
  direction : string;
  market_hash_name : string;
  buff_goods_id : option Z;
  csfloat_listing_id : option Z;
  buff_floor_cny : Q;
  buff_floor_usd : Q;
  csfloat_price_usd : Q;
  roi_pct : Q
}.
End SignalInit.

(* ------------------------------------------------------------------ *)
(** ** The session *)

Definition option_eqb {A} (eqb : A -> A -> bool) (x y : option A) : bool :=
  match x, y with
  | Some a, Some b => eqb a b
  | None, None => true
  | _, _ => false
  end.

Module Session.
Record t := {
  buff_items : list BuffItem.t;
  buff_price_snapshots : list BuffPriceSnapshot.t;
  csfloat_listings : list CSFloatListing.t;
  arbitrage_signals : list ArbitrageSignal.t;
  (* handed to [session.add], not flushed yet *)
  new_snapshots : list SnapshotInit.t;
  new_signals : list SignalInit.t
}.

Definition with_signals (signals : list ArbitrageSignal.t) (s : t) : t := {|
  buff_items := buff_items s;
  buff_price_snapshots := buff_price_snapshots s;
  csfloat_listings := csfloat_listings s;
  arbitrage_signals := signals;
  new_snapshots := new_snapshots s;
  new_signals := new_signals s
|}.

Definition with_listings (listings : list CSFloatListing.t) (s : t) : t := {|
  buff_items := buff_items s;
  buff_price_snapshots := buff_price_snapshots s;
  csfloat_listings := listings;
  arbitrage_signals := arbitrage_signals s;
  new_snapshots := new_snapshots s;
  new_signals := new_signals s
|}.

(** [session.add(snapshot)]. *)
Definition add_snapshot (x : SnapshotInit.t) (s : t) : t := {|
  buff_items := buff_items s;
  buff_price_snapshots := buff_price_snapshots s;
  csfloat_listings := csfloat_listings s;
  arbitrage_signals := arbitrage_signals s;
  new_snapshots := new_snapshots s ++ [x];
  new_signals := new_signals s
|}.

(** [session.add(signal)]. *)
Definition add_signal (x : SignalInit.t) (s : t) : t := {|
  buff_items := buff_items s;
  buff_price_snapshots := buff_price_snapshots s;
  csfloat_listings := csfloat_listings s;
  arbitrage_signals := arbitrage_signals s;
  new_snapshots := new_snapshots s;
  new_signals := new_signals s ++ [x]
|}.

(** The next value of an autoincremented key: one more than the largest
    key of the table. *)
Definition next_id {A} (key : A -> Z) (rows : list A) : Z :=
  fold_left (fun m r => Z.max m (key r)) rows 0%Z + 1.

(** Inserting the new snapshots: [id] autoincrements and [timestamp] takes
    its server default, the time of the insert. *)
Fixpoint flush_snapshots (now : Z) (rows : list BuffPriceSnapshot.t)
         (news : list SnapshotInit.t) : list BuffPriceSnapshot.t :=
  match news with
  | [] => rows
  | x :: rest =>
      flush_snapshots now
        (rows ++ [{|
           BuffPriceSnapshot.id := next_id BuffPriceSnapshot.id rows;
           BuffPriceSnapshot.timestamp := now;
           BuffPriceSnapshot.goods_id := SnapshotInit.goods_id x;
           BuffPriceSnapshot.overall_min_price :=
             SnapshotInit.overall_min_price x;
           BuffPriceSnapshot.tag_floors_json :=
             SnapshotInit.tag_floors_json x;
           BuffPriceSnapshot.stat_time := SnapshotInit.stat_time x;
           BuffPriceSnapshot.within_target_range :=
             SnapshotInit.within_target_range x
         |}])
        rest
  end.

(** The row a new signal becomes: [id] autoincrements, [created_at] takes
    its server default, [note] is empty, [is_active] and [acted_on] take
    their defaults [True] and [False]. *)
Definition signal_row (id now : Z) (x : SignalInit.t) : ArbitrageSignal.t := {|
  ArbitrageSignal.id := id;
  ArbitrageSignal.direction := SignalInit.direction x;
  ArbitrageSignal.market_hash_name := SignalInit.market_hash_name x;
  ArbitrageSignal.buff_goods_id := SignalInit.buff_goods_id x;
  ArbitrageSignal.csfloat_listing_id := SignalInit.csfloat_listing_id x;
  ArbitrageSignal.buff_floor_cny := Some (SignalInit.buff_floor_cny x);
  ArbitrageSignal.buff_floor_usd := Some (SignalInit.buff_floor_usd x);
  ArbitrageSignal.csfloat_price_usd := Some (SignalInit.csfloat_price_usd x);
  ArbitrageSignal.roi_pct := SignalInit.roi_pct x;
  ArbitrageSignal.created_at := now;
  ArbitrageSignal.note := None;
  ArbitrageSignal.is_active := true;
  ArbitrageSignal.acted_on := false
|}.

Fixpoint flush_signals (now : Z) (rows : list ArbitrageSignal.t)
         (news : list SignalInit.t) : list ArbitrageSignal.t :=
  match news with
  | [] => rows
  | x :: rest =>
      flush_signals now
        (rows ++ [signal_row (next_id ArbitrageSignal.id rows) now x]) rest
  end.

(** [session.flush()], at clock reading [now]: every object handed to
    [session.add] becomes a row. *)
Definition flush (now : Z) (s : t) : t := {|
  buff_items := buff_items s;
  buff_price_snapshots :=
    flush_snapshots now (buff_price_snapshots s) (new_snapshots s);
  csfloat_listings := csfloat_listings s;
  arbitrage_signals := flush_signals now (arbitrage_signals s) (new_signals s);
  new_snapshots := [];
  new_signals := []
|}.

(** [session.commit()], at clock reading [now]: a flush; the end of the
    transaction has no further effect on what the session reads. *)
Definition commit (now : Z) (s : t) : t := flush now s.

(** [query.filter(p).first()]. *)
Definition first {A} (p : A -> bool) (rows : list A) : option A := find p rows.

(** [query(BuffPriceSnapshot).filter(goods_id == g)
      .order_by(timestamp.desc()).first()]: the row of [g] with the
    largest timestamp (the earliest inserted of them, should two agree). *)
Definition latest_snapshot (g : Z) (s : t) : option BuffPriceSnapshot.t :=
  fold_left
    (fun best r =>
       if (BuffPriceSnapshot.goods_id r =? g)%Z then
         match best with
         | None => Some r
         | Some b =>
             if (BuffPriceSnapshot.timestamp b <? BuffPriceSnapshot.timestamp r)%Z
             then Some r else Some b
         end
       else best)
    (buff_price_snapshots s) None.

(** An attribute assignment on the first row satisfying [p]. *)
Fixpoint update_first {A} (p : A -> bool) (f : A -> A) (rows : list A)
  : list A :=
  match rows with
  | [] => []
  | r :: rest => if p r then f r :: rest else r :: update_first p f rest
  end.
End Session.

(* ------------------------------------------------------------------ *)
(** ** Market-A price ingestion ([ingestion/buff_prices.py]) *)

Definition is_within_price_range (price_cny : Q) (config : Config.t) : bool :=
  let price_usd := price_cny * Config.fx_cny_to_usd config in
  Qleb (Config.min_price_usd config) price_usd
  && Qleb price_usd (Config.max_price_usd config).

(** [d[k] = v] on a dict kept in insertion order. *)
Fixpoint dict_set (d : list (string * Q)) (k : string) (v : Q)
  : list (string * Q) :=
  match d with
  | [] => [(k, v)]
  | (k', v') :: rest =>
      if String.eqb k' k then (k', v) :: rest
      else (k', v') :: dict_set rest k v
  end.

(** The loop building [tag_floors]: a sale contributes when its [tag_name]
    is truthy (present and not empty). *)
Definition build_tag_floors (sales : list BuffSaleDTO.t) : list (string * Q) :=
  fold_left
    (fun tag_floors sale =>
       match BuffSaleDTO.tag_name sale with
       | Some name =>
           if String.eqb name EmptyString then tag_floors
           else dict_set tag_floors name (BuffSaleDTO.min_price sale)
       | None => tag_floors
       end)
    sales [].

(** [create_price_snapshot]: the session after it and what it returns. *)
Definition create_price_snapshot
  (session : Session.t) (item_dto : BuffItemDTO.t) (config : Config.t)
  : Session.t * option SnapshotInit.t :=
  match BuffItemDTO.overall_min_price item_dto with
  | None => (session, None)
  | Some overall_min =>
      if Qleb overall_min 0 then (session, None)
      else
        let tag_floors := build_tag_floors (BuffItemDTO.sales item_dto) in
        let snapshot := {|
          SnapshotInit.goods_id := BuffItemDTO.goods_id item_dto;
          SnapshotInit.overall_min_price := overall_min;
          SnapshotInit.tag_floors_json :=
            match tag_floors with [] => None | _ => Some tag_floors end;
          SnapshotInit.stat_time := BuffItemDTO.stat_time item_dto;
          SnapshotInit.within_target_range :=
            is_within_price_range overall_min config
        |} in
        (Session.add_snapshot snapshot session, Some snapshot)
  end.

(* ------------------------------------------------------------------ *)
(** ** Market-B listing ingestion ([ingestion/csfloat_listings.py]) *)

(** The assignments of the update branch of [upsert_csfloat_listing]. *)
Definition refresh_listing (listing_dto : CSFloatListingDTO.t) (now : Z)
  (existing : CSFloatListing.t) : CSFloatListing.t := {|
  CSFloatListing.id := CSFloatListing.id existing;
  CSFloatListing.csfloat_id := CSFloatListing.csfloat_id existing;
  CSFloatListing.market_hash_name := CSFloatListing.market_hash_name existing;
  CSFloatListing.price_cents := CSFloatListingDTO.price_cents listing_dto;
  CSFloatListing.discount := CSFloatListingDTO.discount listing_dto;
  CSFloatListing.listing_type := CSFloatListing.listing_type existing;
  CSFloatListing.float_value := CSFloatListing.float_value existing;
  CSFloatListing.paint_seed := CSFloatListing.paint_seed existing;
  CSFloatListing.wear_name := CSFloatListing.wear_name existing;
  CSFloatListing.stickers_json :=
    match CSFloatListingDTO.stickers listing_dto with
    | [] => CSFloatListing.stickers_json existing
    | stickers => Some stickers
    end;
  CSFloatListing.reference_quantity :=
    CSFloatListingDTO.reference_quantity listing_dto;
  CSFloatListing.watchers := CSFloatListingDTO.watchers listing_dto;
  CSFloatListing.seen_at := CSFloatListing.seen_at existing;
  CSFloatListing.last_checked_at := now;
  CSFloatListing.is_active := true
|}.

(** The row a new listing becomes at the flush that follows
    [session.add(listing)]. *)
Definition new_listing (listing_dto : CSFloatListingDTO.t) (id now : Z)
  : CSFloatListing.t := {|
  CSFloatListing.id := id;
  CSFloatListing.csfloat_id := CSFloatListingDTO.listing_id listing_dto;
  CSFloatListing.market_hash_name :=
    CSFloatListingDTO.market_hash_name listing_dto;
  CSFloatListing.price_cents := CSFloatListingDTO.price_cents listing_dto;
  CSFloatListing.discount := CSFloatListingDTO.discount listing_dto;
  CSFloatListing.listing_type := CSFloatListingDTO.listing_type listing_dto;
  CSFloatListing.float_value := CSFloatListingDTO.float_value listing_dto;
  CSFloatListing.paint_seed := CSFloatListingDTO.paint_seed listing_dto;
  CSFloatListing.wear_name := CSFloatListingDTO.wear_name listing_dto;
  CSFloatListing.stickers_json :=
    match CSFloatListingDTO.stickers listing_dto with
    | [] => None
    | stickers => Some stickers
    end;
  CSFloatListing.reference_quantity :=
    CSFloatListingDTO.reference_quantity listing_dto;
  CSFloatListing.watchers := CSFloatListingDTO.watchers listing_dto;
  CSFloatListing.seen_at := now;
  CSFloatListing.last_checked_at := now;
  CSFloatListing.is_active := true
|}.

(** [upsert_csfloat_listing]: the listing of the same external id is
    refreshed, or a new one is inserted; both branches flush. *)
Definition upsert_csfloat_listing
  (session : Session.t) (listing_dto : CSFloatListingDTO.t) (now : Z)
  : Session.t * CSFloatListing.t :=
  let lookup :=
    fun r => String.eqb (CSFloatListing.csfloat_id r)
                        (CSFloatListingDTO.listing_id listing_dto) in
  match Session.first lookup (Session.csfloat_listings session) with
  | Some existing =>
      (Session.flush now
         (Session.with_listings
            (Session.update_first lookup (refresh_listing listing_dto now)
               (Session.csfloat_listings session))
            session),
       refresh_listing listing_dto now existing)
  | None =>
      let listing :=
        new_listing listing_dto
          (Session.next_id CSFloatListing.id (Session.csfloat_listings session))
          now in
      (Session.flush now
         (Session.with_listings (Session.csfloat_listings session ++ [listing])
                                session),
       listing)
  end.

(** The loop of [ingest_csfloat_listings_once] over the listings the client
    fetched; [clock i] is the clock reading at the [i]-th of them. *)
Fixpoint ingest_csfloat_loop
  (session : Session.t) (config : Config.t)
  (listings : list CSFloatListingDTO.t) (processed_ids : list string)
  (clock : nat -> Z) (i : nat) : Session.t * list CSFloatListing.t :=
  match listings with
  | [] => (session, [])
  | listing_dto :: rest =>
      if mem (CSFloatListingDTO.listing_id listing_dto) processed_ids
      then ingest_csfloat_loop session config rest processed_ids clock (S i)
      else
        let processed_ids :=
          CSFloatListingDTO.listing_id listing_dto :: processed_ids in
        if negb (is_allowed_item_type
                   (CSFloatListingDTO.market_hash_name listing_dto) config)
        then ingest_csfloat_loop session config rest processed_ids clock (S i)
        else
          let '(session', listing) :=
            upsert_csfloat_listing session listing_dto (clock i) in
          let '(session'', processed_listings) :=
            ingest_csfloat_loop session' config rest processed_ids clock (S i) in
          (session'', listing :: processed_listings)
  end.

(** [ingest_csfloat_listings_once], on the listings [fetched] by the
    client. *)
Definition ingest_csfloat_listings_once
  (session : Session.t) (config : Config.t)
  (fetched : list CSFloatListingDTO.t) (clock : nat -> Z) (commit_time : Z)
  : Session.t * list CSFloatListing.t :=
  let '(session', processed_listings) :=
    ingest_csfloat_loop session config fetched [] clock 0 in
  (Session.commit commit_time session', processed_listings).

(* ------------------------------------------------------------------ *)
(** ** The signal engine ([core/arbitrage_engine.py]) *)

(** [timedelta(hours=h)], in microseconds. *)
Definition timedelta_hours (h : Z) : Z := (h * 3600000000)%Z.

(** What a computation returns when it returns a signal: the row it updated
    in place, or the new object it handed to [session.add]. *)
Inductive SignalRef :=
| Updated (row : ArbitrageSignal.t)
| Created (init : SignalInit.t).

Definition ref_roi_pct (r : SignalRef) : Q :=
  match r with
  | Updated row => ArbitrageSignal.roi_pct row
  | Created init => SignalInit.roi_pct init
  end.

(** The filter of the lookup of direction A: same listing id, direction
    [CSFLOAT_TO_BUFF], active. *)
Definition existing_for_listing (listing_id : Z) (sg : ArbitrageSignal.t) : bool :=
  option_eqb Z.eqb (ArbitrageSignal.csfloat_listing_id sg) (Some listing_id)
  && String.eqb (ArbitrageSignal.direction sg) CSFLOAT_TO_BUFF
  && ArbitrageSignal.is_active sg.

(** The filter of the lookup of direction B: same cross-market key,
    direction [BUFF_TO_CSFLOAT], active. *)
Definition existing_for_name (name : string) (sg : ArbitrageSignal.t) : bool :=
  String.eqb (ArbitrageSignal.market_hash_name sg) name
  && String.eqb (ArbitrageSignal.direction sg) BUFF_TO_CSFLOAT
  && ArbitrageSignal.is_active sg.

Definition _compute_signal_for_listing
  (session : Session.t) (listing : CSFloatListing.t) (config : Config.t)
  (now : Z) : Session.t * option SignalRef :=
  match Session.first
          (fun it => String.eqb (BuffItem.market_hash_name it)
                                (CSFloatListing.market_hash_name listing))
          (Session.buff_items session) with
  | None => (session, None)
  | Some buff_item =>
  match Session.latest_snapshot (BuffItem.goods_id buff_item) session with
  | None => (session, None)
  | Some buff_snapshot =>
  if (BuffPriceSnapshot.timestamp buff_snapshot <? now - timedelta_hours 24)%Z
  then (session, None)
  else
    let csfloat_price_usd := inject_Z (CSFloatListing.price_cents listing) / 100 in
    let buff_floor_cny := BuffPriceSnapshot.overall_min_price buff_snapshot in
    let buff_floor_usd := buff_floor_cny * Config.fx_cny_to_usd config in
    let net_buy_cost := csfloat_price_usd * (1 + Config.csfloat_buy_fee_pct config) in
    let net_sell_proceeds := buff_floor_usd * (1 - Config.buff_sell_fee_pct config) in
    if Qleb net_buy_cost 0 then (session, None)
    else
      let roi_pct := (net_sell_proceeds - net_buy_cost) / net_buy_cost in
      if Qltb roi_pct (Config.min_roi_csfloat_to_buff config) then (session, None)
      else
        let lookup := existing_for_listing (CSFloatListing.id listing) in
        let assign :=
          ArbitrageSignal.set_prices buff_floor_cny buff_floor_usd
                                     csfloat_price_usd roi_pct in
        match Session.first lookup (Session.arbitrage_signals session) with
        | Some existing =>
            (Session.with_signals
               (Session.update_first lookup assign
                  (Session.arbitrage_signals session))
               session,
             Some (Updated (assign existing)))
        | None =>
            let signal := {|
              SignalInit.direction := CSFLOAT_TO_BUFF;
              SignalInit.market_hash_name := CSFloatListing.market_hash_name listing;
              SignalInit.buff_goods_id := Some (BuffItem.goods_id buff_item);
              SignalInit.csfloat_listing_id := Some (CSFloatListing.id listing);
              SignalInit.buff_floor_cny := buff_floor_cny;
              SignalInit.buff_floor_usd := buff_floor_usd;
              SignalInit.csfloat_price_usd := csfloat_price_usd;
              SignalInit.roi_pct := roi_pct
            |} in
            (Session.add_signal signal session, Some (Created signal))
        end
  end end.

(** The liquidity gate at the head of the loop of direction A. *)
Definition low_liquidity (listing : CSFloatListing.t) (config : Config.t) : bool :=
  match CSFloatListing.reference_quantity listing with
  | Some q => (q <? Config.min_csfloat_listings config)%Z
  | None => false
  end
  || match CSFloatListing.watchers listing with
     | Some w => (w <? Config.min_watchers config)%Z
     | None => false
     end.

(** The loop of [compute_csfloat_to_buff_signals]; [clock i] is the clock
    reading while the [i]-th listing of the pass is computed. *)
Fixpoint csfloat_to_buff_loop
  (session : Session.t) (config : Config.t) (listings : list CSFloatListing.t)
  (clock : nat -> Z) (i : nat) : Session.t * list SignalRef :=
  match listings with
  | [] => (session, [])
  | listing :: rest =>
      if low_liquidity listing config
      then csfloat_to_buff_loop session config rest clock (S i)
      else
        let '(session', signal) :=
          _compute_signal_for_listing session listing config (clock i) in
        let '(session'', signals_created) :=
          csfloat_to_buff_loop session' config rest clock (S i) in
        (session'',
         match signal with
         | Some r => r :: signals_created
         | None => signals_created
         end)
  end.

(** One pass of direction A; [listings = None] queries the active
    listings; the pass ends with [session.commit()] at [commit_time]. *)
Definition compute_csfloat_to_buff_signals
  (session : Session.t) (config : Config.t)
  (listings : option (list CSFloatListing.t))
  (clock : nat -> Z) (commit_time : Z) : Session.t * list SignalRef :=
  let listings :=
    match listings with
    | None => filter CSFloatListing.is_active (Session.csfloat_listings session)
    | Some l => l
    end in
  let '(session', signals_created) :=
    csfloat_to_buff_loop session config listings clock 0 in
  (Session.commit commit_time session', signals_created).

(** [csfloat_client] stands for [fetch_lowest_price_listing]: the cheapest
    buy-now listing of a key at the market, if any. *)
Definition _compute_buff_to_csfloat_signal
  (session : Session.t) (market_hash_name : string) (config : Config.t)
  (csfloat_client : string -> option CSFloatListingDTO.t)
  : Session.t * option SignalRef :=
  match Session.first
          (fun it => String.eqb (BuffItem.market_hash_name it) market_hash_name)
          (Session.buff_items session) with
  | None => (session, None)
  | Some buff_item =>
  match Session.latest_snapshot (BuffItem.goods_id buff_item) session with
  | None => (session, None)
  | Some buff_snapshot =>
  match csfloat_client market_hash_name with
  | None => (session, None)
  | Some csfloat_listing =>
    let buff_floor_cny := BuffPriceSnapshot.overall_min_price buff_snapshot in
    let buff_floor_usd := buff_floor_cny * Config.fx_cny_to_usd config in
    let csfloat_floor_usd :=
      inject_Z (CSFloatListingDTO.price_cents csfloat_listing) / 100 in
    let net_buy_cost := buff_floor_usd * (1 + Config.buff_sell_fee_pct config) in
    let net_sell_proceeds :=
      csfloat_floor_usd * (1 - Config.csfloat_sell_fee_pct config) in
    if Qleb net_buy_cost 0 then (session, None)
    else
      let roi_pct := (net_sell_proceeds - net_buy_cost) / net_buy_cost in
      if Qltb roi_pct (Config.min_roi_buff_to_csfloat config) then (session, None)
      else
        let lookup := existing_for_name market_hash_name in
        let assign :=
          ArbitrageSignal.set_prices buff_floor_cny buff_floor_usd
                                     csfloat_floor_usd roi_pct in
        match Session.first lookup (Session.arbitrage_signals session) with
        | Some existing =>
            (Session.with_signals
               (Session.update_first lookup assign
                  (Session.arbitrage_signals session))
               session,
             Some (Updated (assign existing)))
        | None =>
            let signal := {|
              SignalInit.direction := BUFF_TO_CSFLOAT;
              SignalInit.market_hash_name := market_hash_name;
              SignalInit.buff_goods_id := Some (BuffItem.goods_id buff_item);
              SignalInit.csfloat_listing_id := None;
              SignalInit.buff_floor_cny := buff_floor_cny;
              SignalInit.buff_floor_usd := buff_floor_usd;
              SignalInit.csfloat_price_usd := csfloat_floor_usd;
              SignalInit.roi_pct := roi_pct
            |} in
            (Session.add_signal signal session, Some (Created signal))
        end
  end end end.

(** One pass of direction B over the items of the watch-list. *)
Fixpoint buff_to_csfloat_loop
  (session : Session.t) (config : Config.t) (items : list string)
  (csfloat_client : string -> option CSFloatListingDTO.t)
  : Session.t * list SignalRef :=
  match items with
  | [] => (session, [])
  | item_name :: rest =>
      let '(session', signal) :=
        _compute_buff_to_csfloat_signal session item_name config csfloat_client in
      let '(session'', signals_created) :=
        buff_to_csfloat_loop session' config rest csfloat_client in
      (session'',
       match signal with
       | Some r => r :: signals_created
       | None => signals_created
       end)
  end.

Definition compute_buff_to_csfloat_signals
  (session : Session.t) (config : Config.t) (watchlist : list string)
  (csfloat_client : string -> option CSFloatListingDTO.t)
  (commit_time : Z) : Session.t * list SignalRef :=
  let '(session', signals_created) :=
    buff_to_csfloat_loop session config watchlist csfloat_client in
  (Session.commit commit_time session', signals_created).

(** The filter of the sweep: active and created before the cutoff. *)
Definition is_stale (cutoff : Z) (sg : ArbitrageSignal.t) : bool :=
  ArbitrageSignal.is_active sg && (ArbitrageSignal.created_at sg <? cutoff)%Z.

(** [deactivate_stale_signals]: the session after the commit and the number
    of signals deactivated. *)
Definition deactivate_stale_signals
  (session : Session.t) (max_age_hours : Z) (now : Z) : Session.t * nat :=
  let cutoff := (now - timedelta_hours max_age_hours)%Z in
  let stale_signals := filter (is_stale cutoff) (Session.arbitrage_signals session) in
  let swept :=
    map (fun sg => if is_stale cutoff sg then ArbitrageSignal.deactivate sg else sg)
        (Session.arbitrage_signals session) in
  (Session.commit now (Session.with_signals swept session),
   List.length stale_signals).

(** [ORDER BY roi_pct DESC]: insertion into a list sorted by falling ROI;
    rows of equal ROI keep their table order. *)
Fixpoint insert_desc (x : ArbitrageSignal.t) (l : list ArbitrageSignal.t)
  : list ArbitrageSignal.t :=
  match l with
  | [] => [x]
  | y :: rest =>
      if Qleb (ArbitrageSignal.roi_pct y) (ArbitrageSignal.roi_pct x)
      then x :: l
      else y :: insert_desc x rest
  end.

Definition order_by_roi_desc (l : list ArbitrageSignal.t) : list ArbitrageSignal.t :=
  fold_right insert_desc [] l.

(** [get_top_signals]; [direction] filters when it is truthy (present and
    not empty); [limit] is the row count of [LIMIT]. *)
Definition get_top_signals
  (session : Session.t) (direction : option string) (min_roi : option Q)
  (limit : nat) (active_only : bool) : list ArbitrageSignal.t :=
  let query := Session.arbitrage_signals session in
  let query := if active_only then filter ArbitrageSignal.is_active query else query in
  let query :=
    match direction with
    | Some d =>
        if String.eqb d EmptyString then query
        else filter (fun sg => String.eqb (ArbitrageSignal.direction sg) d) query
    | None => query
    end in
  let query :=
    match min_roi with
    | Some r => filter (fun sg => Qleb r (ArbitrageSignal.roi_pct sg)) query
    | None => query
    end in
  firstn limit (order_by_roi_desc query).

(* ------------------------------------------------------------------ *)
(** ** The scheduled scan of market B ([run_bot.py]) *)

(** The clock readings of one scan. *)
Module ScanClock.
Record t := {
  ingest : nat -> Z;
  ingest_commit : Z;
  compute : nat -> Z;
  compute_commit : Z;
  exit_commit : Z
}.
End ScanClock.

(** [get_session()] ([db/session.py]) opens a new session on the store: it
    reads the rows of the tables and holds no object of its own yet. *)
Definition get_session (store : Session.t) : Session.t := {|
  Session.buff_items := Session.buff_items store;
  Session.buff_price_snapshots := Session.buff_price_snapshots store;
  Session.csfloat_listings := Session.csfloat_listings store;
  Session.arbitrage_signals := Session.arbitrage_signals store;
  Session.new_snapshots := [];
  Session.new_signals := []
|}.

(** [ArbBot.run_csfloat_scan]: in a session of its own, the ingestion, then
    the signals of the listings it processed, if any, then the commit at
    the exit of the session. *)
Definition run_csfloat_scan
  (store : Session.t) (config : Config.t)
  (fetched : list CSFloatListingDTO.t) (clock : ScanClock.t) : Session.t :=
  let session := get_session store in
  let '(session', listings) :=
    ingest_csfloat_listings_once session config fetched
      (ScanClock.ingest clock) (ScanClock.ingest_commit clock) in
  let session'' :=
    match listings with
    | [] => session'
    | _ :: _ =>
        fst (compute_csfloat_to_buff_signals
               session' config (Some listings)
               (ScanClock.compute clock) (ScanClock.compute_commit clock))
    end in
  Session.commit (ScanClock.exit_commit clock) session''.

(* ------------------------------------------------------------------ *)
(** ** The trade ledger ([db/models.py]) *)

(** A property either returns or raises. *)
Inductive outcome (A : Type) :=
| Returns (a : A)
| ZeroDivisionError.
Arguments Returns {A} a.
Arguments ZeroDivisionError {A}.

Module Trade.
Record t := {
  id : Z;
  signal_id : option Z;
  market_hash_name : string;
  direction : string;
  buy_market : string;
  sell_market : option string;
  buy_price_usd : Q;
  sell_price_usd : option Q;
  buy_time : Z;
  sell_time : option Z;
  note : option string
}.

(** The property [roi_pct]; the float division raises on a zero divisor. *)
Definition roi_pct (self : t) : outcome (option Q) :=
  match sell_price_usd self with
  | None => Returns None
  | Some sell =>
      if Qeq_bool (buy_price_usd self) 0 then ZeroDivisionError
      else Returns (Some ((sell - buy_price_usd self) / buy_price_usd self))
  end.

(** The property [profit_usd]. *)
Definition profit_usd (self : t) : option Q :=
  match sell_price_usd self with
  | None => None
  | Some sell => Some (sell - buy_price_usd self)
  end.

(** The property [hold_days]: the [days] of a [timedelta] are the floor of
    its length over one day. *)
Definition hold_days (self : t) : option Z :=
  match sell_time self with
  | None => None
  | Some sold => Some ((sold - buy_time self) / 86400000000)%Z
  end.
End Trade.

(* ------------------------------------------------------------------ *)
(** ** Market-B listings: deactivation and lookups
       ([ingestion/csfloat_listings.py]) *)

(** [listing.is_active = False]. *)
Definition deactivate_listing (l : CSFloatListing.t) : CSFloatListing.t := {|
  CSFloatListing.id := CSFloatListing.id l;
  CSFloatListing.csfloat_id := CSFloatListing.csfloat_id l;
  CSFloatListing.market_hash_name := CSFloatListing.market_hash_name l;
  CSFloatListing.price_cents := CSFloatListing.price_cents l;
  CSFloatListing.discount := CSFloatListing.discount l;
  CSFloatListing.listing_type := CSFloatListing.listing_type l;
  CSFloatListing.float_value := CSFloatListing.float_value l;
  CSFloatListing.paint_seed := CSFloatListing.paint_seed l;
  CSFloatListing.wear_name := CSFloatListing.wear_name l;
  CSFloatListing.stickers_json := CSFloatListing.stickers_json l;
  CSFloatListing.reference_quantity := CSFloatListing.reference_quantity l;
  CSFloatListing.watchers := CSFloatListing.watchers l;
  CSFloatListing.seen_at := CSFloatListing.seen_at l;
  CSFloatListing.last_checked_at := CSFloatListing.last_checked_at l;
  CSFloatListing.is_active := false
|}.

(** The filter of [mark_inactive_listings]: active, and the external id
    not in the set. *)
Definition no_longer_listed (active_listing_ids : list string)
  (l : CSFloatListing.t) : bool :=
  CSFloatListing.is_active l
  && negb (mem (CSFloatListing.csfloat_id l) active_listing_ids).

(** [mark_inactive_listings]; the set of ids is a list, read through
    [in]. *)
Definition mark_inactive_listings
  (session : Session.t) (active_listing_ids : list string) (now : Z)
  : Session.t * nat :=
  let listings :=
    filter (no_longer_listed active_listing_ids)
           (Session.csfloat_listings session) in
  let marked :=
    map (fun l => if no_longer_listed active_listing_ids l
                  then deactivate_listing l else l)
        (Session.csfloat_listings session) in
  (Session.commit now (Session.with_listings marked session),
   List.length listings).

(** [ORDER BY price_cents ASC]: insertion into a list sorted by rising
    price; rows of equal price keep their table order. *)
Fixpoint insert_by_price (x : CSFloatListing.t) (l : list CSFloatListing.t)
  : list CSFloatListing.t :=
  match l with
  | [] => [x]
  | y :: rest =>
      if (CSFloatListing.price_cents x <=? CSFloatListing.price_cents y)%Z
      then x :: l
      else y :: insert_by_price x rest
  end.

Definition order_by_price_asc (l : list CSFloatListing.t)
  : list CSFloatListing.t :=
  fold_right insert_by_price [] l.

(** The filter both lookups share: the key, and active. *)
Definition active_listing_of (market_hash_name : string)
  (l : CSFloatListing.t) : bool :=
  String.eqb (CSFloatListing.market_hash_name l) market_hash_name
  && CSFloatListing.is_active l.

Definition get_active_listings_for_item
  (session : Session.t) (market_hash_name : string) : list CSFloatListing.t :=
  order_by_price_asc
    (filter (active_listing_of market_hash_name)
            (Session.csfloat_listings session)).

Definition get_lowest_csfloat_price
  (session : Session.t) (market_hash_name : string) : option Z :=
  match order_by_price_asc
          (filter (active_listing_of market_hash_name)
                  (Session.csfloat_listings session)) with
  | listing :: _ => Some (CSFloatListing.price_cents listing)
  | [] => None
  end.

(* ------------------------------------------------------------------ *)
(** ** Market-A floors: the lookups ([ingestion/buff_prices.py]) *)

(** [get_latest_buff_floor_by_goods_id]. *)
Definition get_latest_buff_floor_by_goods_id
  (session : Session.t) (goods_id : Z) : option BuffPriceSnapshot.t :=
  Session.latest_snapshot goods_id session.

(** [get_latest_buff_floor]: the item of the name first, then the most
    recent snapshot of its goods id. *)
Definition get_latest_buff_floor
  (session : Session.t) (market_hash_name : string)
  : option BuffPriceSnapshot.t :=
  match Session.first
          (fun item =>
             String.eqb (BuffItem.market_hash_name item) market_hash_name)
          (Session.buff_items session) with
  | None => None
  | Some item => Session.latest_snapshot (BuffItem.goods_id item) session
  end.

(* ------------------------------------------------------------------ *)
(** ** The watch-list ([core/watchlist.py]) *)

Local Open Scope string_scope.

Definition DEFAULT_WATCHLIST_ITEMS : list string :=
  ["AK-47 | Case Hardened (Field-Tested)";
   "AK-47 | Case Hardened (Minimal Wear)";
   "AK-47 | Case Hardened (Well-Worn)";
   "AK-47 | Case Hardened (Factory New)";
   "AK-47 | Case Hardened (Battle-Scarred)";
   "AK-47 | Redline (Field-Tested)";
   "AK-47 | Asiimov (Field-Tested)";
   "AK-47 | Asiimov (Battle-Scarred)";
   "AK-47 | Vulcan (Factory New)";
   "AK-47 | Vulcan (Minimal Wear)";
   "AK-47 | Vulcan (Field-Tested)";
   "AWP | Asiimov (Field-Tested)";
   "AWP | Asiimov (Battle-Scarred)";
   "AWP | Asiimov (Well-Worn)";
   "AWP | Lightning Strike (Factory New)";
   "AWP | Dragon Lore (Field-Tested)";
   "AWP | Dragon Lore (Minimal Wear)";
   "AWP | Dragon Lore (Factory New)";
   "M4A4 | Howl (Field-Tested)";
   "M4A4 | Howl (Minimal Wear)";
   "M4A4 | Howl (Factory New)";
   "M4A4 | Asiimov (Field-Tested)";
   "★ Karambit | Case Hardened (Field-Tested)";
   "★ Karambit | Case Hardened (Minimal Wear)";
   "★ Karambit | Case Hardened (Well-Worn)";
   "★ Karambit | Case Hardened (Factory New)";
   "★ Karambit | Doppler (Factory New)";
   "★ Karambit | Fade (Factory New)";
   "★ Karambit | Tiger Tooth (Factory New)";
   "★ Karambit | Marble Fade (Factory New)";
   "★ Butterfly Knife | Case Hardened (Field-Tested)";
   "★ Butterfly Knife | Case Hardened (Minimal Wear)";
   "★ Butterfly Knife | Doppler (Factory New)";
   "★ Butterfly Knife | Fade (Factory New)";
   "★ Sport Gloves | Pandora's Box (Field-Tested)";
   "★ Sport Gloves | Pandora's Box (Minimal Wear)";
   "★ Specialist Gloves | Crimson Kimono (Field-Tested)";
   "★ Specialist Gloves | Crimson Kimono (Minimal Wear)"].

Local Close Scope string_scope.

(** [list.remove(x)] where [x] is in the list: its first occurrence goes. *)
Fixpoint list_remove (x : string) (l : list string) : list string :=
  match l with
  | [] => []
  | y :: rest => if String.eqb y x then rest else y :: list_remove x rest
  end.

Module Watchlist.
Record t := {
  items : list string
}.

(** [Watchlist(items)]: [items or []]. *)
Definition __init__ (items : option (list string)) : t := {|
  items := match items with
           | Some l => l
           | None => []
           end
|}.

Definition add (self : t) (market_hash_name : string) : t :=
  if negb (mem market_hash_name (items self))
  then {| items := items self ++ [market_hash_name] |}
  else self.

(** [remove]: the watch-list after it and what it returns. *)
Definition remove (self : t) (market_hash_name : string) : t * bool :=
  if mem market_hash_name (items self)
  then ({| items := list_remove market_hash_name (items self) |}, true)
  else (self, false).

Definition contains (self : t) (market_hash_name : string) : bool :=
  mem market_hash_name (items self).

Definition clear (self : t) : t := {| items := [] |}.

Definition __len__ (self : t) : nat := List.length (items self).
End Watchlist.

(** [get_default_watchlist]; [loaded] is the watch-list of the file
    [data/watchlist.json], [None] when the file does not exist or does not
    load. *)
Definition get_default_watchlist (loaded : option Watchlist.t) : Watchlist.t :=
  match loaded with
  | Some watchlist => watchlist
  | None => Watchlist.__init__ (Some DEFAULT_WATCHLIST_ITEMS)
  end.

(** [watchlist or get_default_watchlist()], the head of
    [compute_buff_to_csfloat_signals]: [None] is falsy, and so is a
    watch-list of length 0, the class defining [__len__] and no
    [__bool__]. *)
Definition watchlist_or_default
  (watchlist : option Watchlist.t) (loaded : option Watchlist.t)
  : Watchlist.t :=
  match watchlist with
  | Some w =>
      if (Watchlist.__len__ w =? 0)%nat then get_default_watchlist loaded
      else w
  | None => get_default_watchlist loaded
  end.

(* ------------------------------------------------------------------ *)
(** ** The market-B client: pages of listings ([clients/csfloat_client.py]) *)

(** The query of [GET /api/v1/listings]; an absent key is [None]. *)
Module ListingsParams.
Record t := {
  type : string;
  sort_by : string;
  limit : Z;
  min_price : option Z;
  max_price : option Z;
  cursor : option string;
  market_hash_name : option string
}.
End ListingsParams.

(** [if s:] on an optional string: neither [None] nor empty. *)
Definition if_str (s : option string) : option string :=
  match s with
  | Some s' => if String.eqb s' EmptyString then None else Some s'
  | None => None
  end.

(** What a request comes to: the listings parsed from the answer and its
    ["cursor"], or an exception ([None]).  The answer may depend on the
    requests [sent] before. *)
Definition Market : Type :=
  list ListingsParams.t -> ListingsParams.t
  -> option (list CSFloatListingDTO.t * option string).

(** [fetch_listings]: what it returns, and the requests sent so far. *)
Definition fetch_listings
  (request : Market) (sent : list ListingsParams.t)
  (listing_type : string) (min_price_cents max_price_cents : option Z)
  (sort_by : string) (limit : Z) (cursor market_hash_name : option string)
  : (list CSFloatListingDTO.t * option string) * list ListingsParams.t :=
  let params := {|
    ListingsParams.type := listing_type;
    ListingsParams.sort_by := sort_by;
    ListingsParams.limit := Z.min limit 50;
    ListingsParams.min_price := min_price_cents;
    ListingsParams.max_price := max_price_cents;
    ListingsParams.cursor := if_str cursor;
    ListingsParams.market_hash_name := if_str market_hash_name
  |} in
  (match request sent params with
   | Some (listings, next_cursor) => (listings, next_cursor)
   | None => ([], None)
   end,
   sent ++ [params]).

(** The loop [for page in range(pages)] of
    [fetch_top_discounted_buy_now_listings]. *)
Fixpoint fetch_pages
  (request : Market) (min_price_cents : Z) (max_price_cents : option Z)
  (pages : nat) (cursor : option string)
  (all_listings : list CSFloatListingDTO.t) (sent : list ListingsParams.t)
  : list CSFloatListingDTO.t * list ListingsParams.t :=
  match pages with
  | O => (all_listings, sent)
  | S remaining =>
      let '((listings, cursor), sent) :=
        fetch_listings request sent "buy_now" (Some min_price_cents)
                       max_price_cents "highest_discount" 50 cursor None in
      match listings with
      | [] => (all_listings, sent)
      | _ :: _ =>
          let all_listings := all_listings ++ listings in
          match cursor with
          | None => (all_listings, sent)
          | Some _ =>
              fetch_pages request min_price_cents max_price_cents remaining
                          cursor all_listings sent
          end
      end
  end.

Definition fetch_top_discounted_buy_now_listings
  (request : Market) (sent : list ListingsParams.t)
  (min_price_cents : Z) (max_price_cents : option Z) (pages : Z)
  (min_discount : option Q)
  : list CSFloatListingDTO.t * list ListingsParams.t :=
  let '(all_listings, sent) :=
    fetch_pages request min_price_cents max_price_cents (Z.to_nat pages)
                None [] sent in
  (match min_discount with
   | Some m =>
       filter (fun l => match CSFloatListingDTO.discount l with
                        | Some d => Qleb m d
                        | None => false
                        end)
              all_listings
   | None => all_listings
   end,
   sent).

(* ------------------------------------------------------------------ *)
(** ** Recording trades ([cli/main.py]) *)

(** The database of the commands: the tables of the engine and the trade
    table. *)
Module Store.
Record t := {
  session : Session.t;
  trades : list Trade.t
}.
End Store.

(** How a command ends: normally, by [typer.Exit(code)], or with the
    [ZeroDivisionError] of a metric it prints; each with the database it
    leaves.  An exception leaving the [with get_session()] block rolls
    back what was not committed. *)
Inductive command_result :=
| Completed (store : Store.t)
| Exit (code : Z) (store : Store.t)
| Raised (store : Store.t).

(** [direction_map.get(direction)]. *)
Definition direction_map (direction : string) : option string :=
  if String.eqb direction "csfloat-to-buff" then Some CSFLOAT_TO_BUFF
  else if String.eqb direction "buff-to-csfloat" then Some BUFF_TO_CSFLOAT
  else None.

(** [signal.acted_on = True]. *)
Definition mark_acted_on (s : ArbitrageSignal.t) : ArbitrageSignal.t := {|
  ArbitrageSignal.id := ArbitrageSignal.id s;
  ArbitrageSignal.direction := ArbitrageSignal.direction s;
  ArbitrageSignal.market_hash_name := ArbitrageSignal.market_hash_name s;
  ArbitrageSignal.buff_goods_id := ArbitrageSignal.buff_goods_id s;
  ArbitrageSignal.csfloat_listing_id := ArbitrageSignal.csfloat_listing_id s;
  ArbitrageSignal.buff_floor_cny := ArbitrageSignal.buff_floor_cny s;
  ArbitrageSignal.buff_floor_usd := ArbitrageSignal.buff_floor_usd s;
  ArbitrageSignal.csfloat_price_usd := ArbitrageSignal.csfloat_price_usd s;
  ArbitrageSignal.roi_pct := ArbitrageSignal.roi_pct s;
  ArbitrageSignal.created_at := ArbitrageSignal.created_at s;
  ArbitrageSignal.note := ArbitrageSignal.note s;
  ArbitrageSignal.is_active := ArbitrageSignal.is_active s;
  ArbitrageSignal.acted_on := true
|}.

(** [if x:] on an optional number: neither [None] nor zero. *)
Definition if_int (x : option Z) : option Z :=
  match x with
  | Some n => if (n =? 0)%Z then None else Some n
  | None => None
  end.

Definition if_float (x : option Q) : option Q :=
  match x with
  | Some q => if Qeq_bool q 0 then None else Some q
  | None => None
  end.

(** The command [record-trade]; [now] is the reading of [datetime.utcnow()]
    and [commit_time] the time of the insert, which [buy_time] defaults
    to. *)
Definition record_trade
  (store : Store.t) (direction buy_market : string)
  (sell_market : option string) (buy_price : Q) (sell_price : option Q)
  (item_name : option string) (signal_id : option Z) (note : option string)
  (now commit_time : Z) : command_result :=
  match direction_map direction with
  | None => Exit 1 store
  | Some db_direction =>
      let session := get_session (Store.session store) in
      let lookup :=
        fun id (sg : ArbitrageSignal.t) => (ArbitrageSignal.id sg =? id)%Z in
      let signal :=
        match if_int signal_id with
        | Some id =>
            Session.first (lookup id) (Session.arbitrage_signals session)
        | None => None
        end in
      let market_hash_name :=
        match signal with
        | Some sg => Some (ArbitrageSignal.market_hash_name sg)
        | None => item_name
        end in
      let session :=
        match signal with
        | Some sg =>
            Session.with_signals
              (Session.update_first (lookup (ArbitrageSignal.id sg))
                                    mark_acted_on
                                    (Session.arbitrage_signals session))
              session
        | None => session
        end in
      match if_str market_hash_name with
      | None => Exit 1 store
      | Some market_hash_name =>
          let trade := {|
            Trade.id := Session.next_id Trade.id (Store.trades store);
            Trade.signal_id := signal_id;
            Trade.market_hash_name := market_hash_name;
            Trade.direction := db_direction;
            Trade.buy_market := buy_market;
            Trade.sell_market := sell_market;
            Trade.buy_price_usd := buy_price;
            Trade.sell_price_usd := sell_price;
            Trade.buy_time := commit_time;
            Trade.sell_time :=
              match if_float sell_price with
              | Some _ => Some now
              | None => None
              end;
            Trade.note := note
          |} in
          let store := {|
            Store.session := Session.commit commit_time session;
            Store.trades := Store.trades store ++ [trade]
          |} in
          match Trade.roi_pct trade with
          | Returns _ => Completed store
          | ZeroDivisionError => Raised store
          end
      end
  end.

(** The assignments of [update-trade]. *)
Definition close_trade (sell_price : Q) (sell_market note : option string)
  (now : Z) (trade : Trade.t) : Trade.t := {|
  Trade.id := Trade.id trade;
  Trade.signal_id := Trade.signal_id trade;
  Trade.market_hash_name := Trade.market_hash_name trade;
  Trade.direction := Trade.direction trade;
  Trade.buy_market := Trade.buy_market trade;
  Trade.sell_market :=
    match if_str sell_market with
    | Some m => Some m
    | None => Trade.sell_market trade
    end;
  Trade.buy_price_usd := Trade.buy_price_usd trade;
  Trade.sell_price_usd := Some sell_price;
  Trade.buy_time := Trade.buy_time trade;
  Trade.sell_time := Some now;
  Trade.note :=
    match if_str note with
    | Some n => Some n
    | None => Trade.note trade
    end
|}.

(** The command [update-trade]. *)
Definition update_trade
  (store : Store.t) (trade_id : Z) (sell_price : Q)
  (sell_market note : option string) (now commit_time : Z) : command_result :=
  let session := get_session (Store.session store) in
  let lookup := fun (t : Trade.t) => (Trade.id t =? trade_id)%Z in
  match Session.first lookup (Store.trades store) with
  | None => Exit 1 store
  | Some trade =>
      let store := {|
        Store.session := Session.commit commit_time session;
        Store.trades :=
          Session.update_first lookup
            (close_trade sell_price sell_market note now) (Store.trades store)
      |} in
      match Trade.roi_pct (close_trade sell_price sell_market note now trade) with
      | Returns _ => Completed store
      | ZeroDivisionError => Raised store
      end
  end.

(* ------------------------------------------------------------------ *)
(** ** The other scheduled jobs ([run_bot.py]) *)

(** [ArbBot.run_buff_to_csfloat_scan]: the default watch-list, then, in a
    session of its own, direction B over it (which reads the watch-list
    file again should the list be empty), then the commit at the exit of
    the session. *)
Definition run_buff_to_csfloat_scan
  (store : Session.t) (config : Config.t)
  (loaded loaded_again : option Watchlist.t)
  (csfloat_client : string -> option CSFloatListingDTO.t)
  (commit_time exit_commit : Z) : Session.t :=
  let watchlist := get_default_watchlist loaded in
  let session := get_session store in
  let '(session', signals) :=
    compute_buff_to_csfloat_signals
      session config
      (Watchlist.items (watchlist_or_default (Some watchlist) loaded_again))
      csfloat_client commit_time in
  Session.commit exit_commit session'.

(** [ArbBot.run_stale_cleanup]: the sweep at 24 hours, in a session of its
    own. *)
Definition run_stale_cleanup (store : Session.t) (now exit_commit : Z)
  : Session.t :=
  let session := get_session store in
  let '(session', count) := deactivate_stale_signals session 24 now in
  Session.commit exit_commit session'.

(* ------------------------------------------------------------------ *)
(** ** What the dashboard and [list-opps] show
       ([dashboard/live_dashboard.py], [cli/main.py]) *)

(** The five numbers of the statistics panel. *)
Module Stats.
Record t := {
  active_signals : nat;
  high_roi_signals : nat;
  very_high_roi_signals : nat;
  recent_snapshots : nat;
  active_listings : nat
}.
End Stats.




(* ------------------------------------------------------------------ *)
(** ** Names of items: weapon, skin and wear ([ingestion/buff_prices.py]) *)

(** White space, for [\s] and [str.strip]: the bytes 9-13, 28-31 and 32. *)
Definition is_space (c : ascii) : bool :=
  let n := nat_of_ascii c in
  ((9 <=? n)%nat && (n <=? 13)%nat) || ((28 <=? n)%nat && (n <=? 32)%nat).

(** [.]: any character but the newline. *)
Definition is_dot (c : ascii) : bool := negb (Ascii.eqb c "010"%char).

(** [$]: the end of the string, or the newline that ends it. *)
Definition at_end (s : string) : bool :=
  match s with
  | EmptyString => true
  | String c EmptyString => Ascii.eqb c "010"%char
  | String _ (String _ _) => false
  end.

(** The pieces of the two patterns, each followed by what is left of the
    pattern, [k]; a piece tries its alternatives in the order of
    [re.match] and gives the first that lets the rest match. *)
Section Backtracking.
Variable R : Type.

(** [(c+?)]: the shortest run of [c] first; [group] is what the group
    holds so far. *)
Fixpoint lazy_plus (c : ascii -> bool) (group s : string)
         (k : string -> string -> option R) : option R :=
  match s with
  | EmptyString => None
  | String a rest =>
      if c a then
        let group := String.append group (String a EmptyString) in
        match k group rest with
        | Some r => Some r
        | None => lazy_plus c group rest k
        end
      else None
  end.

(** [c*]: the longest run of [c] first. *)
Fixpoint greedy_star (c : ascii -> bool) (s : string)
         (k : string -> option R) : option R :=
  match s with
  | EmptyString => k s
  | String a rest =>
      if c a then
        match greedy_star c rest k with
        | Some r => Some r
        | None => k s
        end
      else k s
  end.

(** One character as it stands. *)
Definition literal (a : ascii) (s : string) (k : string -> option R)
  : option R :=
  match s with
  | EmptyString => None
  | String b rest => if Ascii.eqb a b then k rest else None
  end.
End Backtracking.
Arguments lazy_plus {R} c group s k.
Arguments greedy_star {R} c s k.
Arguments literal {R} a s k.

(** [re.match(r"^(.+?)\s*\|\s*(.+?)\s*\((.+?)\)$", s)]: the three groups. *)
Definition match_pattern (s : string) : option (string * string * string) :=
  lazy_plus is_dot EmptyString s (fun g1 s =>
  greedy_star is_space s (fun s =>
  literal "|" s (fun s =>
  greedy_star is_space s (fun s =>
  lazy_plus is_dot EmptyString s (fun g2 s =>
  greedy_star is_space s (fun s =>
  literal "(" s (fun s =>
  lazy_plus is_dot EmptyString s (fun g3 s =>
  literal ")" s (fun s =>
  if at_end s then Some (g1, g2, g3) else None))))))))).

(** [re.match(r"^(.+?)\s*\|\s*(.+?)$", s)]: the two groups. *)
Definition match_pattern_no_wear (s : string) : option (string * string) :=
  lazy_plus is_dot EmptyString s (fun g1 s =>
  greedy_star is_space s (fun s =>
  literal "|" s (fun s =>
  greedy_star is_space s (fun s =>
  lazy_plus is_dot EmptyString s (fun g2 s =>
  if at_end s then Some (g1, g2) else None))))).

Fixpoint lstrip (s : string) : string :=
  match s with
  | EmptyString => EmptyString
  | String a rest => if is_space a then lstrip rest else s
  end.

Fixpoint rstrip (s : string) : string :=
  match s with
  | EmptyString => EmptyString
  | String a rest =>
      match rstrip rest with
      | EmptyString => if is_space a then EmptyString else String a EmptyString
      | String b kept => String a (String b kept)
      end
  end.

(** [s.strip()]. *)
Definition strip (s : string) : string := rstrip (lstrip s).

Definition parse_item_name (market_hash_name : string)
  : option string * option string * option string :=
  match match_pattern market_hash_name with
  | Some (g1, g2, g3) => (Some (strip g1), Some (strip g2), Some (strip g3))
  | None =>
      match match_pattern_no_wear market_hash_name with
      | Some (g1, g2) => (Some (strip g1), Some (strip g2), None)
      | None => (None, None, None)
      end
  end.

(* ------------------------------------------------------------------ *)
(** ** Market-A items ([ingestion/buff_prices.py]) *)

(** What [BuffItem(...)] is constructed with; [id] and both times are
    given by the store when the row is flushed. *)
Module BuffItemInit.
Record t := {
  goods_id : Z;
  market_hash_name : string;
  weapon : option string;
  skin_name : option string;
  wear : option string
}.
End BuffItemInit.

(** The session of the market-A ingestion: the session and the items
    handed to [session.add], not flushed yet. *)
Module ItemSession.
Record t := {
  session : Session.t;
  new_items : list BuffItemInit.t
}.
End ItemSession.

(** What [upsert_buff_item] returns: a row of the table, or the new
    object. *)
Inductive ItemRef :=
| ExistingItem (row : BuffItem.t)
| NewItem (init : BuffItemInit.t).

(** [existing.last_seen_at = datetime.utcnow()]. *)
Definition seen_again (now : Z) (existing : BuffItem.t) : BuffItem.t := {|
  BuffItem.id := BuffItem.id existing;
  BuffItem.goods_id := BuffItem.goods_id existing;
  BuffItem.market_hash_name := BuffItem.market_hash_name existing;
  BuffItem.weapon := BuffItem.weapon existing;
  BuffItem.skin_name := BuffItem.skin_name existing;
  BuffItem.wear := BuffItem.wear existing;
  BuffItem.first_seen_at := BuffItem.first_seen_at existing;
  BuffItem.last_seen_at := now
|}.

Definition with_items (items : list BuffItem.t) (s : Session.t) : Session.t := {|
  Session.buff_items := items;
  Session.buff_price_snapshots := Session.buff_price_snapshots s;
  Session.csfloat_listings := Session.csfloat_listings s;
  Session.arbitrage_signals := Session.arbitrage_signals s;
  Session.new_snapshots := Session.new_snapshots s;
  Session.new_signals := Session.new_signals s
|}.

(** [upsert_buff_item]; it does not flush. *)
Definition upsert_buff_item
  (s : ItemSession.t) (item_dto : BuffItemDTO.t) (now : Z)
  : ItemSession.t * ItemRef :=
  let session := ItemSession.session s in
  let lookup :=
    fun it => (BuffItem.goods_id it =? BuffItemDTO.goods_id item_dto)%Z in
  match Session.first lookup (Session.buff_items session) with
  | Some existing =>
      ({| ItemSession.session :=
            with_items (Session.update_first lookup (seen_again now)
                          (Session.buff_items session))
                       session;
          ItemSession.new_items := ItemSession.new_items s |},
       ExistingItem (seen_again now existing))
  | None =>
      let '(weapon, skin_name, wear) :=
        parse_item_name (BuffItemDTO.market_hash_name item_dto) in
      let item := {|
        BuffItemInit.goods_id := BuffItemDTO.goods_id item_dto;
        BuffItemInit.market_hash_name := BuffItemDTO.market_hash_name item_dto;
        BuffItemInit.weapon := weapon;
        BuffItemInit.skin_name := skin_name;
        BuffItemInit.wear := wear
      |} in
      ({| ItemSession.session := session;
          ItemSession.new_items := ItemSession.new_items s ++ [item] |},
       NewItem item)
  end.

(* ------------------------------------------------------------------ *)
(** ** Vocabulary of the statements *)

(** [m] is a least element of [xs]. *)
Definition is_minimum_of (m : Q) (xs : list Q) : Prop :=
  In m xs /\ forall x, In x xs -> m <= x.

(** The per-tag minimum prices of a market-A record, and the positive ones
    among them. *)
Definition per_tag_minimums (d : BuffItemDTO.t) : list Q :=
  map BuffSaleDTO.min_price (BuffItemDTO.sales d).

Definition positive_minimums (d : BuffItemDTO.t) : list Q :=
  filter (Qltb 0) (per_tag_minimums d).

(** A record with one priced tag and one tag without a price, as the parser
    of the feed builds it ([min_price] falls back to [0]). *)
Definition mixed_record : BuffItemDTO.t := {|
  BuffItemDTO.goods_id := 33912;
  BuffItemDTO.market_hash_name := "AK-47 | Redline (Field-Tested)";
  BuffItemDTO.update_time := None;
  BuffItemDTO.stat_time := None;
  BuffItemDTO.sales := [
    {| BuffSaleDTO.min_price := 5; BuffSaleDTO.tag_id := Some 1%Z;
       BuffSaleDTO.tag_name := Some "normal"%string |};
    {| BuffSaleDTO.min_price := 0; BuffSaleDTO.tag_id := Some 2%Z;
       BuffSaleDTO.tag_name := Some "stattrak"%string |} ]
|}.

(** The default configuration with another [allowed_item_types]. *)
Definition config_allowing (types : list string) : Config.t := {|
  Config.fx_cny_to_usd := Config.fx_cny_to_usd Config.default;
  Config.buff_sell_fee_pct := Config.buff_sell_fee_pct Config.default;
  Config.csfloat_buy_fee_pct := Config.csfloat_buy_fee_pct Config.default;
  Config.csfloat_sell_fee_pct := Config.csfloat_sell_fee_pct Config.default;
  Config.min_price_usd := Config.min_price_usd Config.default;
  Config.max_price_usd := Config.max_price_usd Config.default;
  Config.min_roi_csfloat_to_buff := Config.min_roi_csfloat_to_buff Config.default;
  Config.min_roi_buff_to_csfloat := Config.min_roi_buff_to_csfloat Config.default;
  Config.min_csfloat_listings := Config.min_csfloat_listings Config.default;
  Config.min_watchers := Config.min_watchers Config.default;
  Config.allowed_item_types := types
|}.


(** The lookups both computations start with. *)
Definition item_by_name (name : string) (session : Session.t) : option BuffItem.t :=
  Session.first (fun it => String.eqb (BuffItem.market_hash_name it) name)
                (Session.buff_items session).

(** A small store: one item, one snapshot of it (floor 1000 CNY, taken at
    [example_snapshot_time]), one listing of it at 100.00 USD. *)
Definition example_snapshot_time : Z := 1700000000000000.

Definition example_item : BuffItem.t := {|
  BuffItem.id := 1;
  BuffItem.goods_id := 33912;
  BuffItem.market_hash_name := "AK-47 | Redline (Field-Tested)";
  BuffItem.weapon := Some "AK-47"%string;
  BuffItem.skin_name := Some "Redline"%string;
  BuffItem.wear := Some "Field-Tested"%string;
  BuffItem.first_seen_at := example_snapshot_time;
  BuffItem.last_seen_at := example_snapshot_time
|}.

Definition example_snapshot : BuffPriceSnapshot.t := {|
  BuffPriceSnapshot.id := 1;
  BuffPriceSnapshot.timestamp := example_snapshot_time;
  BuffPriceSnapshot.goods_id := 33912;
  BuffPriceSnapshot.overall_min_price := 1000;
  BuffPriceSnapshot.tag_floors_json := None;
  BuffPriceSnapshot.stat_time := None;
  BuffPriceSnapshot.within_target_range := true
|}.

Definition example_listing : CSFloatListing.t := {|
  CSFloatListing.id := 7;
  CSFloatListing.csfloat_id := "890123";
  CSFloatListing.market_hash_name := "AK-47 | Redline (Field-Tested)";
  CSFloatListing.price_cents := 10000;
  CSFloatListing.discount := None;
  CSFloatListing.listing_type := "buy_now";
  CSFloatListing.float_value := None;
  CSFloatListing.paint_seed := None;
  CSFloatListing.wear_name := None;
  CSFloatListing.stickers_json := None;
  CSFloatListing.reference_quantity := Some 12%Z;
  CSFloatListing.watchers := None;
  CSFloatListing.seen_at := example_snapshot_time;
  CSFloatListing.last_checked_at := example_snapshot_time;
  CSFloatListing.is_active := true
|}.

Definition example_session : Session.t := {|
  Session.buff_items := [example_item];
  Session.buff_price_snapshots := [example_snapshot];
  Session.csfloat_listings := [example_listing];
  Session.arbitrage_signals := [];
  Session.new_snapshots := [];
  Session.new_signals := []
|}.

(** The default configuration with another exchange rate. *)
Definition config_with_fx (fx : Q) : Config.t := {|
  Config.fx_cny_to_usd := fx;
  Config.buff_sell_fee_pct := Config.buff_sell_fee_pct Config.default;
  Config.csfloat_buy_fee_pct := Config.csfloat_buy_fee_pct Config.default;
  Config.csfloat_sell_fee_pct := Config.csfloat_sell_fee_pct Config.default;
  Config.min_price_usd := Config.min_price_usd Config.default;
  Config.max_price_usd := Config.max_price_usd Config.default;
  Config.min_roi_csfloat_to_buff := Config.min_roi_csfloat_to_buff Config.default;
  Config.min_roi_buff_to_csfloat := Config.min_roi_buff_to_csfloat Config.default;
  Config.min_csfloat_listings := Config.min_csfloat_listings Config.default;
  Config.min_watchers := Config.min_watchers Config.default;
  Config.allowed_item_types := Config.allowed_item_types Config.default
|}.

(** The cheapest market-B listing of the example item, at [cents], and a
    market that offers it. *)
Definition example_cheapest (cents : Z) : CSFloatListingDTO.t := {|
  CSFloatListingDTO.listing_id := "890124";
  CSFloatListingDTO.market_hash_name := "AK-47 | Redline (Field-Tested)";
  CSFloatListingDTO.price_cents := cents;
  CSFloatListingDTO.discount := None;
  CSFloatListingDTO.listing_type := "buy_now";
  CSFloatListingDTO.float_value := None;
  CSFloatListingDTO.paint_seed := None;
  CSFloatListingDTO.wear_name := None;
  CSFloatListingDTO.stickers := [];
  CSFloatListingDTO.created_at := None;
  CSFloatListingDTO.reference_quantity := None;
  CSFloatListingDTO.watchers := None
|}.

Definition example_client (cents : Z) (name : string)
  : option CSFloatListingDTO.t :=
  if String.eqb name "AK-47 | Redline (Field-Tested)"
  then Some (example_cheapest cents)
  else None.

(** [a] may stand before [b] in a ranking. *)
Definition roi_desc (a b : ArbitrageSignal.t) : Prop :=
  ArbitrageSignal.roi_pct b <= ArbitrageSignal.roi_pct a.



(** [b] is [a] with, at most, another [is_active]. *)
Definition same_but_active (a b : ArbitrageSignal.t) : Prop :=
  ArbitrageSignal.id b = ArbitrageSignal.id a
  /\ ArbitrageSignal.direction b = ArbitrageSignal.direction a
  /\ ArbitrageSignal.market_hash_name b = ArbitrageSignal.market_hash_name a
  /\ ArbitrageSignal.buff_goods_id b = ArbitrageSignal.buff_goods_id a
  /\ ArbitrageSignal.csfloat_listing_id b = ArbitrageSignal.csfloat_listing_id a
  /\ ArbitrageSignal.buff_floor_cny b = ArbitrageSignal.buff_floor_cny a
  /\ ArbitrageSignal.buff_floor_usd b = ArbitrageSignal.buff_floor_usd a
  /\ ArbitrageSignal.csfloat_price_usd b = ArbitrageSignal.csfloat_price_usd a
  /\ ArbitrageSignal.roi_pct b = ArbitrageSignal.roi_pct a
  /\ ArbitrageSignal.created_at b = ArbitrageSignal.created_at a
  /\ ArbitrageSignal.note b = ArbitrageSignal.note a
  /\ ArbitrageSignal.acted_on b = ArbitrageSignal.acted_on a.

(** [b] is [a] with, at most, other prices and another ROI. *)
Definition same_but_prices (a b : ArbitrageSignal.t) : Prop :=
  ArbitrageSignal.id b = ArbitrageSignal.id a
  /\ ArbitrageSignal.direction b = ArbitrageSignal.direction a
  /\ ArbitrageSignal.market_hash_name b = ArbitrageSignal.market_hash_name a
  /\ ArbitrageSignal.buff_goods_id b = ArbitrageSignal.buff_goods_id a
  /\ ArbitrageSignal.csfloat_listing_id b = ArbitrageSignal.csfloat_listing_id a
  /\ ArbitrageSignal.created_at b = ArbitrageSignal.created_at a
  /\ ArbitrageSignal.note b = ArbitrageSignal.note a
  /\ ArbitrageSignal.is_active b = ArbitrageSignal.is_active a
  /\ ArbitrageSignal.acted_on b = ArbitrageSignal.acted_on a.

(** The signal of the store is active and was created before [cutoff]. *)
Definition older_than (cutoff : Z) (sg : ArbitrageSignal.t) : Prop :=
  ArbitrageSignal.is_active sg = true
  /\ (ArbitrageSignal.created_at sg < cutoff)%Z.

(** The tables a signal computation or a sweep does not write. *)
Definition same_market_data (a b : Session.t) : Prop :=
  Session.buff_items b = Session.buff_items a
  /\ Session.buff_price_snapshots b = Session.buff_price_snapshots a
  /\ Session.csfloat_listings b = Session.csfloat_listings a.


(** A new signal of direction A for the listing [L], waiting for a flush. *)
Definition pending_for_listing (L : Z) (x : SignalInit.t) : bool :=
  option_eqb Z.eqb (SignalInit.csfloat_listing_id x) (Some L)
  && String.eqb (SignalInit.direction x) CSFLOAT_TO_BUFF.

(** The invariant of direction A on a signal table: at most one active
    signal per (direction A, listing id). *)
Definition one_active_per_listing (signals : list ArbitrageSignal.t) : Prop :=
  forall L : Z,
    (List.length (filter (existing_for_listing L) signals) <= 1)%nat.

(** The active signals of direction A for the listing [L] the session
    holds, flushed or not. *)
Definition signals_for_listing (L : Z) (s : Session.t) : nat :=
  (List.length (filter (existing_for_listing L) (Session.arbitrage_signals s))
   + List.length (filter (pending_for_listing L) (Session.new_signals s)))%nat.

(** An active signal of direction A for the example listing, created at
    [example_snapshot_time]. *)
Definition example_signal : ArbitrageSignal.t := {|
  ArbitrageSignal.id := 3;
  ArbitrageSignal.direction := CSFLOAT_TO_BUFF;
  ArbitrageSignal.market_hash_name := "AK-47 | Redline (Field-Tested)";
  ArbitrageSignal.buff_goods_id := Some 33912%Z;
  ArbitrageSignal.csfloat_listing_id := Some 7%Z;
  ArbitrageSignal.buff_floor_cny := Some 990;
  ArbitrageSignal.buff_floor_usd := Some (1287 # 10);
  ArbitrageSignal.csfloat_price_usd := Some 100;
  ArbitrageSignal.roi_pct := 254825 # 1000000;
  ArbitrageSignal.created_at := example_snapshot_time;
  ArbitrageSignal.note := Some "watch"%string;
  ArbitrageSignal.is_active := true;
  ArbitrageSignal.acted_on := true
|}.

Definition example_session_with_signal : Session.t :=
  Session.with_signals [example_signal] example_session.


(** The example listing recomputed 23 hours after the signal was created,
    and the row a computation returned (the example signal when it
    returned no updated row). *)
Definition example_update : Session.t * option SignalRef :=
  _compute_signal_for_listing
    example_session_with_signal example_listing (config_with_fx (13 # 100))
    (example_snapshot_time + timedelta_hours 23).

Definition updated_row (out : Session.t * option SignalRef) : ArbitrageSignal.t :=
  match snd out with
  | Some (Updated row) => row
  | _ => example_signal
  end.


(** The constraints of the listing table: [id] is its primary key and
    [csfloat_id] is unique. *)
Definition listing_table_ok (rows : list CSFloatListing.t) : Prop :=
  NoDup (map CSFloatListing.id rows)
  /\ NoDup (map CSFloatListing.csfloat_id rows).

(** The row [r] is, up to its mutable columns, a row of the table. *)
Definition row_of_table (r : CSFloatListing.t) (rows : list CSFloatListing.t)
  : Prop :=
  exists x, In x rows
            /\ CSFloatListing.id x = CSFloatListing.id r
            /\ CSFloatListing.csfloat_id x = CSFloatListing.csfloat_id r.

(** A scan whose clock stands still. *)
Definition still_clock (now : Z) : ScanClock.t := {|
  ScanClock.ingest := fun _ => now;
  ScanClock.ingest_commit := now;
  ScanClock.compute := fun _ => now;
  ScanClock.compute_commit := now;
  ScanClock.exit_commit := now
|}.

(** A new signal of direction B for the key [name], waiting for a flush. *)
Definition pending_for_name (name : string) (x : SignalInit.t) : bool :=
  String.eqb (SignalInit.market_hash_name x) name
  && String.eqb (SignalInit.direction x) BUFF_TO_CSFLOAT.

(** The invariant of direction B on a signal table: at most one active
    signal per (direction B, cross-market key). *)
Definition one_active_per_name (signals : list ArbitrageSignal.t) : Prop :=
  forall name : string,
    (List.length (filter (existing_for_name name) signals) <= 1)%nat.

(** The active signals of direction B for the key [name] the session holds,
    flushed or not. *)
Definition signals_for_name (name : string) (s : Session.t) : nat :=
  (List.length (filter (existing_for_name name) (Session.arbitrage_signals s))
   + List.length (filter (pending_for_name name) (Session.new_signals s)))%nat.

(** The new signals among what a pass returned. *)
Definition created_inits (refs : list SignalRef) : list SignalInit.t :=
  flat_map (fun r => match r with Created init => [init] | Updated _ => [] end)
           refs.

(** The listing a returned signal is about. *)
Definition ref_listing_id (r : SignalRef) : option Z :=
  match r with
  | Updated row => ArbitrageSignal.csfloat_listing_id row
  | Created init => SignalInit.csfloat_listing_id init
  end.

(** The listings a pass of direction A goes over. *)
Definition pass_listings (session : Session.t)
  (listings : option (list CSFloatListing.t)) : list CSFloatListing.t :=
  match listings with
  | None => filter CSFloatListing.is_active (Session.csfloat_listings session)
  | Some l => l
  end.

(** Both liquidity indicators of a listing, where present, reach the
    configured minimums. *)
Definition liquid_enough (listing : CSFloatListing.t) (config : Config.t) : Prop :=
  (forall q, CSFloatListing.reference_quantity listing = Some q ->
             (Config.min_csfloat_listings config <= q)%Z)
  /\ (forall w, CSFloatListing.watchers listing = Some w ->
                (Config.min_watchers config <= w)%Z).

(** The prices a returned signal records. *)
Definition ref_buff_floor_cny (r : SignalRef) : option Q :=
  match r with
  | Updated row => ArbitrageSignal.buff_floor_cny row
  | Created init => Some (SignalInit.buff_floor_cny init)
  end.

Definition ref_csfloat_price_usd (r : SignalRef) : option Q :=
  match r with
  | Updated row => ArbitrageSignal.csfloat_price_usd row
  | Created init => Some (SignalInit.csfloat_price_usd init)
  end.

(** A signal passes the filters of a ranking query. *)
Definition passes_filters (direction : option string) (min_roi : option Q)
  (active_only : bool) (sg : ArbitrageSignal.t) : bool :=
  (negb active_only || ArbitrageSignal.is_active sg)
  && match direction with
     | Some d => String.eqb d EmptyString
                 || String.eqb (ArbitrageSignal.direction sg) d
     | None => true
     end
  && match min_roi with
     | Some r => Qleb r (ArbitrageSignal.roi_pct sg)
     | None => true
     end.

(** [b] is [a] with, at most, another [is_active]. *)
Definition same_listing_but_active (a b : CSFloatListing.t) : Prop :=
  deactivate_listing b = deactivate_listing a.

(** [a] may stand before [b] in a list by rising price. *)
Definition price_asc (a b : CSFloatListing.t) : Prop :=
  (CSFloatListing.price_cents a <= CSFloatListing.price_cents b)%Z.

(** [d.get(k)] on a dict kept in insertion order. *)
Definition dict_get (d : list (string * Q)) (k : string) : option Q :=
  option_map snd (find (fun kv => String.eqb (fst kv) k) d).

(** The sale carries the tag [k]. *)
Definition tagged (k : string) (sale : BuffSaleDTO.t) : Prop :=
  BuffSaleDTO.tag_name sale = Some k.

(** The patterns of the rules 1-7 of the classification filter, on a
    lowered name. *)
Definition accessory_pattern (name_lower : string) : bool :=
  (startswith "sticker |" name_lower
   || contains "graffiti |" name_lower
   || startswith "sealed graffiti" name_lower
   || startswith "patch |" name_lower
   || contains "agent |" name_lower
   || contains "operator |" name_lower
   || startswith "music kit |" name_lower
   || endswith " case" name_lower
   || endswith " key" name_lower
   || existsb (fun skip => contains skip name_lower) skip_keywords)%string.

(** The categories the rules 1-6 ask for. *)
Definition accessory_categories : list string :=
  ["sticker"; "graffiti"; "patch"; "agent"; "music_kit"; "case"; "key"]%string.

(** A byte that lowering leaves alone and that no other byte is lowered
    to. *)
Definition caseless (c : ascii) : Prop :=
  lower_ascii c = c /\ forall x, lower_ascii x = c -> x = c.

(** [query(CSFloatListing).filter(csfloat_id == external_id).first()]. *)
Definition listing_by_external_id (external_id : string) (session : Session.t)
  : option CSFloatListing.t :=
  Session.first (fun r => String.eqb (CSFloatListing.csfloat_id r) external_id)
                (Session.csfloat_listings session).

(** The answers to the requests [news], sent one after the other after
    the requests [sent]. *)
Fixpoint responses (request : Market) (sent news : list ListingsParams.t)
  : list (option (list CSFloatListingDTO.t * option string)) :=
  match news with
  | [] => []
  | p :: rest => request sent p :: responses request (sent ++ [p]) rest
  end.

Definition listings_of (r : option (list CSFloatListingDTO.t * option string))
  : list CSFloatListingDTO.t :=
  match r with
  | Some (listings, _) => listings
  | None => []
  end.

Definition cursor_of (r : option (list CSFloatListingDTO.t * option string))
  : option string :=
  match r with
  | Some (_, next_cursor) => next_cursor
  | None => None
  end.

(** Each request carries the cursor of the answer before it, the first
    one [cursor]; an empty cursor is not sent. *)
Fixpoint cursors_follow (cursor : option string) (news : list ListingsParams.t)
  (answers : list (option (list CSFloatListingDTO.t * option string))) : Prop :=
  match news, answers with
  | p :: news', r :: answers' =>
      ListingsParams.cursor p = if_str cursor
      /\ cursors_follow (cursor_of r) news' answers'
  | _, _ => True
  end.

(** The query of a page of discounted buy-now listings. *)
Definition discounted_page_query (min_price_cents : Z) (max_price_cents : option Z)
  (p : ListingsParams.t) : Prop :=
  ListingsParams.type p = "buy_now"%string
  /\ ListingsParams.sort_by p = "highest_discount"%string
  /\ ListingsParams.limit p = 50%Z
  /\ ListingsParams.min_price p = Some min_price_cents
  /\ ListingsParams.max_price p = max_price_cents
  /\ ListingsParams.market_hash_name p = None.

(** The answer lets the loop go on: it holds a listing and a cursor. *)
Definition goes_on (r : option (list CSFloatListingDTO.t * option string))
  : Prop :=
  listings_of r <> [] /\ cursor_of r <> None.

Definition reaches_discount (min_discount : Q) (l : CSFloatListingDTO.t) : bool :=
  match CSFloatListingDTO.discount l with
  | Some d => Qleb min_discount d
  | None => false
  end.

(** The signal a trade is recorded for: the lookup of [record-trade]. *)
Definition signal_of_trade (signal_id : option Z) (store : Store.t)
  : option ArbitrageSignal.t :=
  match if_int signal_id with
  | Some id =>
      Session.first (fun sg => (ArbitrageSignal.id sg =? id)%Z)
                    (Session.arbitrage_signals (Store.session store))
  | None => None
  end.

(** The name a trade is recorded under: the signal's, else [--item]. *)
Definition name_of_trade (signal : option ArbitrageSignal.t)
  (item_name : option string) : option string :=
  match signal with
  | Some sg => Some (ArbitrageSignal.market_hash_name sg)
  | None => item_name
  end.

(** The command got as far as its commit. *)
Definition stored (result : command_result) (store : Store.t) : Prop :=
  result = Completed store \/ result = Raised store.

(** The tables of the two markets are the same. *)
Definition same_markets (a b : Session.t) : Prop :=
  Session.buff_items a = Session.buff_items b
  /\ Session.buff_price_snapshots a
     = Session.buff_price_snapshots b
  /\ Session.csfloat_listings a = Session.csfloat_listings b.

Definition trade_by_id (trade_id : Z) (store : Store.t) : option Trade.t :=
  Session.first (fun t => (Trade.id t =? trade_id)%Z) (Store.trades store).

(** The invariants of the store: the keys of the listing
    table, and at most one active signal per listing and per name. *)
Definition store_invariant (store : Session.t) : Prop :=
  listing_table_ok (Session.csfloat_listings store)
  /\ one_active_per_listing (Session.arbitrage_signals store)
  /\ one_active_per_name (Session.arbitrage_signals store).

(** One job of the bot on the store: a scan of market B, a scan of
    direction B over a watch-list without repeated names, a cleanup; or
    any change to the tables of market A. *)
Inductive bot_step (config : Config.t) : Session.t -> Session.t -> Prop :=
| step_csfloat_scan (store : Session.t) (fetched : list CSFloatListingDTO.t)
                    (clock : ScanClock.t) :
    bot_step config store (run_csfloat_scan store config fetched clock)
| step_buff_to_csfloat_scan (store : Session.t)
                            (loaded loaded_again : option Watchlist.t)
                            (csfloat_client : string -> option CSFloatListingDTO.t)
                            (commit_time exit_commit : Z) :
    NoDup (Watchlist.items
             (watchlist_or_default (Some (get_default_watchlist loaded))
                                   loaded_again)) ->
    bot_step config store
             (run_buff_to_csfloat_scan store config loaded loaded_again
                                       csfloat_client commit_time exit_commit)
| step_stale_cleanup (store : Session.t) (now exit_commit : Z) :
    bot_step config store (run_stale_cleanup store now exit_commit)
| step_market_A (store : Session.t) (items : list BuffItem.t)
                (snapshots : list BuffPriceSnapshot.t) :
    bot_step config store {|
      Session.buff_items := items;
      Session.buff_price_snapshots := snapshots;
      Session.csfloat_listings := Session.csfloat_listings store;
      Session.arbitrage_signals := Session.arbitrage_signals store;
      Session.new_snapshots := [];
      Session.new_signals := []
    |}.

(** Any number of jobs, in any order. *)
Inductive bot_runs (config : Config.t) : Session.t -> Session.t -> Prop :=
| runs_none (store : Session.t) : bot_runs config store store
| runs_more (store store' store'' : Session.t) :
    bot_runs config store store' ->
    bot_step config store' store'' ->
    bot_runs config store store''.

Definition empty_store : Session.t := {|
  Session.buff_items := [];
  Session.buff_price_snapshots := [];
  Session.csfloat_listings := [];
  Session.arbitrage_signals := [];
  Session.new_snapshots := [];
  Session.new_signals := []
|}.












Definition item_by_goods_id (goods_id : Z) (s : ItemSession.t)
  : option BuffItem.t :=
  Session.first (fun it => (BuffItem.goods_id it =? goods_id)%Z)
                (Session.buff_items (ItemSession.session s)).

(* ================================================================== *)
(** * Properties *)

(* ------------------------------------------------------------------ *)
(** ** Comparisons *)

Lemma Qltb_spec (a b : Q) : Qltb a b = true <-> a < b.
Proof.
  unfold Qltb. rewrite Qlt_alt. destruct (a ?= b); split; congruence.
Qed.

Lemma Qleb_spec (a b : Q) : Qleb a b = true <-> a <= b.
Proof.
  unfold Qleb. rewrite Qle_alt. destruct (a ?= b); split; congruence.
Qed.

Lemma Qleb_false (a b : Q) : Qleb a b = false <-> b < a.
Proof.
  rewrite <- not_true_iff_false, Qleb_spec. split.
  - apply Qnot_le_lt.
  - apply Qlt_not_le.
Qed.

Lemma Qltb_false (a b : Q) : Qltb a b = false <-> b <= a.
Proof.
  rewrite <- not_true_iff_false, Qltb_spec. split.
  - apply Qnot_lt_le.
  - apply Qle_not_lt.
Qed.

(* ------------------------------------------------------------------ *)
(** ** The floor of a market-A record *)

Lemma py_min_le_start (xs : list Q) : forall m, py_min m xs <= m.
Proof.
  induction xs as [|x xs IH]; intros m; simpl.
  - apply Qle_refl.
  - destruct (Qltb x m) eqn:E.
    + apply Qle_trans with x; [apply IH|].
      apply Qlt_le_weak, Qltb_spec, E.
    + apply IH.
Qed.

Lemma py_min_lower (xs : list Q) :
  forall m x, In x xs -> py_min m xs <= x.
Proof.
  induction xs as [|y xs IH]; intros m x Hin; simpl in *; [contradiction|].
  destruct Hin as [-> | Hin].
  - destruct (Qltb x m) eqn:E.
    + apply py_min_le_start.
    + apply Qle_trans with m; [apply py_min_le_start|].
      apply Qltb_false, E.
  - apply IH, Hin.
Qed.

Lemma py_min_in (xs : list Q) :
  forall m, py_min m xs = m \/ In (py_min m xs) xs.
Proof.
  induction xs as [|y xs IH]; intros m; simpl; [now left|].
  destruct (Qltb y m).
  - destruct (IH y) as [H | H]; right; [left; symmetry; exact H | right; exact H].
  - destruct (IH m) as [H | H]; [left; exact H | right; right; exact H].
Qed.

(** The property [overall_min_price] is a least per-tag minimum. *)
Lemma overall_min_price_minimum (d : BuffItemDTO.t) (m : Q) :
  BuffItemDTO.overall_min_price d = Some m ->
  is_minimum_of m (per_tag_minimums d).
Proof.
  unfold BuffItemDTO.overall_min_price, per_tag_minimums, is_minimum_of.
  destruct (BuffItemDTO.sales d) as [|s rest]; [discriminate|].
  intros [= <-]. simpl. split.
  - destruct (py_min_in (map BuffSaleDTO.min_price rest) (BuffSaleDTO.min_price s))
      as [H | H]; [left; symmetry; exact H | right; exact H].
  - intros x [<- | Hin]; [apply py_min_le_start | apply py_min_lower, Hin].
Qed.

Lemma overall_min_price_none (d : BuffItemDTO.t) :
  BuffItemDTO.overall_min_price d = None <-> BuffItemDTO.sales d = [].
Proof.
  unfold BuffItemDTO.overall_min_price.
  destruct (BuffItemDTO.sales d); split; congruence.
Qed.

(** What [create_price_snapshot] returns, in terms of the overall minimum. *)
Lemma create_price_snapshot_some (session : Session.t) (d : BuffItemDTO.t)
      (cfg : Config.t) (snap : SnapshotInit.t) :
  snd (create_price_snapshot session d cfg) = Some snap <->
  exists m, BuffItemDTO.overall_min_price d = Some m /\ 0 < m
            /\ snap = {|
                 SnapshotInit.goods_id := BuffItemDTO.goods_id d;
                 SnapshotInit.overall_min_price := m;
                 SnapshotInit.tag_floors_json :=
                   match build_tag_floors (BuffItemDTO.sales d) with
                   | [] => None
                   | _ :: _ => Some (build_tag_floors (BuffItemDTO.sales d))
                   end;
                 SnapshotInit.stat_time := BuffItemDTO.stat_time d;
                 SnapshotInit.within_target_range := is_within_price_range m cfg
               |}.
Proof.
  unfold create_price_snapshot.
  destruct (BuffItemDTO.overall_min_price d) as [m|].
  - destruct (Qleb m 0) eqn:E.
    + split; [discriminate|]. intros (m' & [= <-] & Hpos & _).
      apply Qleb_spec in E. exfalso. exact (Qlt_not_le _ _ Hpos E).
    + apply Qleb_false in E. cbv zeta. simpl. split.
      * intros [= <-]. exists m. split; [reflexivity|]. split; [exact E|].
        destruct (build_tag_floors (BuffItemDTO.sales d)); reflexivity.
      * intros (m' & [= <-] & _ & ->).
        destruct (build_tag_floors (BuffItemDTO.sales d)); reflexivity.
  - split; [discriminate|]. intros (m' & H & _). discriminate.
Qed.

(** The session receives the snapshot returned, and nothing else. *)
Lemma create_price_snapshot_session (session : Session.t) (d : BuffItemDTO.t)
      (cfg : Config.t) :
  fst (create_price_snapshot session d cfg)
  = match snd (create_price_snapshot session d cfg) with
    | Some snap => Session.add_snapshot snap session
    | None => session
    end.
Proof.
  unfold create_price_snapshot.
  destruct (BuffItemDTO.overall_min_price d) as [m|]; [|reflexivity].
  destruct (Qleb m 0); reflexivity.
Qed.

Lemma positive_minimums_all (d : BuffItemDTO.t) :
  (forall p, In p (per_tag_minimums d) -> 0 < p) ->
  positive_minimums d = per_tag_minimums d.
Proof.
  unfold positive_minimums. intros H.
  induction (per_tag_minimums d) as [|p ps IH]; simpl; [reflexivity|].
  assert (E : Qltb 0 p = true) by (apply Qltb_spec, H; now left).
  rewrite E. f_equal. apply IH. intros q Hq. apply H. now right.
Qed.

(** C1, refuted as stated: [mixed_record] has a positive per-tag minimum
    (5), yet no snapshot is produced for it, because the floor is taken over
    all per-tag minimums and the one that is 0 wins. *)
Lemma C1_mixed_record_dropped :
  (exists p, In p (per_tag_minimums mixed_record) /\ 0 < p)
  /\ positive_minimums mixed_record = [5]
  /\ BuffItemDTO.overall_min_price mixed_record = Some 0
  /\ create_price_snapshot example_session mixed_record Config.default
     = (example_session, None).
Proof.
  repeat split.
  exists 5. split; [left; reflexivity | reflexivity].
Qed.

(** C1, as the code has it: the floor of a market-A record is the minimum of
    all its per-tag minimum prices (absent exactly when the record has no
    sale); a snapshot is produced, and handed to the session, if and only if
    the record has a per-tag minimum and every per-tag minimum is positive;
    the floor stored in the snapshot is then the minimum of the positive
    per-tag minimums. *)
Theorem C1_floor_is_overall_minimum
        (session : Session.t) (d : BuffItemDTO.t) (cfg : Config.t) :
  let produced := snd (create_price_snapshot session d cfg) in
  (BuffItemDTO.overall_min_price d = None <-> BuffItemDTO.sales d = [])
  /\ (forall m, BuffItemDTO.overall_min_price d = Some m ->
                is_minimum_of m (per_tag_minimums d))
  /\ ((exists snap, produced = Some snap) <->
      (per_tag_minimums d <> []
       /\ forall p, In p (per_tag_minimums d) -> 0 < p))
  /\ (forall snap, produced = Some snap ->
        BuffItemDTO.overall_min_price d
          = Some (SnapshotInit.overall_min_price snap)
        /\ is_minimum_of (SnapshotInit.overall_min_price snap)
                         (positive_minimums d)
        /\ fst (create_price_snapshot session d cfg)
           = Session.add_snapshot snap session)
  /\ (produced = None -> fst (create_price_snapshot session d cfg) = session).
Proof.
  intros produced. subst produced.
  split; [apply overall_min_price_none|].
  split; [apply overall_min_price_minimum|].
  assert (Hall : forall m, BuffItemDTO.overall_min_price d = Some m -> 0 < m ->
                           forall p, In p (per_tag_minimums d) -> 0 < p).
  { intros m Hm Hpos p Hp.
    destruct (overall_min_price_minimum d m Hm) as [_ Hle].
    apply Qlt_le_trans with m; [exact Hpos | apply Hle, Hp]. }
  split.
  { split.
    - intros [snap Hs]. apply create_price_snapshot_some in Hs.
      destruct Hs as (m & Hm & Hpos & _). split.
      + destruct (overall_min_price_minimum d m Hm) as [Hin _].
        intros E. rewrite E in Hin. exact Hin.
      + exact (Hall m Hm Hpos).
    - intros [Hne Hpos].
      destruct (BuffItemDTO.overall_min_price d) as [m|] eqn:Hm.
      + eexists. apply create_price_snapshot_some. exists m.
        split; [exact Hm|]. split; [|reflexivity].
        destruct (overall_min_price_minimum d m Hm) as [Hin _].
        apply Hpos, Hin.
      + apply overall_min_price_none in Hm. exfalso. apply Hne.
        unfold per_tag_minimums. rewrite Hm. reflexivity. }
  split.
  - intros snap Hs.
    pose proof (create_price_snapshot_session session d cfg) as Hsession.
    rewrite Hs in Hsession.
    apply create_price_snapshot_some in Hs.
    destruct Hs as (m & Hm & Hpos & ->). simpl. split; [exact Hm|].
    split; [|exact Hsession].
    rewrite (positive_minimums_all d (Hall m Hm Hpos)).
    apply overall_min_price_minimum, Hm.
  - intros Hnone.
    pose proof (create_price_snapshot_session session d cfg) as Hsession.
    rewrite Hnone in Hsession. exact Hsession.
Qed.

(* ------------------------------------------------------------------ *)
(** ** The classification filter *)

Lemma prefix_lower (p : string) :
  forall s, String.prefix p s = true ->
            String.prefix (lower p) (lower s) = true.
Proof.
  induction p as [|a p IH]; intros s H; [destruct s; reflexivity|].
  destruct s as [|b s]; simpl in *; [discriminate|].
  destruct (ascii_dec a b) as [-> | ne]; [|discriminate].
  destruct (ascii_dec (lower_ascii b) (lower_ascii b)); [|congruence].
  apply IH, H.
Qed.

(** A substring stays a substring when both strings are lowered. *)
Lemma contains_lower (p s : string) :
  contains p s = true -> contains (lower p) (lower s) = true.
Proof.
  induction s as [|c s IH]; simpl; intros H.
  - apply orb_true_iff in H. destruct H as [H | H]; [|discriminate].
    apply (prefix_lower p EmptyString) in H. simpl in H.
    rewrite H. reflexivity.
  - apply orb_true_iff in H. apply orb_true_iff.
    destruct H as [H | H].
    + left. apply (prefix_lower p (String c s)), H.
    + right. apply IH, H.
Qed.

Lemma skip_keywords_lowered (k : string) :
  In k skip_keywords -> lower k = k.
Proof.
  unfold skip_keywords. simpl.
  intros [<- | [<- | [<- | [<- | []]]]]; reflexivity.
Qed.

(** C2, refuted as stated: with an empty allowed set the filter is off, and
    a capsule that no earlier rule matches is allowed. *)
Lemma C2_empty_set_allows_capsule :
  contains "capsule" (lower "CS20 Sticker Capsule") = true
  /\ early_rules (lower "CS20 Sticker Capsule") [] = None
  /\ is_allowed_item_type "CS20 Sticker Capsule" (config_allowing []) = true.
Proof. repeat split. Qed.

(** C2, as the code has it: a key in which one of "capsule", "package",
    "pass", "pin" occurs (as written or after lowering) and which none of
    the rules 1-6 matches is excluded under every non-empty allowed set,
    whatever it contains; under the empty set the filter is off and the key
    is allowed. *)
Theorem C2_capsule_rule (name : string) (cfg : Config.t)
  (Hearly : early_rules (lower name) (Config.allowed_item_types cfg) = None)
  (Hkey : exists k, In k skip_keywords
                    /\ (contains k name = true
                        \/ contains k (lower name) = true)) :
  is_allowed_item_type name cfg
  = match Config.allowed_item_types cfg with
    | [] => true
    | _ :: _ => false
    end.
Proof.
  unfold is_allowed_item_type.
  destruct (Config.allowed_item_types cfg) as [|t ts]; [reflexivity|].
  rewrite Hearly.
  assert (Hskip : existsb (fun skip => contains skip (lower name)) skip_keywords
                  = true).
  { destruct Hkey as (k & Hin & Hk). apply existsb_exists.
    exists k. split; [exact Hin|].
    destruct Hk as [Hk | Hk]; [|exact Hk].
    apply contains_lower in Hk.
    rewrite (skip_keywords_lowered k Hin) in Hk. exact Hk. }
  rewrite Hskip. reflexivity.
Qed.

Lemma C2_capsule_rule_witness :
  is_allowed_item_type "CS20 Sticker Capsule" Config.default = false.
Proof.
  apply (C2_capsule_rule "CS20 Sticker Capsule" Config.default).
  - reflexivity.
  - exists "capsule"%string. split; [left; reflexivity | right; reflexivity].
Defined.

(* ------------------------------------------------------------------ *)
(** ** Direction A: the fee model *)

Section DirectionA.
Variables (session : Session.t) (listing : CSFloatListing.t)
          (config : Config.t) (now : Z).
Variables (buff_item : BuffItem.t) (buff_snapshot : BuffPriceSnapshot.t).

Hypothesis Hitem :
  item_by_name (CSFloatListing.market_hash_name listing) session
  = Some buff_item.
Hypothesis Hsnapshot :
  Session.latest_snapshot (BuffItem.goods_id buff_item) session
  = Some buff_snapshot.
Hypothesis Hfresh :
  (now - timedelta_hours 24 <= BuffPriceSnapshot.timestamp buff_snapshot)%Z.


End DirectionA.


(* ------------------------------------------------------------------ *)
(** ** Direction B: the fee model *)

Section DirectionB.
Variables (session : Session.t) (market_hash_name : string)
          (config : Config.t)
          (csfloat_client : string -> option CSFloatListingDTO.t).
Variables (buff_item : BuffItem.t) (buff_snapshot : BuffPriceSnapshot.t)
          (csfloat_listing : CSFloatListingDTO.t).

Hypothesis Hitem : item_by_name market_hash_name session = Some buff_item.
Hypothesis Hsnapshot :
  Session.latest_snapshot (BuffItem.goods_id buff_item) session
  = Some buff_snapshot.
Hypothesis Hcheapest : csfloat_client market_hash_name = Some csfloat_listing.


End DirectionB.


(* ------------------------------------------------------------------ *)
(** ** The trade ledger *)

(** C8: the derived metrics of a trade depend on its stored prices and
    times only; ROI and profit are absent ([None]) exactly when the sell
    price is absent, the hold duration exactly when the sell time is
    absent; a trade bought at 100 and sold at 120 has profit 20 and
    ROI 0.20.  (With a sell price and a buy price of 0 the ROI is not
    absent: the division raises.) *)
Theorem C8_trade_metrics (t : Trade.t) :
  (Trade.roi_pct t = Returns None <-> Trade.sell_price_usd t = None)
  /\ (Trade.profit_usd t = None <-> Trade.sell_price_usd t = None)
  /\ (Trade.hold_days t = None <-> Trade.sell_time t = None)
  /\ (forall t' : Trade.t,
        Trade.buy_price_usd t' = Trade.buy_price_usd t ->
        Trade.sell_price_usd t' = Trade.sell_price_usd t ->
        Trade.buy_time t' = Trade.buy_time t ->
        Trade.sell_time t' = Trade.sell_time t ->
        Trade.roi_pct t' = Trade.roi_pct t
        /\ Trade.profit_usd t' = Trade.profit_usd t
        /\ Trade.hold_days t' = Trade.hold_days t)
  /\ (forall sell, Trade.sell_price_usd t = Some sell ->
        Trade.profit_usd t = Some (sell - Trade.buy_price_usd t)
        /\ (~ Trade.buy_price_usd t == 0 ->
            Trade.roi_pct t
            = Returns (Some ((sell - Trade.buy_price_usd t)
                             / Trade.buy_price_usd t)))
        /\ (Trade.buy_price_usd t == 0 ->
            Trade.roi_pct t = ZeroDivisionError))
  /\ (forall sell, Trade.sell_price_usd t = Some sell ->
        Trade.buy_price_usd t == 100 -> sell == 120 ->
        exists profit roi,
          Trade.profit_usd t = Some profit /\ profit == 20
          /\ Trade.roi_pct t = Returns (Some roi) /\ roi == 20 # 100).
Proof.
  unfold Trade.roi_pct, Trade.profit_usd, Trade.hold_days.
  split.
  { destruct (Trade.sell_price_usd t) as [sell|]; [|split; reflexivity].
    destruct (Qeq_bool (Trade.buy_price_usd t) 0); split; discriminate. }
  split.
  { destruct (Trade.sell_price_usd t); split; congruence. }
  split.
  { destruct (Trade.sell_time t); split; congruence. }
  split.
  { intros t' -> -> -> ->. repeat split. }
  split.
  { intros sell ->. split; [reflexivity|]. split.
    - intros Hne. destruct (Qeq_bool (Trade.buy_price_usd t) 0) eqn:E;
        [|reflexivity].
      apply Qeq_bool_iff in E. contradiction.
    - intros Hz. apply Qeq_bool_iff in Hz. rewrite Hz. reflexivity. }
  intros sell -> Hbuy Hsell.
  destruct (Qeq_bool (Trade.buy_price_usd t) 0) eqn:E.
  - apply Qeq_bool_iff in E. rewrite Hbuy in E. discriminate E.
  - eexists. eexists. split; [reflexivity|].
    split; [rewrite Hbuy, Hsell; reflexivity|].
    split; [reflexivity|].
    rewrite Hbuy, Hsell. reflexivity.
Qed.

(* ------------------------------------------------------------------ *)
(** ** The ranking query *)

Lemma firstn_In {A} (n : nat) (l : list A) (x : A) :
  In x (firstn n l) -> In x l.
Proof.
  revert n. induction l as [|y l IH]; intros [|n]; simpl; try tauto.
  intros [H | H]; [left; exact H | right; exact (IH n H)].
Qed.

Lemma insert_desc_In (x y : ArbitrageSignal.t) (l : list ArbitrageSignal.t) :
  In y (insert_desc x l) <-> y = x \/ In y l.
Proof.
  induction l as [|z l IH]; simpl.
  - split; intros [H | H]; auto.
  - destruct (Qleb (ArbitrageSignal.roi_pct z) (ArbitrageSignal.roi_pct x)).
    + simpl. split; intros [H | H]; auto.
    + simpl. rewrite IH. tauto.
Qed.

Lemma order_by_roi_desc_In (y : ArbitrageSignal.t) (l : list ArbitrageSignal.t) :
  In y (order_by_roi_desc l) <-> In y l.
Proof.
  induction l as [|x l IH]; simpl; [tauto|].
  rewrite insert_desc_In, IH. split; intros [H | H]; auto.
Qed.

Lemma insert_desc_sorted (x : ArbitrageSignal.t) (l : list ArbitrageSignal.t) :
  StronglySorted roi_desc l -> StronglySorted roi_desc (insert_desc x l).
Proof.
  induction 1 as [|z l Hsorted IH Hall]; simpl.
  - constructor; constructor.
  - destruct (Qleb (ArbitrageSignal.roi_pct z) (ArbitrageSignal.roi_pct x)) eqn:E.
    + apply Qleb_spec in E. constructor.
      * constructor; assumption.
      * constructor; [exact E|].
        apply Forall_forall. intros w Hw. unfold roi_desc.
        apply Qle_trans with (ArbitrageSignal.roi_pct z); [|exact E].
        exact (proj1 (Forall_forall _ _) Hall w Hw).
    + apply Qleb_false in E. constructor; [exact IH|].
      apply Forall_forall. intros w Hw. apply insert_desc_In in Hw.
      destruct Hw as [-> | Hw].
      * unfold roi_desc. apply Qlt_le_weak, E.
      * exact (proj1 (Forall_forall _ _) Hall w Hw).
Qed.

Lemma order_by_roi_desc_sorted (l : list ArbitrageSignal.t) :
  StronglySorted roi_desc (order_by_roi_desc l).
Proof.
  induction l as [|x l IH]; simpl; [constructor|].
  apply insert_desc_sorted, IH.
Qed.

Lemma firstn_sorted (n : nat) (l : list ArbitrageSignal.t) :
  StronglySorted roi_desc l -> StronglySorted roi_desc (firstn n l).
Proof.
  intros H. revert n.
  induction H as [|z l Hsorted IH Hall]; intros [|n]; simpl;
    try constructor.
  - apply IH.
  - apply Forall_forall. intros w Hw. apply firstn_In in Hw.
    exact (proj1 (Forall_forall _ _) Hall w Hw).
Qed.

(** Membership in the result of [get_top_signals], filter by filter. *)
Lemma get_top_signals_In (session : Session.t) (direction : option string)
      (min_roi : option Q) (limit : nat) (active_only : bool)
      (sg : ArbitrageSignal.t) :
  In sg (get_top_signals session direction min_roi limit active_only) ->
  In sg (Session.arbitrage_signals session)
  /\ (active_only = true -> ArbitrageSignal.is_active sg = true)
  /\ (forall d, direction = Some d -> d <> EmptyString ->
                ArbitrageSignal.direction sg = d)
  /\ (forall r, min_roi = Some r -> r <= ArbitrageSignal.roi_pct sg).
Proof.
  unfold get_top_signals. intros H.
  apply firstn_In in H. apply (proj1 (order_by_roi_desc_In _ _)) in H.
  assert (Hroi :
    forall q, In sg (match min_roi with
                     | Some r => filter (fun sg => Qleb r (ArbitrageSignal.roi_pct sg)) q
                     | None => q
                     end) ->
              In sg q /\ forall r, min_roi = Some r -> r <= ArbitrageSignal.roi_pct sg).
  { intros q Hq. destruct min_roi as [r|].
    - apply filter_In in Hq. destruct Hq as [Hq Hr]. split; [exact Hq|].
      intros r' [= <-]. apply Qleb_spec, Hr.
    - split; [exact Hq | discriminate]. }
  apply Hroi in H. destruct H as [H Hmin].
  assert (Hdir :
    forall q, In sg (match direction with
                     | Some d =>
                         if String.eqb d EmptyString then q
                         else filter (fun sg => String.eqb (ArbitrageSignal.direction sg) d) q
                     | None => q
                     end) ->
              In sg q /\ forall d, direction = Some d -> d <> EmptyString ->
                                   ArbitrageSignal.direction sg = d).
  { intros q Hq. destruct direction as [d|].
    - destruct (String.eqb_spec d EmptyString) as [-> | Hne].
      + split; [exact Hq|]. intros d' [= <-] Hd. congruence.
      + apply filter_In in Hq. destruct Hq as [Hq Hd]. split; [exact Hq|].
        intros d' [= <-] _. apply String.eqb_eq, Hd.
    - split; [exact Hq | discriminate]. }
  apply Hdir in H. destruct H as [H Hd].
  destruct active_only.
  - apply filter_In in H. destruct H as [H Ha].
    repeat split; auto.
  - repeat split; auto. discriminate.
Qed.

(** C6: every signal [get_top_signals] returns is a signal of the store that
    passes the filters given (ROI at least the minimum, active, of the
    direction asked for); the result is sorted by non-increasing ROI and
    holds at most [limit] signals. *)
Theorem C6_ranking (session : Session.t) (direction : option string)
        (min_roi : option Q) (limit : nat) (active_only : bool) :
  let result := get_top_signals session direction min_roi limit active_only in
  (forall r, min_roi = Some r ->
     Forall (fun sg => r <= ArbitrageSignal.roi_pct sg) result
     /\ ~ Exists (fun sg => ArbitrageSignal.roi_pct sg < r) result)
  /\ (active_only = true ->
      Forall (fun sg => ArbitrageSignal.is_active sg = true) result)
  /\ (forall d, direction = Some d -> d <> EmptyString ->
      Forall (fun sg => ArbitrageSignal.direction sg = d) result)
  /\ Forall (fun sg => In sg (Session.arbitrage_signals session)) result
  /\ StronglySorted roi_desc result
  /\ (List.length result <= limit)%nat.
Proof.
  intros result.
  assert (Hin := get_top_signals_In session direction min_roi limit active_only).
  fold result in Hin.
  split.
  { intros r Hr. split.
    - apply Forall_forall. intros sg Hsg. apply (Hin sg Hsg), Hr.
    - intros Hex. apply Exists_exists in Hex. destruct Hex as (sg & Hsg & Hlt).
      apply (Qlt_not_le _ _ Hlt). apply (Hin sg Hsg), Hr. }
  split.
  { intros Ha. apply Forall_forall. intros sg Hsg. apply (Hin sg Hsg), Ha. }
  split.
  { intros d Hd Hne. apply Forall_forall. intros sg Hsg.
    apply (Hin sg Hsg); assumption. }
  split.
  { apply Forall_forall. intros sg Hsg. apply (Hin sg Hsg). }
  split.
  { apply firstn_sorted, order_by_roi_desc_sorted. }
  apply firstn_le_length.
Qed.

(* ------------------------------------------------------------------ *)
(** ** The session: flushing and updating *)

(** A flush appends one row per new signal, created at the time of the
    flush. *)
Lemma flush_signals_spec (now : Z) (news : list SignalInit.t) :
  forall rows, exists added,
    Session.flush_signals now rows news = rows ++ added
    /\ Forall2 (fun x sg => exists id, sg = Session.signal_row id now x)
               news added.
Proof.
  induction news as [|x news IH]; intros rows; simpl.
  - exists []. split; [symmetry; apply app_nil_r | constructor].
  - destruct (IH (rows ++ [Session.signal_row
                             (Session.next_id ArbitrageSignal.id rows) now x]))
      as (added & Heq & Hall).
    eexists (_ :: added). split.
    + rewrite Heq, <- app_assoc. reflexivity.
    + constructor; [eexists; reflexivity | exact Hall].
Qed.

(** The first row found by a lookup splits the table; the assignment lands
    on that row. *)
Lemma update_first_split {A} (p : A -> bool) (f : A -> A) (rows : list A) (r : A) :
  find p rows = Some r ->
  exists before after,
    rows = before ++ r :: after
    /\ p r = true
    /\ Forall (fun x => p x = false) before
    /\ Session.update_first p f rows = before ++ f r :: after.
Proof.
  induction rows as [|x rows IH]; simpl; [discriminate|].
  destruct (p x) eqn:E.
  - intros [= <-]. exists [], rows. repeat split; auto.
  - intros H. destruct (IH H) as (before & after & -> & Hr & Hb & Hu).
    exists (x :: before), after. repeat split; auto.
    simpl. rewrite Hu. reflexivity.
Qed.

Lemma nth_error_middle {A} (before after : list A) (x : A) :
  nth_error (before ++ x :: after) (List.length before) = Some x.
Proof.
  induction before; simpl; auto.
Qed.

Lemma nth_error_middle_other {A} (before after : list A) (x y : A) (j : nat) :
  j <> List.length before ->
  nth_error (before ++ x :: after) j = nth_error (before ++ y :: after) j.
Proof.
  revert j. induction before as [|b before IH]; intros [|j] Hj; simpl in *;
    try reflexivity; try congruence.
  apply IH. congruence.
Qed.

(* ------------------------------------------------------------------ *)
(** ** The staleness sweep *)

Lemma is_stale_spec (cutoff : Z) (sg : ArbitrageSignal.t) :
  is_stale cutoff sg = true <-> older_than cutoff sg.
Proof.
  unfold is_stale, older_than. rewrite andb_true_iff, Z.ltb_lt. tauto.
Qed.

Lemma deactivate_frame (sg : ArbitrageSignal.t) :
  same_but_active sg (ArbitrageSignal.deactivate sg)
  /\ ArbitrageSignal.is_active (ArbitrageSignal.deactivate sg) = false.
Proof. repeat split. Qed.

(** The signal table after a sweep: the swept rows, then the rows of the
    signals that were waiting for a flush. *)
Lemma sweep_signals (session : Session.t) (max_age_hours now : Z) :
  exists added,
    Session.arbitrage_signals
      (fst (deactivate_stale_signals session max_age_hours now))
    = map (fun sg =>
             if is_stale (now - timedelta_hours max_age_hours) sg
             then ArbitrageSignal.deactivate sg else sg)
          (Session.arbitrage_signals session)
      ++ added
    /\ Forall2 (fun x sg => exists id, sg = Session.signal_row id now x)
               (Session.new_signals session) added.
Proof.
  unfold deactivate_stale_signals. simpl.
  apply flush_signals_spec.
Qed.





(* ------------------------------------------------------------------ *)
(** ** Direction A: what one computation does to the session *)

(** One computation leaves the session alone, or assigns the four price
    fields of the signal its lookup found, or adds a new signal of
    direction A for its listing when the lookup found none. *)
Lemma compute_A_effect (session : Session.t) (listing : CSFloatListing.t)
      (config : Config.t) (now : Z) :
  let out := _compute_signal_for_listing session listing config now in
  let lookup := existing_for_listing (CSFloatListing.id listing) in
  out = (session, None)
  \/ (exists existing cny usd price roi,
        find lookup (Session.arbitrage_signals session) = Some existing
        /\ out = (Session.with_signals
                    (Session.update_first lookup
                       (ArbitrageSignal.set_prices cny usd price roi)
                       (Session.arbitrage_signals session))
                    session,
                  Some (Updated (ArbitrageSignal.set_prices cny usd price roi
                                                            existing))))
  \/ (exists init,
        find lookup (Session.arbitrage_signals session) = None
        /\ out = (Session.add_signal init session, Some (Created init))
        /\ pending_for_listing (CSFloatListing.id listing) init = true).
Proof.
  unfold _compute_signal_for_listing, Session.first. cbv zeta.
  destruct (find _ (Session.buff_items session)) as [buff_item|]; [|now left].
  destruct (Session.latest_snapshot _ session) as [snap|]; [|now left].
  destruct (_ <? _)%Z; [now left|].
  destruct (Qleb _ 0); [now left|].
  destruct (Qltb _ _); [now left|].
  destruct (find _ (Session.arbitrage_signals session)) as [existing|] eqn:E.
  - right. left. do 5 eexists. split; reflexivity.
  - right. right. eexists. split; [reflexivity|]. split; [reflexivity|].
    unfold pending_for_listing. simpl. rewrite Z.eqb_refl. reflexivity.
Qed.

Lemma set_prices_frame (cny usd price roi : Q) (sg : ArbitrageSignal.t) :
  same_but_prices sg (ArbitrageSignal.set_prices cny usd price roi sg).
Proof. repeat split. Qed.

(** C9: when direction A updates an existing signal in place, the row keeps
    its place, its identity, its creation time, its acted-on flag, its note
    and its active flag (only the prices and the ROI are assigned); no other
    signal changes and none is added.  A later sweep therefore deactivates
    the row exactly when 24 hours have passed since its creation, however
    recent the update. *)
Theorem C9_update_keeps_creation_time
        (session : Session.t) (listing : CSFloatListing.t) (config : Config.t)
        (now : Z) (session' : Session.t) (row : ArbitrageSignal.t)
        (Hupdated : _compute_signal_for_listing session listing config now
                    = (session', Some (Updated row))) :
  exists i existing,
    nth_error (Session.arbitrage_signals session) i = Some existing
    /\ existing_for_listing (CSFloatListing.id listing) existing = true
    /\ nth_error (Session.arbitrage_signals session') i = Some row
    /\ same_but_prices existing row
    /\ (forall j, j <> i ->
          nth_error (Session.arbitrage_signals session') j
          = nth_error (Session.arbitrage_signals session) j)
    /\ Session.new_signals session' = Session.new_signals session
    /\ same_market_data session session'
    /\ (forall now',
          let swept := fst (deactivate_stale_signals session' 24 now') in
          ((ArbitrageSignal.created_at existing < now' - timedelta_hours 24)%Z ->
           exists sg, nth_error (Session.arbitrage_signals swept) i = Some sg
                      /\ ArbitrageSignal.is_active sg = false
                      /\ same_but_active row sg)
          /\ ((now' - timedelta_hours 24 <= ArbitrageSignal.created_at existing)%Z ->
              nth_error (Session.arbitrage_signals swept) i = Some row)).
Proof.
  destruct (compute_A_effect session listing config now)
    as [Hout | [(existing & cny & usd & price & roi & Hfind & Hout)
               | (init & _ & Hout & _)]];
    rewrite Hout in Hupdated; try discriminate.
  injection Hupdated as <- <-.
  destruct (update_first_split _ (ArbitrageSignal.set_prices cny usd price roi)
                               _ _ Hfind)
    as (before & after & Hrows & Hkey & _ & Hupd).
  set (row := ArbitrageSignal.set_prices cny usd price roi existing) in *.
  set (session' := Session.with_signals _ session).
  assert (Hsig : Session.arbitrage_signals session' = before ++ row :: after)
    by exact Hupd.
  exists (List.length before), existing.
  rewrite Hsig, Hrows.
  split; [apply nth_error_middle|].
  split; [exact Hkey|].
  split; [apply nth_error_middle|].
  split; [apply set_prices_frame|].
  split; [intros j Hj; apply nth_error_middle_other, Hj|].
  split; [reflexivity|].
  split; [repeat split|].
  intros now'.
  set (swept := fst (deactivate_stale_signals session' 24 now')).
  cbv zeta.
  destruct (sweep_signals session' 24 now') as (added & Hswept & _).
  fold swept in Hswept.
  assert (Hactive : ArbitrageSignal.is_active existing = true).
  { unfold existing_for_listing in Hkey.
    apply andb_true_iff in Hkey. apply Hkey. }
  assert (Hnth :
    nth_error (Session.arbitrage_signals swept) (List.length before)
    = Some (if is_stale (now' - timedelta_hours 24) row
            then ArbitrageSignal.deactivate row else row)).
  { rewrite Hswept, Hsig, map_app. simpl. rewrite <- app_assoc. simpl.
    rewrite <- (length_map
                  (fun sg => if is_stale (now' - timedelta_hours 24) sg
                             then ArbitrageSignal.deactivate sg else sg) before).
    apply nth_error_middle. }
  assert (Hstale : forall c,
            is_stale c row = (ArbitrageSignal.created_at existing <? c)%Z).
  { intros c. unfold is_stale. subst row. simpl. rewrite Hactive. reflexivity. }
  rewrite Hstale in Hnth.
  split.
  - intros Hold. apply Z.ltb_lt in Hold. rewrite Hold in Hnth.
    eexists. split; [exact Hnth|]. split; [reflexivity | repeat split].
  - intros Hyoung. apply Z.ltb_ge in Hyoung. rewrite Hyoung in Hnth.
    exact Hnth.
Qed.

Lemma C9_update_keeps_creation_time_witness :
  exists i sg,
    nth_error
      (Session.arbitrage_signals
         (fst (deactivate_stale_signals
                 (fst example_update) 24
                 (example_snapshot_time + timedelta_hours 25)))) i
    = Some sg
    /\ ArbitrageSignal.is_active sg = false
    /\ same_but_active (updated_row example_update) sg.
Proof.
  destruct (C9_update_keeps_creation_time
              example_session_with_signal example_listing
              (config_with_fx (13 # 100))
              (example_snapshot_time + timedelta_hours 23)
              (fst example_update) (updated_row example_update) eq_refl)
    as (i & existing & Hi & _ & _ & _ & _ & _ & _ & Hsweep).
  destruct (Hsweep (example_snapshot_time + timedelta_hours 25)%Z)
    as [Hold _].
  exists i. apply Hold.
  destruct i as [|[|i]]; simpl in Hi; try discriminate.
  injection Hi as <-. reflexivity.
Defined.

(* ------------------------------------------------------------------ *)
(** ** Direction B: no staleness window *)

(** The snapshot both computations use is the most recent one of the item. *)
Lemma latest_snapshot_fold (g : Z) (rows : list BuffPriceSnapshot.t) :
  forall best,
    match best with
    | Some b => BuffPriceSnapshot.goods_id b = g
    | None => True
    end ->
    match
      fold_left
        (fun best r =>
           if (BuffPriceSnapshot.goods_id r =? g)%Z then
             match best with
             | None => Some r
             | Some b =>
                 if (BuffPriceSnapshot.timestamp b <? BuffPriceSnapshot.timestamp r)%Z
                 then Some r else Some b
             end
           else best)
        rows best
    with
    | None =>
        best = None
        /\ forall o, In o rows -> BuffPriceSnapshot.goods_id o <> g
    | Some r =>
        BuffPriceSnapshot.goods_id r = g
        /\ (In r rows \/ best = Some r)
        /\ (forall o, In o rows -> BuffPriceSnapshot.goods_id o = g ->
              (BuffPriceSnapshot.timestamp o <= BuffPriceSnapshot.timestamp r)%Z)
        /\ (forall b, best = Some b ->
              (BuffPriceSnapshot.timestamp b <= BuffPriceSnapshot.timestamp r)%Z)
    end.
Proof.
  induction rows as [|x rows IH]; intros best Hbest; simpl.
  - destruct best as [b|]; [|split; [reflexivity | contradiction]].
    split; [exact Hbest|]. split; [right; reflexivity|].
    split; [contradiction|]. intros b' [= <-]. lia.
  - destruct (Z.eqb_spec (BuffPriceSnapshot.goods_id x) g) as [Hx | Hx].
    + destruct best as [b|].
      * destruct (Z.ltb_spec (BuffPriceSnapshot.timestamp b)
                             (BuffPriceSnapshot.timestamp x)) as [Hlt | Hge].
        -- specialize (IH (Some x) Hx).
           destruct (fold_left _ rows (Some x)) as [r|].
           ++ destruct IH as (Hg & Hin & Hmax & Hb).
              split; [exact Hg|]. split.
              { left. destruct Hin as [Hin | [= ->]]; [right | left]; auto. }
              split.
              { intros o [<- | Ho] Hgo; [apply Hb; reflexivity | apply Hmax; auto]. }
              intros b' [= <-]. specialize (Hb x eq_refl). lia.
           ++ destruct IH as [IH _]. discriminate.
        -- specialize (IH (Some b) Hbest).
           destruct (fold_left _ rows (Some b)) as [r|].
           ++ destruct IH as (Hg & Hin & Hmax & Hb).
              split; [exact Hg|]. split.
              { destruct Hin as [Hin | Hin]; [left; right; exact Hin | right; exact Hin]. }
              split.
              { intros o [<- | Ho] Hgo; [|apply Hmax; auto].
                specialize (Hb b eq_refl). lia. }
              exact Hb.
           ++ destruct IH as [IH _]. discriminate.
      * specialize (IH (Some x) Hx).
        destruct (fold_left _ rows (Some x)) as [r|].
        -- destruct IH as (Hg & Hin & Hmax & Hb).
           split; [exact Hg|]. split.
           { left. destruct Hin as [Hin | [= ->]]; [right | left]; auto. }
           split.
           { intros o [<- | Ho] Hgo; [apply Hb; reflexivity | apply Hmax; auto]. }
           discriminate.
        -- destruct IH as [IH _]. discriminate.
    + specialize (IH best Hbest).
      destruct (fold_left _ rows best) as [r|].
      * destruct IH as (Hg & Hin & Hmax & Hb).
        split; [exact Hg|]. split.
        { destruct Hin as [Hin | Hin]; [left; right; exact Hin | right; exact Hin]. }
        split; [|exact Hb].
        intros o [<- | Ho] Hgo; [contradiction | apply Hmax; auto].
      * destruct IH as [IH Hnone]. split; [exact IH|].
        intros o [<- | Ho]; [exact Hx | apply Hnone, Ho].
Qed.


Section NoStalenessWindow.
Variables (session : Session.t) (market_hash_name : string)
          (config : Config.t)
          (csfloat_client : string -> option CSFloatListingDTO.t).
Variables (buff_item : BuffItem.t) (buff_snapshot : BuffPriceSnapshot.t)
          (csfloat_listing : CSFloatListingDTO.t).

Hypothesis Hitem : item_by_name market_hash_name session = Some buff_item.
Hypothesis Hsnapshot :
  Session.latest_snapshot (BuffItem.goods_id buff_item) session
  = Some buff_snapshot.
Hypothesis Hcheapest : csfloat_client market_hash_name = Some csfloat_listing.


End NoStalenessWindow.


(* ------------------------------------------------------------------ *)
(** ** Direction A: one active signal per listing *)

Lemma find_none_filter {A} (p : A -> bool) (l : list A) :
  find p l = None -> filter p l = [].
Proof.
  induction l as [|x l IH]; simpl; [reflexivity|].
  destruct (p x); [discriminate | exact IH].
Qed.

(** An assignment that keeps what [q] looks at keeps the rows [q] selects. *)
Lemma filter_update_first_length {A} (p q : A -> bool) (f : A -> A)
      (rows : list A) :
  (forall x, q (f x) = q x) ->
  List.length (filter q (Session.update_first p f rows))
  = List.length (filter q rows).
Proof.
  intros Hq. induction rows as [|x rows IH]; simpl; [reflexivity|].
  destruct (p x); simpl.
  - rewrite Hq. destruct (q x); reflexivity.
  - destruct (q x); simpl; rewrite IH; reflexivity.
Qed.

Lemma update_first_length {A} (p : A -> bool) (f : A -> A) (rows : list A) :
  List.length (Session.update_first p f rows) = List.length rows.
Proof.
  induction rows as [|x rows IH]; simpl; [reflexivity|].
  destruct (p x); simpl; [reflexivity | rewrite IH; reflexivity].
Qed.

Lemma existing_for_listing_set_prices (L : Z) (cny usd price roi : Q)
      (sg : ArbitrageSignal.t) :
  existing_for_listing L (ArbitrageSignal.set_prices cny usd price roi sg)
  = existing_for_listing L sg.
Proof. reflexivity. Qed.

Lemma existing_for_listing_signal_row (L id now : Z) (x : SignalInit.t) :
  existing_for_listing L (Session.signal_row id now x)
  = pending_for_listing L x.
Proof.
  unfold existing_for_listing, pending_for_listing. simpl.
  apply andb_true_r.
Qed.

(** Two lookups for different listings never select the same new signal. *)
Lemma pending_for_listing_unique (L L' : Z) (x : SignalInit.t) :
  pending_for_listing L x = true -> L' <> L ->
  pending_for_listing L' x = false.
Proof.
  unfold pending_for_listing. intros H Hne.
  apply andb_true_iff in H. destruct H as [H _].
  destruct (SignalInit.csfloat_listing_id x) as [k|]; simpl in *;
    [|discriminate].
  apply Z.eqb_eq in H. subst k.
  destruct (Z.eqb_spec L L') as [-> | _]; [contradiction | reflexivity].
Qed.

(** After the flush the table holds, for each listing, the active signals
    it held plus the new ones. *)
Lemma flush_signals_for_listing (L now : Z) (news : list SignalInit.t) :
  forall rows,
    List.length (filter (existing_for_listing L)
                        (Session.flush_signals now rows news))
    = (List.length (filter (existing_for_listing L) rows)
       + List.length (filter (pending_for_listing L) news))%nat.
Proof.
  induction news as [|x news IH]; intros rows; simpl.
  - lia.
  - rewrite IH, filter_app, length_app. simpl.
    rewrite existing_for_listing_signal_row.
    destruct (pending_for_listing L x); simpl; lia.
Qed.

Lemma commit_signals_for_listing (L now : Z) (s : Session.t) :
  List.length (filter (existing_for_listing L)
                      (Session.arbitrage_signals (Session.commit now s)))
  = signals_for_listing L s.
Proof.
  unfold signals_for_listing. simpl. apply flush_signals_for_listing.
Qed.

(** One computation for [listing] changes the count of no other listing,
    and raises the count of its own listing from 0 to 1 at most. *)
Lemma compute_A_counts (session : Session.t) (listing : CSFloatListing.t)
      (config : Config.t) (now : Z) :
  let session' := fst (_compute_signal_for_listing session listing config now) in
  (forall L, L <> CSFloatListing.id listing ->
     signals_for_listing L session' = signals_for_listing L session
     /\ filter (pending_for_listing L) (Session.new_signals session')
        = filter (pending_for_listing L) (Session.new_signals session))
  /\ (signals_for_listing (CSFloatListing.id listing) session'
      = signals_for_listing (CSFloatListing.id listing) session
      \/ (List.length (filter (existing_for_listing (CSFloatListing.id listing))
                              (Session.arbitrage_signals session)) = 0%nat
          /\ signals_for_listing (CSFloatListing.id listing) session'
             = S (List.length
                    (filter (pending_for_listing (CSFloatListing.id listing))
                            (Session.new_signals session))))).
Proof.
  intros session'. subst session'.
  destruct (compute_A_effect session listing config now)
    as [Hout | [(existing & cny & usd & price & roi & Hfind & Hout)
               | (init & Hfind & Hout & Hkey)]];
    rewrite Hout; simpl.
  - split; [intros L _; split; reflexivity | left; reflexivity].
  - unfold signals_for_listing. simpl. split.
    + intros L _. split; [|reflexivity]. f_equal.
      apply filter_update_first_length. intros x.
      apply existing_for_listing_set_prices.
    + left. f_equal. apply filter_update_first_length. intros x.
      apply existing_for_listing_set_prices.
  - unfold signals_for_listing. simpl. split.
    + intros L HL.
      rewrite filter_app. simpl.
      rewrite (pending_for_listing_unique _ L init Hkey HL). simpl.
      rewrite app_nil_r. split; reflexivity.
    + right. rewrite (find_none_filter _ _ Hfind). simpl.
      split; [reflexivity|].
      rewrite filter_app, length_app. simpl. rewrite Hkey. simpl. lia.
Qed.

(** The loop of a pass over listings of pairwise distinct ids keeps, for
    every listing, at most one active signal of direction A in the session,
    flushed or not. *)
Lemma csfloat_to_buff_loop_counts (config : Config.t) (clock : nat -> Z)
      (listings : list CSFloatListing.t) :
  forall (session : Session.t) (i : nat),
    NoDup (map CSFloatListing.id listings) ->
    (forall L, (signals_for_listing L session <= 1)%nat) ->
    (forall L, In L (map CSFloatListing.id listings) ->
               filter (pending_for_listing L) (Session.new_signals session) = []) ->
    forall L,
      (signals_for_listing L
         (fst (csfloat_to_buff_loop session config listings clock i)) <= 1)%nat.
Proof.
  induction listings as [|listing rest IH]; intros session i Hnodup Hinv Hfresh L;
    simpl.
  - apply Hinv.
  - inversion Hnodup as [|? ? Hnotin Hrest]; subst.
    destruct (low_liquidity listing config).
    + apply IH; auto. intros L' HL'. apply Hfresh. right. exact HL'.
    + pose proof (compute_A_counts session listing config (clock i)) as Hstep.
      destruct (_compute_signal_for_listing session listing config (clock i))
        as [session' signal].
      simpl in Hstep. destruct Hstep as [Hother Hown].
      specialize (IH session' (S i) Hrest).
      destruct (csfloat_to_buff_loop session' config rest clock (S i))
        as [session'' created] eqn:Eloop.
      simpl in *. apply IH.
      * intros L'. destruct (Z.eq_dec L' (CSFloatListing.id listing)) as [-> | Hne].
        -- destruct Hown as [-> | [Hzero ->]]; [apply Hinv|].
           rewrite (Hfresh (CSFloatListing.id listing) (or_introl eq_refl)).
           simpl. lia.
        -- rewrite (proj1 (Hother L' Hne)). apply Hinv.
      * intros L' HL'.
        assert (Hne : L' <> CSFloatListing.id listing)
          by (intros ->; contradiction).
        rewrite (proj2 (Hother L' Hne)). apply Hfresh. right. exact HL'.
Qed.


(** A pass over listings of pairwise distinct ids, started on a session
    with nothing unflushed, keeps the invariant. *)
Lemma pass_keeps_one_active
      (session : Session.t) (config : Config.t)
      (listings : list CSFloatListing.t) (clock : nat -> Z) (commit_time : Z) :
  one_active_per_listing (Session.arbitrage_signals session) ->
  Session.new_signals session = [] ->
  NoDup (map CSFloatListing.id listings) ->
  one_active_per_listing
    (Session.arbitrage_signals
       (fst (compute_csfloat_to_buff_signals
               session config (Some listings) clock commit_time))).
Proof.
  intros Hinv Hflushed Hnodup L.
  unfold compute_csfloat_to_buff_signals.
  pose proof (csfloat_to_buff_loop_counts config clock listings session 0%nat
                                          Hnodup) as Hloop.
  destruct (csfloat_to_buff_loop session config listings clock 0)
    as [session' created].
  cbn [fst] in Hloop.
  change (List.length
            (filter (existing_for_listing L)
                    (Session.arbitrage_signals
                       (Session.commit commit_time session'))) <= 1)%nat.
  rewrite commit_signals_for_listing. apply Hloop.
  - intros L'. unfold signals_for_listing. rewrite Hflushed. simpl.
    rewrite Nat.add_0_r. apply Hinv.
  - intros L' _. rewrite Hflushed. reflexivity.
Qed.

(* ------------------------------------------------------------------ *)
(** ** The listings a scan hands to direction A *)

Lemma mem_In (x : string) (xs : list string) : mem x xs = true <-> In x xs.
Proof.
  unfold mem. rewrite existsb_exists. split.
  - intros (y & Hy & E). apply String.eqb_eq in E. subst. exact Hy.
  - intros H. exists x. split; [exact H | apply String.eqb_refl].
Qed.

Lemma next_id_above {A} (key : A -> Z) (rows : list A) (r : A) :
  In r rows -> (key r < Session.next_id key rows)%Z.
Proof.
  unfold Session.next_id.
  assert (H : forall l m,
            (m <= fold_left (fun m r => Z.max m (key r)) l m)%Z
            /\ forall x, In x l ->
                 (key x <= fold_left (fun m r => Z.max m (key r)) l m)%Z).
  { induction l as [|y l IH]; intros m; simpl.
    - split; [lia | contradiction].
    - destruct (IH (Z.max m (key y))) as [Hm Hl]. split; [lia|].
      intros x [<- | Hx]; [lia | apply Hl, Hx]. }
  intros Hin. destruct (H rows 0%Z) as [_ Hle]. specialize (Hle r Hin). lia.
Qed.

Lemma update_first_keys {A B} (key : A -> B) (p : A -> bool) (f : A -> A)
      (rows : list A) :
  (forall x, key (f x) = key x) ->
  map key (Session.update_first p f rows) = map key rows.
Proof.
  intros Hkey. induction rows as [|x rows IH]; simpl; [reflexivity|].
  destruct (p x); simpl; [rewrite Hkey | rewrite IH]; reflexivity.
Qed.

(** In a table with a key, two rows of the same key are one row. *)
Lemma same_key_same_row {A B} (key : A -> B) (rows : list A) (x y : A) :
  NoDup (map key rows) -> In x rows -> In y rows -> key x = key y -> x = y.
Proof.
  induction rows as [|r rows IH]; simpl; intros Hnodup Hx Hy Hxy;
    [contradiction|].
  inversion Hnodup as [|? ? Hfresh Hrest]; subst.
  destruct Hx as [-> | Hx], Hy as [-> | Hy]; auto.
  - exfalso. apply Hfresh. rewrite Hxy. apply in_map, Hy.
  - exfalso. apply Hfresh. rewrite <- Hxy. apply in_map, Hx.
Qed.

Lemma NoDup_snoc {A} (l : list A) (x : A) :
  NoDup l -> ~ In x l -> NoDup (l ++ [x]).
Proof.
  induction l as [|y l IH]; simpl; intros Hl Hx.
  - constructor; [intros [] | constructor].
  - inversion Hl as [|? ? Hy Hrest]; subst. constructor.
    + intros Hin. apply in_app_or in Hin. destruct Hin as [Hin | [-> | []]].
      * contradiction.
      * apply Hx. left. reflexivity.
    + apply IH; [exact Hrest | intros Hin; apply Hx; right; exact Hin].
Qed.

Lemma flush_nothing_new (now : Z) (s : Session.t) :
  Session.new_signals s = [] ->
  Session.arbitrage_signals (Session.flush now s) = Session.arbitrage_signals s
  /\ Session.new_signals (Session.flush now s) = []
  /\ Session.csfloat_listings (Session.flush now s) = Session.csfloat_listings s.
Proof.
  intros H. unfold Session.flush. simpl. rewrite H. repeat split.
Qed.

(** What [upsert_csfloat_listing] does to the listing table. *)
Lemma upsert_csfloat_listing_spec (session : Session.t)
      (listing_dto : CSFloatListingDTO.t) (now : Z) :
  let session' := fst (upsert_csfloat_listing session listing_dto now) in
  let listing := snd (upsert_csfloat_listing session listing_dto now) in
  CSFloatListing.csfloat_id listing = CSFloatListingDTO.listing_id listing_dto
  /\ In listing (Session.csfloat_listings session')
  /\ (listing_table_ok (Session.csfloat_listings session) ->
      listing_table_ok (Session.csfloat_listings session'))
  /\ (forall r, row_of_table r (Session.csfloat_listings session) ->
                row_of_table r (Session.csfloat_listings session'))
  /\ (Session.new_signals session = [] ->
      Session.arbitrage_signals session' = Session.arbitrage_signals session
      /\ Session.new_signals session' = []).
Proof.
  unfold upsert_csfloat_listing, Session.first.
  set (lookup := fun r => String.eqb (CSFloatListing.csfloat_id r)
                                     (CSFloatListingDTO.listing_id listing_dto)).
  destruct (find lookup (Session.csfloat_listings session)) as [existing|] eqn:E;
    cbv zeta; simpl.
  - destruct (update_first_split lookup (refresh_listing listing_dto now) _ _ E)
      as (before & after & Hrows & Hkey & _ & Hupd).
    split; [apply String.eqb_eq, Hkey|].
    split; [rewrite Hupd; apply in_elt|].
    split.
    { unfold listing_table_ok.
      rewrite !(update_first_keys _ lookup (refresh_listing listing_dto now));
        [tauto | reflexivity | reflexivity]. }
    split.
    { intros r (x & Hx & Hid & Hcs). rewrite Hupd. rewrite Hrows in Hx.
      apply in_app_or in Hx. destruct Hx as [Hx | [<- | Hx]].
      - exists x. split; [apply in_or_app; left; exact Hx | split; assumption].
      - exists (refresh_listing listing_dto now existing).
        split; [apply in_elt | split; assumption].
      - exists x. split; [|split; assumption].
        apply in_or_app. right. right. exact Hx. }
    intros ->. split; reflexivity.
  - split; [reflexivity|].
    split; [apply in_or_app; right; left; reflexivity|].
    split.
    { intros [Hids Hcs]. unfold listing_table_ok. rewrite !map_app. simpl.
      split.
      - apply NoDup_snoc; [exact Hids|].
        intros Hin. apply in_map_iff in Hin. destruct Hin as (x & Hx & Hin).
        pose proof (next_id_above CSFloatListing.id _ x Hin). lia.
      - apply NoDup_snoc; [exact Hcs|].
        intros Hin. apply in_map_iff in Hin. destruct Hin as (x & Hx & Hin).
        pose proof (find_none _ _ E x Hin) as Hno. unfold lookup in Hno.
        rewrite Hx, String.eqb_refl in Hno. discriminate. }
    split.
    { intros r (x & Hx & Hid & Hcs). exists x.
      split; [apply in_or_app; left; exact Hx | split; assumption]. }
    intros ->. split; reflexivity.
Qed.

(** The loop of the ingestion returns rows of pairwise distinct ids, all of
    the table, and leaves the signals alone. *)
Lemma ingest_csfloat_loop_spec (config : Config.t) (clock : nat -> Z)
      (fetched : list CSFloatListingDTO.t) :
  forall (session : Session.t) (processed_ids : list string) (i : nat),
    listing_table_ok (Session.csfloat_listings session) ->
    Session.new_signals session = [] ->
    let session' :=
      fst (ingest_csfloat_loop session config fetched processed_ids clock i) in
    let processed :=
      snd (ingest_csfloat_loop session config fetched processed_ids clock i) in
    listing_table_ok (Session.csfloat_listings session')
    /\ Session.new_signals session' = []
    /\ Session.arbitrage_signals session' = Session.arbitrage_signals session
    /\ NoDup (map CSFloatListing.id processed)
    /\ (forall r, In r processed ->
          ~ In (CSFloatListing.csfloat_id r) processed_ids
          /\ row_of_table r (Session.csfloat_listings session'))
    /\ (forall r, row_of_table r (Session.csfloat_listings session) ->
                  row_of_table r (Session.csfloat_listings session')).
Proof.
  induction fetched as [|dto rest IH]; intros session processed_ids i Hok Hflushed;
    simpl.
  - split; [exact Hok|]. split; [exact Hflushed|]. split; [reflexivity|].
    split; [constructor|]. split; [contradiction | auto].
  - destruct (mem (CSFloatListingDTO.listing_id dto) processed_ids) eqn:Eseen.
    { apply IH; assumption. }
    destruct (is_allowed_item_type (CSFloatListingDTO.market_hash_name dto) config);
      simpl.
    + pose proof (upsert_csfloat_listing_spec session dto (clock i)) as Hup.
      destruct (upsert_csfloat_listing session dto (clock i))
        as [session1 listing].
      simpl in Hup.
      destruct Hup as (Hcs & Hin & Hok1 & Hrows1 & Hsig1).
      specialize (Hok1 Hok). destruct (Hsig1 Hflushed) as [Hsig Hflushed1].
      specialize (IH session1 (CSFloatListingDTO.listing_id dto :: processed_ids)
                     (S i) Hok1 Hflushed1).
      destruct (ingest_csfloat_loop session1 config rest
                  (CSFloatListingDTO.listing_id dto :: processed_ids) clock (S i))
        as [session2 processed].
      simpl in *.
      destruct IH as (Hok2 & Hflushed2 & Hsig2 & Hnodup & Hproc & Hrows2).
      assert (Hlisting : row_of_table listing (Session.csfloat_listings session2)).
      { apply Hrows2. exists listing. repeat split. exact Hin. }
      split; [exact Hok2|]. split; [exact Hflushed2|].
      split; [congruence|].
      split.
      { constructor; [|exact Hnodup].
        intros Hdup. apply in_map_iff in Hdup.
        destruct Hdup as (r & Hid & Hr).
        destruct (Hproc r Hr) as [Hnew (x & Hx & Hxid & Hxcs)].
        destruct Hlisting as (y & Hy & Hyid & Hycs).
        assert (x = y).
        { apply (same_key_same_row CSFloatListing.id
                   (Session.csfloat_listings session2));
            [apply Hok2 | assumption | assumption | congruence]. }
        subst y. apply Hnew. left. congruence. }
      split.
      { intros r [<- | Hr].
        - split; [|exact Hlisting].
          rewrite Hcs. intros Hseen. apply mem_In in Hseen. congruence.
        - destruct (Hproc r Hr) as [Hnew Hrow]. split; [|exact Hrow].
          intros Hseen. apply Hnew. right. exact Hseen. }
      intros r Hr. apply Hrows2, Hrows1, Hr.
    + specialize (IH session (CSFloatListingDTO.listing_id dto :: processed_ids)
                     (S i) Hok Hflushed).
      destruct (ingest_csfloat_loop session config rest
                  (CSFloatListingDTO.listing_id dto :: processed_ids) clock (S i))
        as [session2 processed].
      simpl in *.
      destruct IH as (Hok2 & Hflushed2 & Hsig2 & Hnodup & Hproc & Hrows2).
      split; [exact Hok2|]. split; [exact Hflushed2|]. split; [exact Hsig2|].
      split; [exact Hnodup|]. split; [|exact Hrows2].
      intros r Hr. destruct (Hproc r Hr) as [Hnew Hrow]. split; [|exact Hrow].
      intros Hseen. apply Hnew. right. exact Hseen.
Qed.

(** The ingestion hands listings of pairwise distinct ids to the
    computation and leaves the signals as they were. *)
Lemma ingest_csfloat_listings_once_spec
      (session : Session.t) (config : Config.t)
      (fetched : list CSFloatListingDTO.t) (clock : nat -> Z) (commit_time : Z) :
  listing_table_ok (Session.csfloat_listings session) ->
  Session.new_signals session = [] ->
  let session' :=
    fst (ingest_csfloat_listings_once session config fetched clock commit_time) in
  let listings :=
    snd (ingest_csfloat_listings_once session config fetched clock commit_time) in
  Session.new_signals session' = []
  /\ Session.arbitrage_signals session' = Session.arbitrage_signals session
  /\ NoDup (map CSFloatListing.id listings).
Proof.
  intros Hok Hflushed. unfold ingest_csfloat_listings_once.
  pose proof (ingest_csfloat_loop_spec config clock fetched session [] 0%nat
                                       Hok Hflushed) as Hloop.
  destruct (ingest_csfloat_loop session config fetched [] clock 0)
    as [session1 processed].
  cbn [fst snd] in Hloop. destruct Hloop as (_ & Hflushed1 & Hsig & Hnodup & _).
  destruct (flush_nothing_new commit_time session1 Hflushed1) as (H1 & H2 & _).
  split; [exact H2|]. split; [exact (eq_trans H1 Hsig) | exact Hnodup].
Qed.

Lemma compute_pass_flushed
      (session : Session.t) (config : Config.t)
      (listings : option (list CSFloatListing.t)) (clock : nat -> Z)
      (commit_time : Z) :
  Session.new_signals
    (fst (compute_csfloat_to_buff_signals session config listings clock
                                          commit_time)) = [].
Proof.
  unfold compute_csfloat_to_buff_signals.
  destruct (csfloat_to_buff_loop session config _ clock 0). reflexivity.
Qed.

(** The scheduled scan keeps the invariant: what it hands to direction A
    are rows of pairwise distinct ids of a session it has just committed. *)
Lemma run_csfloat_scan_keeps_one_active
      (store : Session.t) (config : Config.t)
      (fetched : list CSFloatListingDTO.t) (clock : ScanClock.t) :
  one_active_per_listing (Session.arbitrage_signals store) ->
  listing_table_ok (Session.csfloat_listings store) ->
  one_active_per_listing
    (Session.arbitrage_signals (run_csfloat_scan store config fetched clock)).
Proof.
  intros Hinv Hok. unfold run_csfloat_scan. cbv zeta.
  set (session := get_session store).
  assert (Hflushed : Session.new_signals session = []) by reflexivity.
  change (one_active_per_listing (Session.arbitrage_signals session)) in Hinv.
  change (listing_table_ok (Session.csfloat_listings session)) in Hok.
  pose proof (ingest_csfloat_listings_once_spec
                session config fetched (ScanClock.ingest clock)
                (ScanClock.ingest_commit clock) Hok Hflushed) as Hingest.
  destruct (ingest_csfloat_listings_once session config fetched
              (ScanClock.ingest clock) (ScanClock.ingest_commit clock))
    as [session1 listings].
  cbn [fst snd] in Hingest. destruct Hingest as (Hflushed1 & Hsig1 & Hnodup).
  assert (Hinv1 : one_active_per_listing (Session.arbitrage_signals session1))
    by (rewrite Hsig1; exact Hinv).
  destruct listings as [|listing listings].
  - destruct (flush_nothing_new (ScanClock.exit_commit clock) session1 Hflushed1)
      as (Hsig & _).
    unfold Session.commit. rewrite Hsig. exact Hinv1.
  - pose proof (pass_keeps_one_active
                  session1 config (listing :: listings)
                  (ScanClock.compute clock) (ScanClock.compute_commit clock)
                  Hinv1 Hflushed1 Hnodup) as Hinv2.
    pose proof (compute_pass_flushed
                  session1 config (Some (listing :: listings))
                  (ScanClock.compute clock) (ScanClock.compute_commit clock))
      as Hflushed2.
    destruct (flush_nothing_new (ScanClock.exit_commit clock) _ Hflushed2)
      as (Hsig & _).
    unfold Session.commit at 1. rewrite Hsig. exact Hinv2.
Qed.

(** Why the listings of a pass must have distinct ids: the session does not
    autoflush, so the lookup for the second of two equal rows does not see
    the signal the first one added. *)
Remark pass_over_repeated_row :
  map ArbitrageSignal.csfloat_listing_id
      (Session.arbitrage_signals
         (fst (compute_csfloat_to_buff_signals
                 example_session (config_with_fx (13 # 100))
                 (Some [example_listing; example_listing])
                 (fun _ => example_snapshot_time) example_snapshot_time)))
  = [Some 7%Z; Some 7%Z].
Proof. reflexivity. Qed.

Section OneActivePerListing.
Variables (session : Session.t) (config : Config.t).

Hypothesis Hinvariant :
  one_active_per_listing (Session.arbitrage_signals session).
Hypothesis Hflushed : Session.new_signals session = [].


End OneActivePerListing.


(* ================================================================== *)
(** * Further properties of the engine *)

(* ------------------------------------------------------------------ *)
(** ** Direction B: one active signal per key *)

(** Counting the rows a predicate selects across a flush. *)
Lemma flush_signals_count (q : ArbitrageSignal.t -> bool)
      (qn : SignalInit.t -> bool) (now : Z) :
  (forall id x, q (Session.signal_row id now x) = qn x) ->
  forall news rows,
    List.length (filter q (Session.flush_signals now rows news))
    = (List.length (filter q rows) + List.length (filter qn news))%nat.
Proof.
  intros Hrow. induction news as [|x news IH]; intros rows; simpl.
  - lia.
  - rewrite IH, filter_app, length_app. simpl. rewrite Hrow.
    destruct (qn x); simpl; lia.
Qed.

Lemma existing_for_name_signal_row (name : string) (id now : Z)
      (x : SignalInit.t) :
  existing_for_name name (Session.signal_row id now x)
  = pending_for_name name x.
Proof.
  unfold existing_for_name, pending_for_name. simpl. apply andb_true_r.
Qed.

Lemma commit_signals_for_name (name : string) (now : Z) (s : Session.t) :
  List.length (filter (existing_for_name name)
                      (Session.arbitrage_signals (Session.commit now s)))
  = signals_for_name name s.
Proof.
  unfold signals_for_name. simpl.
  apply flush_signals_count. intros id x. apply existing_for_name_signal_row.
Qed.

(** One computation of direction B leaves the session alone, or assigns the
    four price fields of the signal its lookup found, or adds a new signal
    of direction B for its key when the lookup found none. *)
Lemma compute_B_effect (session : Session.t) (name : string)
      (config : Config.t)
      (csfloat_client : string -> option CSFloatListingDTO.t) :
  let out := _compute_buff_to_csfloat_signal session name config csfloat_client in
  let lookup := existing_for_name name in
  out = (session, None)
  \/ (exists existing cny usd price roi,
        find lookup (Session.arbitrage_signals session) = Some existing
        /\ out = (Session.with_signals
                    (Session.update_first lookup
                       (ArbitrageSignal.set_prices cny usd price roi)
                       (Session.arbitrage_signals session))
                    session,
                  Some (Updated (ArbitrageSignal.set_prices cny usd price roi
                                                            existing))))
  \/ (exists init,
        find lookup (Session.arbitrage_signals session) = None
        /\ out = (Session.add_signal init session, Some (Created init))
        /\ pending_for_name name init = true
        /\ SignalInit.csfloat_listing_id init = None).
Proof.
  unfold _compute_buff_to_csfloat_signal, Session.first. cbv zeta.
  destruct (find _ (Session.buff_items session)) as [buff_item|]; [|now left].
  destruct (Session.latest_snapshot _ session) as [snap|]; [|now left].
  destruct (csfloat_client name) as [dto|]; [|now left].
  destruct (Qleb _ 0); [now left|].
  destruct (Qltb _ _); [now left|].
  destruct (find _ (Session.arbitrage_signals session)) as [existing|] eqn:E.
  - right. left. do 5 eexists. split; reflexivity.
  - right. right. eexists. split; [reflexivity|]. split; [reflexivity|].
    split; [|reflexivity].
    unfold pending_for_name. simpl. rewrite String.eqb_refl. reflexivity.
Qed.

Lemma pending_for_name_unique (name name' : string) (x : SignalInit.t) :
  pending_for_name name x = true -> name' <> name ->
  pending_for_name name' x = false.
Proof.
  unfold pending_for_name. intros H Hne.
  apply andb_true_iff in H. destruct H as [H _].
  apply String.eqb_eq in H. rewrite H.
  destruct (String.eqb_spec name name') as [-> | _];
    [contradiction | reflexivity].
Qed.

(** A signal of one direction is never selected by the lookup of the
    other. *)
Lemma pending_directions_apart (x : SignalInit.t) :
  (forall L, pending_for_listing L x = true ->
             forall name, pending_for_name name x = false)
  /\ (forall name, pending_for_name name x = true ->
                   forall L, pending_for_listing L x = false).
Proof.
  unfold pending_for_listing, pending_for_name. split.
  - intros L H name. apply andb_true_iff in H. destruct H as [_ H].
    apply String.eqb_eq in H. rewrite H. apply andb_false_r.
  - intros name H L. apply andb_true_iff in H. destruct H as [_ H].
    apply String.eqb_eq in H. rewrite H. apply andb_false_r.
Qed.

(** The counts of both directions across one computation of direction B. *)
Lemma compute_B_counts (session : Session.t) (name : string)
      (config : Config.t)
      (csfloat_client : string -> option CSFloatListingDTO.t) :
  let session' :=
    fst (_compute_buff_to_csfloat_signal session name config csfloat_client) in
  (forall L, signals_for_listing L session' = signals_for_listing L session)
  /\ (forall n, n <> name ->
        signals_for_name n session' = signals_for_name n session
        /\ filter (pending_for_name n) (Session.new_signals session')
           = filter (pending_for_name n) (Session.new_signals session))
  /\ (signals_for_name name session' = signals_for_name name session
      \/ (List.length (filter (existing_for_name name)
                              (Session.arbitrage_signals session)) = 0%nat
          /\ signals_for_name name session'
             = S (List.length (filter (pending_for_name name)
                                      (Session.new_signals session))))).
Proof.
  intros session'. subst session'.
  destruct (compute_B_effect session name config csfloat_client)
    as [Hout | [(existing & cny & usd & price & roi & Hfind & Hout)
               | (init & Hfind & Hout & Hkey & _)]];
    rewrite Hout; simpl.
  - split; [reflexivity|].
    split; [intros n _; split; reflexivity | left; reflexivity].
  - unfold signals_for_listing, signals_for_name. simpl.
    split; [|split].
    + intros L. f_equal. apply filter_update_first_length. reflexivity.
    + intros n _. split; [|reflexivity]. f_equal.
      apply filter_update_first_length. reflexivity.
    + left. f_equal. apply filter_update_first_length. reflexivity.
  - unfold signals_for_listing, signals_for_name. simpl.
    split; [|split].
    + intros L. rewrite filter_app. simpl.
      rewrite (proj2 (pending_directions_apart init) name Hkey L). simpl.
      rewrite app_nil_r. reflexivity.
    + intros n Hn. rewrite filter_app. simpl.
      rewrite (pending_for_name_unique _ n init Hkey Hn). simpl.
      rewrite app_nil_r. split; reflexivity.
    + right. rewrite (find_none_filter _ _ Hfind). simpl.
      split; [reflexivity|].
      rewrite filter_app, length_app. simpl. rewrite Hkey. simpl. lia.
Qed.

(** The loop of direction B over a watch-list without repeated keys. *)
Lemma buff_to_csfloat_loop_counts (config : Config.t)
      (csfloat_client : string -> option CSFloatListingDTO.t)
      (items : list string) :
  forall session : Session.t,
    (forall L,
       signals_for_listing L
         (fst (buff_to_csfloat_loop session config items csfloat_client))
       = signals_for_listing L session)
    /\ (NoDup items ->
        (forall n, (signals_for_name n session <= 1)%nat) ->
        (forall n, In n items ->
                   filter (pending_for_name n) (Session.new_signals session) = []) ->
        forall n,
          (signals_for_name n
             (fst (buff_to_csfloat_loop session config items csfloat_client))
           <= 1)%nat).
Proof.
  induction items as [|item rest IH]; intros session; simpl.
  - split; [reflexivity | intros _ Hinv _; exact Hinv].
  - pose proof (compute_B_counts session item config csfloat_client) as Hstep.
    destruct (_compute_buff_to_csfloat_signal session item config csfloat_client)
      as [session' signal].
    simpl in Hstep. destruct Hstep as (Hlisting & Hother & Hown).
    specialize (IH session').
    destruct (buff_to_csfloat_loop session' config rest csfloat_client)
      as [session'' created].
    simpl in *. destruct IH as [IHlisting IHname]. split.
    + intros L. rewrite IHlisting. apply Hlisting.
    + intros Hnodup Hinv Hfresh n.
      inversion Hnodup as [|? ? Hnotin Hrest]; subst.
      apply IHname; [exact Hrest | |].
      * intros n'. destruct (string_dec n' item) as [-> | Hne].
        -- destruct Hown as [-> | [Hzero ->]]; [apply Hinv|].
           rewrite (Hfresh item (or_introl eq_refl)). simpl. lia.
        -- rewrite (proj1 (Hother n' Hne)). apply Hinv.
      * intros n' Hn'.
        assert (Hne : n' <> item) by (intros ->; contradiction).
        rewrite (proj2 (Hother n' Hne)). apply Hfresh. right. exact Hn'.
Qed.

(** X1: a pass of direction B over a watch-list without repeated keys,
    started with nothing unflushed, keeps at most one active signal per
    (direction B, key); and it keeps the invariant of direction A over any
    watch-list. *)
Theorem X1_direction_B_one_active_per_name
        (session : Session.t) (config : Config.t) (watchlist : list string)
        (csfloat_client : string -> option CSFloatListingDTO.t)
        (commit_time : Z)
        (Hflushed : Session.new_signals session = []) :
  let session' :=
    fst (compute_buff_to_csfloat_signals session config watchlist
                                         csfloat_client commit_time) in
  (one_active_per_name (Session.arbitrage_signals session) ->
   NoDup watchlist ->
   one_active_per_name (Session.arbitrage_signals session'))
  /\ (one_active_per_listing (Session.arbitrage_signals session) ->
      one_active_per_listing (Session.arbitrage_signals session')).
Proof.
  intros session'. subst session'.
  unfold compute_buff_to_csfloat_signals.
  pose proof (buff_to_csfloat_loop_counts config csfloat_client watchlist session)
    as [Hlisting Hname].
  destruct (buff_to_csfloat_loop session config watchlist csfloat_client)
    as [session1 created].
  cbn [fst] in *. split.
  - intros Hinv Hnodup n. rewrite commit_signals_for_name.
    apply Hname; [exact Hnodup | |].
    + intros n'. unfold signals_for_name. rewrite Hflushed. simpl.
      rewrite Nat.add_0_r. apply Hinv.
    + intros n' _. rewrite Hflushed. reflexivity.
  - intros Hinv L. rewrite commit_signals_for_listing, Hlisting.
    unfold signals_for_listing. rewrite Hflushed. simpl.
    rewrite Nat.add_0_r. apply Hinv.
Qed.

Lemma X1_direction_B_one_active_per_name_witness :
  one_active_per_name
    (Session.arbitrage_signals
       (fst (compute_buff_to_csfloat_signals
               example_session_with_signal (config_with_fx (13 # 100))
               ["AK-47 | Redline (Field-Tested)"; "AWP | Asiimov (Field-Tested)"]%string
               (example_client 20000)
               (example_snapshot_time + timedelta_hours 1)))).
Proof.
  destruct (X1_direction_B_one_active_per_name
              example_session_with_signal (config_with_fx (13 # 100))
              ["AK-47 | Redline (Field-Tested)"; "AWP | Asiimov (Field-Tested)"]%string
              (example_client 20000)
              (example_snapshot_time + timedelta_hours 1) eq_refl)
    as [Hname _].
  apply Hname.
  - intros n. simpl. destruct (existing_for_name n example_signal); simpl; lia.
  - constructor; [|constructor; [intros [] | constructor]].
    intros [H | []]. discriminate H.
Defined.

(* ------------------------------------------------------------------ *)
(** ** Both invariants across the operations *)

Lemma compute_A_counts_name (session : Session.t) (listing : CSFloatListing.t)
      (config : Config.t) (now : Z) (n : string) :
  signals_for_name n (fst (_compute_signal_for_listing session listing config now))
  = signals_for_name n session.
Proof.
  destruct (compute_A_effect session listing config now)
    as [Hout | [(existing & cny & usd & price & roi & Hfind & Hout)
               | (init & Hfind & Hout & Hkey)]];
    rewrite Hout; simpl; [reflexivity | |];
    unfold signals_for_name; simpl.
  - f_equal. apply filter_update_first_length. reflexivity.
  - rewrite filter_app. simpl.
    rewrite (proj1 (pending_directions_apart init) _ Hkey n). simpl.
    rewrite app_nil_r. reflexivity.
Qed.

Lemma csfloat_to_buff_loop_counts_name (config : Config.t) (clock : nat -> Z)
      (listings : list CSFloatListing.t) (n : string) :
  forall (session : Session.t) (i : nat),
    signals_for_name n (fst (csfloat_to_buff_loop session config listings clock i))
    = signals_for_name n session.
Proof.
  induction listings as [|listing rest IH]; intros session i; simpl;
    [reflexivity|].
  destruct (low_liquidity listing config); [apply IH|].
  pose proof (compute_A_counts_name session listing config (clock i) n) as Hstep.
  destruct (_compute_signal_for_listing session listing config (clock i))
    as [session' signal].
  specialize (IH session' (S i)).
  destruct (csfloat_to_buff_loop session' config rest clock (S i))
    as [session'' created].
  simpl in *. congruence.
Qed.

(** Deactivating rows cannot raise the number of rows a lookup of active
    signals selects. *)
Lemma sweep_filter_length (q : ArbitrageSignal.t -> bool) (cutoff : Z)
      (rows : list ArbitrageSignal.t) :
  (forall sg, q (ArbitrageSignal.deactivate sg) = true -> q sg = true) ->
  (List.length
     (filter q (map (fun sg => if is_stale cutoff sg
                               then ArbitrageSignal.deactivate sg else sg) rows))
   <= List.length (filter q rows))%nat.
Proof.
  intros Hq. induction rows as [|sg rows IH]; simpl; [lia|].
  destruct (is_stale cutoff sg).
  - destruct (q (ArbitrageSignal.deactivate sg)) eqn:E.
    + rewrite (Hq sg E). simpl. lia.
    + destruct (q sg); simpl; lia.
  - destruct (q sg); simpl; lia.
Qed.

(** X2: started with nothing unflushed, a pass of direction A keeps the
    invariant of direction B, whatever listings it goes over, and the
    staleness sweep keeps the invariants of both directions, whatever the
    max age. *)
Theorem X2_invariants_across_operations
        (session : Session.t) (Hflushed : Session.new_signals session = []) :
  (forall config listings clock commit_time,
      one_active_per_name (Session.arbitrage_signals session) ->
      one_active_per_name
        (Session.arbitrage_signals
           (fst (compute_csfloat_to_buff_signals session config listings clock
                                                 commit_time))))
  /\ (forall max_age_hours now,
        let swept := fst (deactivate_stale_signals session max_age_hours now) in
        (one_active_per_listing (Session.arbitrage_signals session) ->
         one_active_per_listing (Session.arbitrage_signals swept))
        /\ (one_active_per_name (Session.arbitrage_signals session) ->
            one_active_per_name (Session.arbitrage_signals swept))).
Proof.
  split.
  - intros config listings clock commit_time Hinv n.
    unfold compute_csfloat_to_buff_signals.
    pose proof (csfloat_to_buff_loop_counts_name
                  config clock (pass_listings session listings) n session 0%nat)
      as Hloop.
    unfold pass_listings in Hloop.
    destruct (csfloat_to_buff_loop session config _ clock 0)
      as [session1 created].
    cbn [fst] in *. rewrite commit_signals_for_name, Hloop.
    unfold signals_for_name. rewrite Hflushed. simpl.
    rewrite Nat.add_0_r. apply Hinv.
  - intros max_age_hours now swept.
    destruct (sweep_signals session max_age_hours now)
      as (added & Hswept & Hadded).
    fold swept in Hswept. rewrite Hflushed in Hadded.
    inversion Hadded; subst. rewrite app_nil_r in Hswept.
    rewrite Hswept. split; intros Hinv key.
    + eapply Nat.le_trans; [apply sweep_filter_length | apply (Hinv key)].
      intros sg. unfold existing_for_listing. simpl.
      rewrite andb_false_r. discriminate.
    + eapply Nat.le_trans; [apply sweep_filter_length | apply (Hinv key)].
      intros sg. unfold existing_for_name. simpl.
      rewrite andb_false_r. discriminate.
Qed.

Lemma X2_invariants_across_operations_witness :
  one_active_per_listing
    (Session.arbitrage_signals
       (fst (deactivate_stale_signals
               example_session_with_signal 24
               (example_snapshot_time + timedelta_hours 25)))).
Proof.
  destruct (X2_invariants_across_operations example_session_with_signal eq_refl)
    as [_ Hsweep].
  apply (Hsweep 24%Z (example_snapshot_time + timedelta_hours 25)%Z).
  intros L. simpl. destruct (existing_for_listing L example_signal); simpl; lia.
Defined.

(* ------------------------------------------------------------------ *)
(** ** Direction A: what a pass does to the signal table *)

Lemma same_but_prices_refl (sg : ArbitrageSignal.t) : same_but_prices sg sg.
Proof. repeat split. Qed.

Lemma same_but_prices_trans (a b c : ArbitrageSignal.t) :
  same_but_prices a b -> same_but_prices b c -> same_but_prices a c.
Proof.
  unfold same_but_prices. intros H1 H2.
  repeat match goal with H : _ /\ _ |- _ => destruct H end.
  repeat split; congruence.
Qed.

Lemma Forall2_same_but_prices_refl (rows : list ArbitrageSignal.t) :
  Forall2 same_but_prices rows rows.
Proof.
  induction rows; constructor; [apply same_but_prices_refl | assumption].
Qed.

Lemma Forall2_same_but_prices_trans (a b c : list ArbitrageSignal.t) :
  Forall2 same_but_prices a b -> Forall2 same_but_prices b c ->
  Forall2 same_but_prices a c.
Proof.
  intros Hab. revert c. induction Hab as [|x y a b Hxy Hab IH]; intros c Hbc;
    inversion Hbc; subst; constructor.
  - eapply same_but_prices_trans; eassumption.
  - apply IH. assumption.
Qed.

Lemma update_first_same_but_prices (p : ArbitrageSignal.t -> bool)
      (cny usd price roi : Q) (rows : list ArbitrageSignal.t) :
  Forall2 same_but_prices rows
          (Session.update_first p (ArbitrageSignal.set_prices cny usd price roi)
                                rows).
Proof.
  induction rows as [|sg rows IH]; simpl; [constructor|].
  destruct (p sg); constructor.
  - apply set_prices_frame.
  - apply Forall2_same_but_prices_refl.
  - apply same_but_prices_refl.
  - exact IH.
Qed.

(** What one computation of direction A returns passed the gate of
    direction A, and is about its listing. *)
Lemma compute_A_returns (session : Session.t) (listing : CSFloatListing.t)
      (config : Config.t) (now : Z) (r : SignalRef) :
  snd (_compute_signal_for_listing session listing config now) = Some r ->
  Config.min_roi_csfloat_to_buff config <= ref_roi_pct r
  /\ ref_listing_id r = Some (CSFloatListing.id listing).
Proof.
  unfold _compute_signal_for_listing, Session.first. cbv zeta.
  destruct (find _ (Session.buff_items session)) as [buff_item|];
    [|discriminate].
  destruct (Session.latest_snapshot _ session) as [snap|]; [|discriminate].
  destruct (_ <? _)%Z; [discriminate|].
  destruct (Qleb _ 0); [discriminate|].
  destruct (Qltb _ _) eqn:Eroi; [discriminate|].
  apply Qltb_false in Eroi.
  destruct (find _ (Session.arbitrage_signals session)) as [existing|] eqn:E;
    simpl; intros [= <-]; simpl; (split; [exact Eroi|]).
  - apply find_some in E. destruct E as [_ E].
    unfold existing_for_listing in E.
    apply andb_true_iff in E. destruct E as [E _].
    apply andb_true_iff in E. destruct E as [E _].
    destruct (ArbitrageSignal.csfloat_listing_id existing) as [k|];
      simpl in E; [|discriminate].
    apply Z.eqb_eq in E. congruence.
  - reflexivity.
Qed.

(** The loop of a pass of direction A: the rows keep their places and all
    but their prices, and the new signals are the ones it returns. *)
Lemma csfloat_to_buff_loop_accounting (config : Config.t) (clock : nat -> Z)
      (listings : list CSFloatListing.t) :
  forall (session : Session.t) (i : nat),
    let session' := fst (csfloat_to_buff_loop session config listings clock i) in
    let refs := snd (csfloat_to_buff_loop session config listings clock i) in
    Forall2 same_but_prices (Session.arbitrage_signals session)
                            (Session.arbitrage_signals session')
    /\ Session.new_signals session'
       = Session.new_signals session ++ created_inits refs
    /\ same_market_data session session'
    /\ Session.new_snapshots session' = Session.new_snapshots session
    /\ Forall (fun r =>
                 Config.min_roi_csfloat_to_buff config <= ref_roi_pct r
                 /\ exists listing, In listing listings
                      /\ low_liquidity listing config = false
                      /\ ref_listing_id r = Some (CSFloatListing.id listing))
              refs
    /\ (List.length refs <= List.length listings)%nat.
Proof.
  induction listings as [|listing rest IH]; intros session i; simpl.
  - split; [apply Forall2_same_but_prices_refl|].
    split; [symmetry; apply app_nil_r|].
    split; [repeat split|]. split; [reflexivity|].
    split; [constructor | lia].
  - destruct (low_liquidity listing config) eqn:Egate.
    + destruct (IH session (S i)) as (H1 & H2 & H3 & H4 & H5 & H6).
      split; [exact H1|]. split; [exact H2|]. split; [exact H3|].
      split; [exact H4|]. split; [|lia].
      eapply Forall_impl; [|exact H5].
      intros r (Hroi & l & Hl & Hgate & Hid).
      split; [exact Hroi|]. exists l. split; [right; exact Hl | auto].
    + pose proof (compute_A_effect session listing config (clock i)) as Heffect.
      pose proof (compute_A_returns session listing config (clock i)) as Hret.
      destruct (_compute_signal_for_listing session listing config (clock i))
        as [session1 signal].
      specialize (IH session1 (S i)).
      destruct (csfloat_to_buff_loop session1 config rest clock (S i))
        as [session2 refs].
      cbn [fst snd] in *.
      destruct IH as (H1 & H2 & H3 & H4 & H5 & H6).
      assert (Hrest :
        Forall (fun r =>
                  Config.min_roi_csfloat_to_buff config <= ref_roi_pct r
                  /\ exists l, In l (listing :: rest)
                       /\ low_liquidity l config = false
                       /\ ref_listing_id r = Some (CSFloatListing.id l)) refs).
      { eapply Forall_impl; [|exact H5].
        intros r (Hroi & l & Hl & Hgate & Hid).
        split; [exact Hroi|]. exists l. split; [right; exact Hl | auto]. }
      destruct Heffect
        as [Hout | [(existing & cny & usd & price & roi & Hfind & Hout)
                   | (init & Hfind & Hout & Hkey)]];
        injection Hout as -> ->.
      * split; [exact H1|]. split; [exact H2|]. split; [exact H3|].
        split; [exact H4|]. split; [exact Hrest | lia].
      * split.
        { eapply Forall2_same_but_prices_trans; [|exact H1].
          apply update_first_same_but_prices. }
        split; [exact H2|]. split; [exact H3|]. split; [exact H4|].
        split; [|simpl; lia].
        constructor; [|exact Hrest].
        destruct (Hret _ eq_refl) as [Hroi Hid].
        split; [exact Hroi|]. exists listing.
        split; [left; reflexivity | auto].
      * split; [exact H1|].
        split; [rewrite H2; simpl; rewrite <- app_assoc; reflexivity|].
        split; [exact H3|]. split; [exact H4|].
        split; [|simpl; lia].
        constructor; [|exact Hrest].
        destruct (Hret _ eq_refl) as [Hroi Hid].
        split; [exact Hroi|]. exists listing.
        split; [left; reflexivity | auto].
Qed.

Lemma low_liquidity_false (listing : CSFloatListing.t) (config : Config.t) :
  low_liquidity listing config = false <-> liquid_enough listing config.
Proof.
  unfold low_liquidity, liquid_enough. rewrite orb_false_iff. split.
  - intros [Hq Hw]. split.
    + intros q E. rewrite E in Hq. apply Z.ltb_ge, Hq.
    + intros w E. rewrite E in Hw. apply Z.ltb_ge, Hw.
  - intros [Hq Hw]. split.
    + destruct (CSFloatListing.reference_quantity listing) as [q|];
        [apply Z.ltb_ge, Hq|]; reflexivity.
    + destruct (CSFloatListing.watchers listing) as [w|];
        [apply Z.ltb_ge, Hw|]; reflexivity.
Qed.

(** X3: a pass of direction A, started with nothing unflushed, never
    removes and never deactivates a signal: every row keeps its place, its
    identity, its creation time, its note and both its flags, only prices
    and ROI may change; the rows it appends are the new signals it
    returned, in order, each active, not acted on, without a note and
    created at the commit; it writes no other table. *)
Theorem X3_pass_A_accounting
        (session : Session.t) (config : Config.t)
        (listings : option (list CSFloatListing.t))
        (clock : nat -> Z) (commit_time : Z)
        (Hflushed : Session.new_signals session = [])
        (Hsnapshots : Session.new_snapshots session = []) :
  let session' :=
    fst (compute_csfloat_to_buff_signals session config listings clock
                                         commit_time) in
  let refs :=
    snd (compute_csfloat_to_buff_signals session config listings clock
                                         commit_time) in
  exists kept added,
    Session.arbitrage_signals session' = kept ++ added
    /\ Forall2 same_but_prices (Session.arbitrage_signals session) kept
    /\ Forall2 (fun init row =>
                  exists id, row = Session.signal_row id commit_time init)
               (created_inits refs) added
    /\ Forall (fun row =>
                 ArbitrageSignal.is_active row = true
                 /\ ArbitrageSignal.acted_on row = false
                 /\ ArbitrageSignal.note row = None
                 /\ ArbitrageSignal.created_at row = commit_time)
              added
    /\ same_market_data session session'.
Proof.
  intros session' refs. subst session' refs.
  unfold compute_csfloat_to_buff_signals.
  pose proof (csfloat_to_buff_loop_accounting
                config clock (pass_listings session listings) session 0%nat)
    as Hloop.
  unfold pass_listings in Hloop.
  destruct (csfloat_to_buff_loop session config _ clock 0)
    as [session1 refs].
  cbn [fst snd] in *.
  destruct Hloop as (Hkept & Hnew & Hdata & Hsnap & _ & _).
  rewrite Hflushed in Hnew. simpl in Hnew.
  destruct (flush_signals_spec commit_time (Session.new_signals session1)
                               (Session.arbitrage_signals session1))
    as (added & Hflush & Hadded).
  exists (Session.arbitrage_signals session1), added.
  split; [exact Hflush|]. split; [exact Hkept|].
  split; [rewrite <- Hnew; exact Hadded|].
  split.
  - clear Hflush Hnew. induction Hadded as [|x row news added' [id ->] _ IH].
    + constructor.
    + constructor; [repeat split | exact IH].
  - destruct Hdata as (Hi & Hs & Hl). unfold same_market_data. simpl.
    rewrite Hsnap, Hsnapshots. simpl. repeat split; assumption.
Qed.

Lemma X3_pass_A_accounting_witness :
  exists kept added,
    Session.arbitrage_signals
      (fst (compute_csfloat_to_buff_signals
              example_session_with_signal (config_with_fx (13 # 100)) None
              (fun _ => example_snapshot_time) example_snapshot_time))
    = kept ++ added
    /\ Forall2 same_but_prices [example_signal] kept.
Proof.
  destruct (X3_pass_A_accounting
              example_session_with_signal (config_with_fx (13 # 100)) None
              (fun _ => example_snapshot_time) example_snapshot_time
              eq_refl eq_refl)
    as (kept & added & Heq & Hkept & _).
  exists kept, added. split; [exact Heq | exact Hkept].
Defined.

(** X4: every signal a pass of direction A returns has an ROI that reaches
    the minimum of direction A and is about a listing of the pass whose
    liquidity indicators, where present, reach the configured minimums; the
    pass returns at most one signal per listing, and none when every
    listing is below a minimum. *)
Theorem X4_liquidity_gate
        (session : Session.t) (config : Config.t)
        (listings : option (list CSFloatListing.t))
        (clock : nat -> Z) (commit_time : Z) :
  let refs :=
    snd (compute_csfloat_to_buff_signals session config listings clock
                                         commit_time) in
  Forall (fun r =>
            Config.min_roi_csfloat_to_buff config <= ref_roi_pct r
            /\ exists listing,
                 In listing (pass_listings session listings)
                 /\ liquid_enough listing config
                 /\ ref_listing_id r = Some (CSFloatListing.id listing))
         refs
  /\ (List.length refs <= List.length (pass_listings session listings))%nat
  /\ ((forall listing, In listing (pass_listings session listings) ->
                       ~ liquid_enough listing config) ->
      refs = []).
Proof.
  intros refs. subst refs.
  unfold compute_csfloat_to_buff_signals.
  pose proof (csfloat_to_buff_loop_accounting
                config clock (pass_listings session listings) session 0%nat)
    as Hloop.
  unfold pass_listings in *.
  destruct (csfloat_to_buff_loop session config _ clock 0)
    as [session1 refs].
  cbn [fst snd] in *.
  destruct Hloop as (_ & _ & _ & _ & Hrefs & Hlen).
  assert (Hgate :
    Forall (fun r =>
              Config.min_roi_csfloat_to_buff config <= ref_roi_pct r
              /\ exists listing,
                   In listing (match listings with
                               | Some l => l
                               | None => filter CSFloatListing.is_active
                                           (Session.csfloat_listings session)
                               end)
                   /\ liquid_enough listing config
                   /\ ref_listing_id r = Some (CSFloatListing.id listing))
           refs).
  { eapply Forall_impl; [|exact Hrefs].
    intros r (Hroi & l & Hl & Hgate & Hid).
    split; [exact Hroi|]. exists l.
    split; [exact Hl|]. split; [apply low_liquidity_false, Hgate | exact Hid]. }
  split; [exact Hgate|]. split; [exact Hlen|].
  intros Hnone. destruct refs as [|r refs]; [reflexivity|].
  inversion Hgate as [|? ? (_ & l & Hl & Hliquid & _) _]; subst.
  exfalso. exact (Hnone l Hl Hliquid).
Qed.

(* ------------------------------------------------------------------ *)
(** ** No signal without data *)

(** X5: a computation, of either direction, that returns no signal leaves
    the session as it was; one that returns a signal found the item of the
    key, its most recent snapshot (for direction A not older than 24 hours)
    and, for direction B, a listing at the market, and the signal records
    the floor of that snapshot and the price of that listing. *)
Theorem X5_no_signal_without_data (session : Session.t) (config : Config.t) :
  (forall listing now,
     let out := _compute_signal_for_listing session listing config now in
     (snd out = None -> fst out = session)
     /\ (forall r, snd out = Some r ->
           exists buff_item buff_snapshot,
             item_by_name (CSFloatListing.market_hash_name listing) session
             = Some buff_item
             /\ Session.latest_snapshot (BuffItem.goods_id buff_item) session
                = Some buff_snapshot
             /\ (now - timedelta_hours 24
                 <= BuffPriceSnapshot.timestamp buff_snapshot)%Z
             /\ ref_buff_floor_cny r
                = Some (BuffPriceSnapshot.overall_min_price buff_snapshot)
             /\ ref_csfloat_price_usd r
                = Some (inject_Z (CSFloatListing.price_cents listing) / 100)))
  /\ (forall name csfloat_client,
        let out :=
          _compute_buff_to_csfloat_signal session name config csfloat_client in
        (snd out = None -> fst out = session)
        /\ (forall r, snd out = Some r ->
              exists buff_item buff_snapshot csfloat_listing,
                item_by_name name session = Some buff_item
                /\ Session.latest_snapshot (BuffItem.goods_id buff_item) session
                   = Some buff_snapshot
                /\ csfloat_client name = Some csfloat_listing
                /\ ref_buff_floor_cny r
                   = Some (BuffPriceSnapshot.overall_min_price buff_snapshot)
                /\ ref_csfloat_price_usd r
                   = Some (inject_Z (CSFloatListingDTO.price_cents csfloat_listing)
                           / 100))).
Proof.
  split.
  - intros listing now out. subst out.
    unfold _compute_signal_for_listing, item_by_name, Session.first. cbv zeta.
    destruct (find _ (Session.buff_items session)) as [buff_item|] eqn:Eitem;
      [|split; [reflexivity | discriminate]].
    destruct (Session.latest_snapshot _ session) as [snap|] eqn:Esnap;
      [|split; [reflexivity | discriminate]].
    destruct (Z.ltb_spec (BuffPriceSnapshot.timestamp snap)
                         (now - timedelta_hours 24)) as [Hold | Hfresh];
      [split; [reflexivity | discriminate]|].
    destruct (Qleb _ 0); [split; [reflexivity | discriminate]|].
    destruct (Qltb _ _); [split; [reflexivity | discriminate]|].
    destruct (find _ (Session.arbitrage_signals session)); simpl;
      (split; [discriminate|]); intros r [= <-];
      exists buff_item, snap;
      (split; [reflexivity|]); (split; [exact Esnap|]);
      (split; [exact Hfresh|]); split; reflexivity.
  - intros name csfloat_client out. subst out.
    unfold _compute_buff_to_csfloat_signal, item_by_name, Session.first.
    cbv zeta.
    destruct (find _ (Session.buff_items session)) as [buff_item|] eqn:Eitem;
      [|split; [reflexivity | discriminate]].
    destruct (Session.latest_snapshot _ session) as [snap|] eqn:Esnap;
      [|split; [reflexivity | discriminate]].
    destruct (csfloat_client name) as [dto|] eqn:Edto;
      [|split; [reflexivity | discriminate]].
    destruct (Qleb _ 0); [split; [reflexivity | discriminate]|].
    destruct (Qltb _ _); [split; [reflexivity | discriminate]|].
    destruct (find _ (Session.arbitrage_signals session)); simpl;
      (split; [discriminate|]); intros r [= <-];
      exists buff_item, snap, dto;
      (split; [reflexivity|]); (split; [exact Esnap|]);
      (split; [reflexivity|]); split; reflexivity.
Qed.

(* ------------------------------------------------------------------ *)
(** ** The ranking query: the best signals, all of them *)

(** The sort is a rearrangement. *)
Lemma insert_desc_perm (x : ArbitrageSignal.t) (l : list ArbitrageSignal.t) :
  Permutation (x :: l) (insert_desc x l).
Proof.
  induction l as [|y l IH]; simpl; [reflexivity|].
  destruct (Qleb (ArbitrageSignal.roi_pct y) (ArbitrageSignal.roi_pct x));
    [reflexivity|].
  rewrite perm_swap. apply perm_skip, IH.
Qed.

Lemma order_by_roi_desc_perm (l : list ArbitrageSignal.t) :
  Permutation l (order_by_roi_desc l).
Proof.
  induction l as [|x l IH]; simpl; [reflexivity|].
  rewrite <- insert_desc_perm. apply perm_skip, IH.
Qed.

(** The optional filters of the query are one filter. *)
Lemma ranking_filters (session : Session.t) (direction : option string)
      (min_roi : option Q) (limit : nat) (active_only : bool) :
  get_top_signals session direction min_roi limit active_only
  = firstn limit
      (order_by_roi_desc
         (filter (passes_filters direction min_roi active_only)
                 (Session.arbitrage_signals session))).
Proof.
  unfold get_top_signals. f_equal. f_equal.
  assert (Hid : forall l : list ArbitrageSignal.t, filter (fun _ => true) l = l).
  { induction l as [|x l IH]; simpl; [|rewrite IH]; reflexivity. }
  assert (Hcomp : forall (p q : ArbitrageSignal.t -> bool) l,
            filter q (filter p l) = filter (fun x => p x && q x) l).
  { intros p q. induction l as [|x l IH]; simpl; [reflexivity|].
    destruct (p x); simpl; [destruct (q x)|]; rewrite IH; reflexivity. }
  set (rows := Session.arbitrage_signals session).
  assert (H1 : (if active_only then filter ArbitrageSignal.is_active rows else rows)
               = filter (fun sg => negb active_only || ArbitrageSignal.is_active sg)
                        rows).
  { destruct active_only; simpl; [reflexivity | symmetry; apply Hid]. }
  rewrite H1. clear H1.
  set (p1 := fun sg => negb active_only || ArbitrageSignal.is_active sg).
  set (p2 := fun sg : ArbitrageSignal.t =>
               match direction with
               | Some d => String.eqb d EmptyString
                           || String.eqb (ArbitrageSignal.direction sg) d
               | None => true
               end).
  assert (H2 : match direction with
               | Some d =>
                   if String.eqb d EmptyString then filter p1 rows
                   else filter (fun sg => String.eqb (ArbitrageSignal.direction sg) d)
                               (filter p1 rows)
               | None => filter p1 rows
               end = filter p2 (filter p1 rows)).
  { unfold p2. destruct direction as [d|]; [|symmetry; apply Hid].
    destruct (String.eqb d EmptyString); simpl;
      [symmetry; apply Hid | reflexivity]. }
  rewrite H2. clear H2.
  set (p3 := fun sg : ArbitrageSignal.t =>
               match min_roi with
               | Some r => Qleb r (ArbitrageSignal.roi_pct sg)
               | None => true
               end).
  assert (H3 : match min_roi with
               | Some r => filter (fun sg => Qleb r (ArbitrageSignal.roi_pct sg))
                                  (filter p2 (filter p1 rows))
               | None => filter p2 (filter p1 rows)
               end = filter p3 (filter p2 (filter p1 rows))).
  { unfold p3. destruct min_roi; [reflexivity | symmetry; apply Hid]. }
  rewrite H3, !Hcomp. apply filter_ext. intros sg.
  unfold passes_filters, p1, p2, p3. rewrite ?andb_assoc. reflexivity.
Qed.

Lemma sorted_app_below (l1 l2 : list ArbitrageSignal.t) :
  StronglySorted roi_desc (l1 ++ l2) ->
  forall a b, In a l1 -> In b l2 -> roi_desc a b.
Proof.
  induction l1 as [|x l1 IH]; simpl; intros Hs a b Ha Hb; [contradiction|].
  inversion Hs as [|? ? Hrest Hall]; subst.
  destruct Ha as [<- | Ha].
  - apply (proj1 (Forall_forall _ _) Hall). apply in_or_app. right. exact Hb.
  - apply IH; assumption.
Qed.

(** X6: the ranking query returns the best of the signals that pass its
    filters: together with the signals it leaves out, its result is a
    rearrangement of them; no signal left out has a higher ROI than a signal
    returned; and it returns [limit] of them, or all when they are fewer. *)
Theorem X6_ranking_returns_the_best
        (session : Session.t) (direction : option string)
        (min_roi : option Q) (limit : nat) (active_only : bool) :
  let result := get_top_signals session direction min_roi limit active_only in
  let candidates :=
    filter (passes_filters direction min_roi active_only)
           (Session.arbitrage_signals session) in
  exists left_out,
    Permutation candidates (result ++ left_out)
    /\ (forall r x, In r result -> In x left_out ->
          ArbitrageSignal.roi_pct x <= ArbitrageSignal.roi_pct r)
    /\ List.length result = Nat.min limit (List.length candidates).
Proof.
  intros result candidates. subst result. rewrite ranking_filters.
  fold candidates.
  exists (skipn limit (order_by_roi_desc candidates)).
  split; [rewrite firstn_skipn; apply order_by_roi_desc_perm|].
  split.
  - intros r x Hr Hx.
    apply (sorted_app_below (firstn limit (order_by_roi_desc candidates))
                            (skipn limit (order_by_roi_desc candidates)));
      [|assumption|assumption].
    rewrite firstn_skipn. apply order_by_roi_desc_sorted.
  - rewrite length_firstn.
    rewrite (Permutation_length (order_by_roi_desc_perm candidates)).
    reflexivity.
Qed.

(** X7: after a sweep of a session with nothing unflushed, a ranking of the
    active signals shows no signal created before the cutoff of the
    sweep. *)
Theorem X7_ranking_after_sweep
        (session : Session.t) (max_age_hours now : Z)
        (direction : option string) (min_roi : option Q) (limit : nat)
        (Hflushed : Session.new_signals session = []) :
  Forall (fun sg =>
            (now - timedelta_hours max_age_hours
             <= ArbitrageSignal.created_at sg)%Z)
         (get_top_signals
            (fst (deactivate_stale_signals session max_age_hours now))
            direction min_roi limit true).
Proof.
  apply Forall_forall. intros sg Hsg.
  apply get_top_signals_In in Hsg. destruct Hsg as (Hin & Hactive & _).
  specialize (Hactive eq_refl).
  destruct (sweep_signals session max_age_hours now) as (added & Hswept & Hadded).
  rewrite Hflushed in Hadded. inversion Hadded; subst.
  rewrite app_nil_r in Hswept. rewrite Hswept in Hin.
  apply in_map_iff in Hin. destruct Hin as (old & Hold & _).
  destruct (is_stale (now - timedelta_hours max_age_hours) old) eqn:E.
  - subst sg. simpl in Hactive. discriminate.
  - subst sg. unfold is_stale in E. rewrite Hactive in E. simpl in E.
    apply Z.ltb_ge in E. exact E.
Qed.

Lemma X7_ranking_after_sweep_witness :
  Forall (fun sg =>
            (example_snapshot_time + timedelta_hours 25 - timedelta_hours 24
             <= ArbitrageSignal.created_at sg)%Z)
         (get_top_signals
            (fst (deactivate_stale_signals
                    example_session_with_signal 24
                    (example_snapshot_time + timedelta_hours 25)))
            None None 20 true).
Proof.
  apply (X7_ranking_after_sweep
           example_session_with_signal 24
           (example_snapshot_time + timedelta_hours 25)
           None None 20).
  reflexivity.
Defined.

(* ------------------------------------------------------------------ *)
(** ** The staleness sweep, at any max age *)

Lemma sweep_active_count (cutoff : Z) (rows : list ArbitrageSignal.t) :
  (List.length
     (filter ArbitrageSignal.is_active
        (map (fun sg => if is_stale cutoff sg
                        then ArbitrageSignal.deactivate sg else sg) rows))
   + List.length (filter (is_stale cutoff) rows))%nat
  = List.length (filter ArbitrageSignal.is_active rows).
Proof.
  induction rows as [|sg rows IH]; simpl; [reflexivity|].
  destruct (is_stale cutoff sg) eqn:E; simpl.
  - apply is_stale_spec in E. destruct E as [Ea _]. rewrite Ea. simpl.
    rewrite <- IH. lia.
  - destruct (ArbitrageSignal.is_active sg); simpl; rewrite <- IH; lia.
Qed.

Lemma stale_monotone (c c' : Z) (rows : list ArbitrageSignal.t) :
  (c' <= c)%Z ->
  (List.length (filter (is_stale c') rows)
   <= List.length (filter (is_stale c) rows))%nat.
Proof.
  intros Hle. induction rows as [|sg rows IH]; simpl; [lia|].
  destruct (is_stale c' sg) eqn:E'.
  - assert (E : is_stale c sg = true).
    { apply is_stale_spec in E'. apply is_stale_spec.
      destruct E' as [Ha Hlt]. split; [exact Ha | lia]. }
    rewrite E. simpl. lia.
  - destruct (is_stale c sg); simpl; lia.
Qed.

(** X8: whatever the max age, a sweep of a session with nothing unflushed
    keeps every row in its place, changes at most the active flag of a row
    and never sets it, and lowers the number of active signals by exactly
    the number it returns; a larger max age deactivates no more signals
    than a smaller one. *)
Theorem X8_sweep_counts (session : Session.t) (max_age_hours now : Z)
        (Hflushed : Session.new_signals session = []) :
  let swept := fst (deactivate_stale_signals session max_age_hours now) in
  let count := snd (deactivate_stale_signals session max_age_hours now) in
  Forall2 (fun sg sg' =>
             same_but_active sg sg'
             /\ (ArbitrageSignal.is_active sg' = true -> sg' = sg))
          (Session.arbitrage_signals session)
          (Session.arbitrage_signals swept)
  /\ (List.length (filter ArbitrageSignal.is_active
                          (Session.arbitrage_signals swept)) + count)%nat
     = List.length (filter ArbitrageSignal.is_active
                           (Session.arbitrage_signals session))
  /\ (forall larger, (max_age_hours <= larger)%Z ->
        (snd (deactivate_stale_signals session larger now) <= count)%nat).
Proof.
  intros swept count.
  destruct (sweep_signals session max_age_hours now) as (added & Hswept & Hadded).
  fold swept in Hswept. rewrite Hflushed in Hadded. inversion Hadded; subst.
  rewrite app_nil_r in Hswept. rewrite Hswept.
  split; [|split].
  - clear Hswept. induction (Session.arbitrage_signals session) as [|sg rows IH];
      simpl; [constructor|].
    constructor; [|exact IH].
    destruct (is_stale (now - timedelta_hours max_age_hours) sg).
    + split; [apply deactivate_frame | discriminate].
    + split; [repeat split | reflexivity].
  - apply sweep_active_count.
  - intros larger Hle. subst count. simpl.
    apply stale_monotone. unfold timedelta_hours. lia.
Qed.

Lemma X8_sweep_counts_witness :
  (List.length
     (filter ArbitrageSignal.is_active
        (Session.arbitrage_signals
           (fst (deactivate_stale_signals
                   example_session_with_signal 24
                   (example_snapshot_time + timedelta_hours 25)))))
   + snd (deactivate_stale_signals
            example_session_with_signal 24
            (example_snapshot_time + timedelta_hours 25)))%nat
  = 1%nat.
Proof.
  destruct (X8_sweep_counts example_session_with_signal 24
                            (example_snapshot_time + timedelta_hours 25) eq_refl)
    as (_ & Hcount & _).
  exact Hcount.
Defined.

(* ------------------------------------------------------------------ *)
(** ** Market-B listings: deactivation *)

Lemma no_longer_listed_spec (ids : list string) (l : CSFloatListing.t) :
  no_longer_listed ids l = true <->
  CSFloatListing.is_active l = true /\ ~ In (CSFloatListing.csfloat_id l) ids.
Proof.
  unfold no_longer_listed.
  rewrite andb_true_iff, negb_true_iff, <- not_true_iff_false, mem_In.
  tauto.
Qed.

Lemma marked_listings (session : Session.t) (ids : list string) (now : Z) :
  Session.csfloat_listings (fst (mark_inactive_listings session ids now))
  = map (fun l => if no_longer_listed ids l then deactivate_listing l else l)
        (Session.csfloat_listings session).
Proof. reflexivity. Qed.

Lemma mark_twice (ids : list string) (rows : list CSFloatListing.t) :
  let step := fun l => if no_longer_listed ids l then deactivate_listing l else l in
  map step (map step rows) = map step rows
  /\ List.length (filter (no_longer_listed ids) (map step rows)) = 0%nat.
Proof.
  intros step.
  assert (Hdone : forall l, no_longer_listed ids (step l) = false).
  { intros l. unfold step.
    destruct (no_longer_listed ids l) eqn:E; [reflexivity | exact E]. }
  induction rows as [|l rows [IH1 IH2]]; simpl; [split; reflexivity|].
  rewrite (Hdone l). split; [|exact IH2].
  rewrite IH1. f_equal. unfold step at 1. rewrite (Hdone l). reflexivity.
Qed.

(** X9: [mark_inactive_listings] keeps every listing in its place and
    changes nothing but active flags: afterwards a listing is active
    exactly when it was active and its external id is in the set given; it
    returns the number of listings it deactivated, and marking again with
    the same set changes no listing and returns 0. *)
Theorem X9_mark_inactive_listings
        (session : Session.t) (active_listing_ids : list string) (now : Z) :
  let marked := fst (mark_inactive_listings session active_listing_ids now) in
  let count := snd (mark_inactive_listings session active_listing_ids now) in
  Forall2 (fun l l' =>
             same_listing_but_active l l'
             /\ (CSFloatListing.is_active l' = true <->
                 CSFloatListing.is_active l = true
                 /\ In (CSFloatListing.csfloat_id l) active_listing_ids))
          (Session.csfloat_listings session)
          (Session.csfloat_listings marked)
  /\ (List.length (filter CSFloatListing.is_active
                          (Session.csfloat_listings marked)) + count)%nat
     = List.length (filter CSFloatListing.is_active
                           (Session.csfloat_listings session))
  /\ (forall later,
        Session.csfloat_listings
          (fst (mark_inactive_listings marked active_listing_ids later))
        = Session.csfloat_listings marked
        /\ snd (mark_inactive_listings marked active_listing_ids later) = 0%nat).
Proof.
  intros marked count. subst marked count.
  rewrite marked_listings.
  set (step := fun l => if no_longer_listed active_listing_ids l
                        then deactivate_listing l else l).
  assert (Hdone : forall l, no_longer_listed active_listing_ids (step l) = false).
  { intros l. unfold step.
    destruct (no_longer_listed active_listing_ids l) eqn:E; [reflexivity|exact E]. }
  split; [|split].
  - induction (Session.csfloat_listings session) as [|l rows IH]; simpl;
      [constructor|].
    constructor; [|exact IH].
    unfold step. destruct (no_longer_listed active_listing_ids l) eqn:E.
    + split; [reflexivity|]. simpl.
      apply no_longer_listed_spec in E. destruct E as [Ha Hout].
      split; [discriminate | intros [_ Hin]; contradiction].
    + split; [reflexivity|].
      apply not_true_iff_false in E. rewrite no_longer_listed_spec in E.
      split.
      * intros Ha. split; [exact Ha|].
        destruct (in_dec string_dec (CSFloatListing.csfloat_id l)
                         active_listing_ids) as [Hin | Hout];
          [exact Hin | exfalso; apply E; split; assumption].
      * intros [Ha _]. exact Ha.
  - unfold mark_inactive_listings. cbn [snd].
    induction (Session.csfloat_listings session) as [|l rows IH]; simpl;
      [reflexivity|].
    unfold step at 1.
    destruct (no_longer_listed active_listing_ids l) eqn:E; simpl.
    + apply no_longer_listed_spec in E. destruct E as [Ea _]. rewrite Ea.
      simpl. rewrite <- IH. lia.
    + destruct (CSFloatListing.is_active l); simpl; rewrite <- IH; lia.
  - intros later.
    destruct (mark_twice active_listing_ids (Session.csfloat_listings session))
      as [Hmap Hcount].
    split.
    + rewrite !marked_listings. exact Hmap.
    + unfold mark_inactive_listings at 1. cbn [snd].
      rewrite marked_listings. exact Hcount.
Qed.

(* ------------------------------------------------------------------ *)
(** ** Market-B listings: the cheapest active listing of an item *)

Lemma insert_by_price_perm (x : CSFloatListing.t) (l : list CSFloatListing.t) :
  Permutation (x :: l) (insert_by_price x l).
Proof.
  induction l as [|y l IH]; simpl; [reflexivity|].
  destruct (CSFloatListing.price_cents x <=? CSFloatListing.price_cents y)%Z;
    [reflexivity|].
  rewrite perm_swap. apply perm_skip, IH.
Qed.

Lemma order_by_price_asc_perm (l : list CSFloatListing.t) :
  Permutation l (order_by_price_asc l).
Proof.
  induction l as [|x l IH]; simpl; [reflexivity|].
  rewrite <- insert_by_price_perm. apply perm_skip, IH.
Qed.

Lemma insert_by_price_sorted (x : CSFloatListing.t) (l : list CSFloatListing.t) :
  StronglySorted price_asc l -> StronglySorted price_asc (insert_by_price x l).
Proof.
  induction 1 as [|y l Hsorted IH Hall]; simpl.
  - constructor; constructor.
  - destruct (Z.leb_spec (CSFloatListing.price_cents x)
                         (CSFloatListing.price_cents y)) as [Hle | Hgt].
    + constructor; [constructor; assumption|].
      constructor; [exact Hle|].
      apply Forall_forall. intros w Hw. unfold price_asc.
      pose proof (proj1 (Forall_forall _ _) Hall w Hw) as Hyw.
      unfold price_asc in Hyw. lia.
    + constructor; [exact IH|].
      apply Forall_forall. intros w Hw.
      apply (Permutation_in _ (Permutation_sym (insert_by_price_perm x l))) in Hw.
      destruct Hw as [<- | Hw].
      * unfold price_asc. lia.
      * exact (proj1 (Forall_forall _ _) Hall w Hw).
Qed.

Lemma order_by_price_asc_sorted (l : list CSFloatListing.t) :
  StronglySorted price_asc (order_by_price_asc l).
Proof.
  induction l as [|x l IH]; simpl; [constructor|].
  apply insert_by_price_sorted, IH.
Qed.

Lemma active_listing_of_spec (name : string) (l : CSFloatListing.t) :
  active_listing_of name l = true <->
  CSFloatListing.market_hash_name l = name
  /\ CSFloatListing.is_active l = true.
Proof.
  unfold active_listing_of. rewrite andb_true_iff, String.eqb_eq. tauto.
Qed.

(** X10: [get_active_listings_for_item] returns the active listings of the
    key, each as often as the table holds it, by rising price;
    [get_lowest_csfloat_price] is the price of the first of them: the least
    price among the active listings of the key, and [None] exactly when the
    key has no active listing. *)
Theorem X10_active_listings_and_lowest_price
        (session : Session.t) (market_hash_name : string) :
  let listings := get_active_listings_for_item session market_hash_name in
  Permutation
    (filter (active_listing_of market_hash_name)
            (Session.csfloat_listings session)) listings
  /\ StronglySorted price_asc listings
  /\ (forall l, In l listings <->
        In l (Session.csfloat_listings session)
        /\ CSFloatListing.market_hash_name l = market_hash_name
        /\ CSFloatListing.is_active l = true)
  /\ get_lowest_csfloat_price session market_hash_name
     = option_map CSFloatListing.price_cents (hd_error listings)
  /\ (get_lowest_csfloat_price session market_hash_name = None <->
      forall l, In l (Session.csfloat_listings session) ->
                CSFloatListing.market_hash_name l = market_hash_name ->
                CSFloatListing.is_active l = false)
  /\ (forall p, get_lowest_csfloat_price session market_hash_name = Some p ->
        (exists l, In l listings /\ CSFloatListing.price_cents l = p)
        /\ forall l, In l listings -> (p <= CSFloatListing.price_cents l)%Z).
Proof.
  intros listings.
  assert (Hperm := order_by_price_asc_perm
                     (filter (active_listing_of market_hash_name)
                             (Session.csfloat_listings session))).
  assert (Hsorted := order_by_price_asc_sorted
                       (filter (active_listing_of market_hash_name)
                               (Session.csfloat_listings session))).
  fold (get_active_listings_for_item session market_hash_name) in Hperm, Hsorted.
  fold listings in Hperm, Hsorted.
  assert (Hin : forall l, In l listings <->
            In l (Session.csfloat_listings session)
            /\ CSFloatListing.market_hash_name l = market_hash_name
            /\ CSFloatListing.is_active l = true).
  { intros l. rewrite <- active_listing_of_spec, <- filter_In. split.
    - apply Permutation_in, Permutation_sym, Hperm.
    - apply Permutation_in, Hperm. }
  split; [exact Hperm|]. split; [exact Hsorted|]. split; [exact Hin|].
  unfold get_lowest_csfloat_price.
  fold (get_active_listings_for_item session market_hash_name). fold listings.
  split; [destruct listings; reflexivity|].
  split.
  - split.
    + intros Hnone l Hl Hname.
      destruct (CSFloatListing.is_active l) eqn:Ea; [|reflexivity].
      assert (Hlin : In l listings) by (apply Hin; auto).
      destruct listings; [contradiction | discriminate].
    + intros Hnone. destruct listings as [|l rest] eqn:E; [reflexivity|].
      assert (Hl : In l (l :: rest)) by (left; reflexivity).
      apply Hin in Hl. destruct Hl as (Hl & Hname & Ha).
      rewrite (Hnone l Hl Hname) in Ha. discriminate.
  - intros p Hp. destruct listings as [|l rest] eqn:E; [discriminate|].
    injection Hp as <-. split.
    + exists l. split; [left; reflexivity | reflexivity].
    + inversion Hsorted as [|? ? _ Hall]; subst.
      intros x [<- | Hx]; [lia|].
      exact (proj1 (Forall_forall _ _) Hall x Hx).
Qed.

(** The cheapest active listing of a key costs no more than any active
    listing of the key. *)
Lemma lowest_price_bound (session : Session.t) (l : CSFloatListing.t) :
  In l (Session.csfloat_listings session) ->
  CSFloatListing.is_active l = true ->
  exists p,
    get_lowest_csfloat_price session (CSFloatListing.market_hash_name l) = Some p
    /\ (p <= CSFloatListing.price_cents l)%Z.
Proof.
  intros Hin Ha.
  set (name := CSFloatListing.market_hash_name l).
  assert (Hl : In l (order_by_price_asc
                       (filter (active_listing_of name)
                               (Session.csfloat_listings session)))).
  { apply (Permutation_in _ (order_by_price_asc_perm _)).
    apply filter_In. split; [exact Hin|].
    apply active_listing_of_spec. split; [reflexivity | exact Ha]. }
  pose proof (order_by_price_asc_sorted
                (filter (active_listing_of name)
                        (Session.csfloat_listings session))) as Hsorted.
  unfold get_lowest_csfloat_price. fold name.
  destruct (order_by_price_asc _) as [|first rest]; [contradiction|].
  exists (CSFloatListing.price_cents first). split; [reflexivity|].
  inversion Hsorted as [|? ? _ Hall]; subst.
  destruct Hl as [<- | Hl]; [lia|].
  exact (proj1 (Forall_forall _ _) Hall l Hl).
Qed.

(* ------------------------------------------------------------------ *)
(** ** Market-B listings: upsert and lookup *)

Lemma find_update_first {A} (p : A -> bool) (f : A -> A) (rows : list A) :
  (forall x, p x = true -> p (f x) = true) ->
  find p (Session.update_first p f rows) = option_map f (find p rows).
Proof.
  intros Hp. induction rows as [|x rows IH]; simpl; [reflexivity|].
  destruct (p x) eqn:E; simpl.
  - rewrite (Hp x E). reflexivity.
  - rewrite E. exact IH.
Qed.

Lemma find_snoc {A} (p : A -> bool) (rows : list A) (x : A) :
  find p rows = None -> p x = true -> find p (rows ++ [x]) = Some x.
Proof.
  induction rows as [|y rows IH]; simpl; intros Hnone Hx.
  - rewrite Hx. reflexivity.
  - destruct (p y); [discriminate | apply IH; assumption].
Qed.

(** The listings of the session after an upsert. *)
Lemma upsert_csfloat_listing_table (session : Session.t)
      (listing_dto : CSFloatListingDTO.t) (now : Z) :
  let lookup :=
    fun r => String.eqb (CSFloatListing.csfloat_id r)
                        (CSFloatListingDTO.listing_id listing_dto) in
  match find lookup (Session.csfloat_listings session) with
  | Some existing =>
      upsert_csfloat_listing session listing_dto now
      = (Session.flush now
           (Session.with_listings
              (Session.update_first lookup (refresh_listing listing_dto now)
                 (Session.csfloat_listings session)) session),
         refresh_listing listing_dto now existing)
  | None =>
      upsert_csfloat_listing session listing_dto now
      = (Session.flush now
           (Session.with_listings
              (Session.csfloat_listings session
               ++ [new_listing listing_dto
                     (Session.next_id CSFloatListing.id
                                      (Session.csfloat_listings session)) now])
              session),
         new_listing listing_dto
           (Session.next_id CSFloatListing.id (Session.csfloat_listings session))
           now)
  end.
Proof.
  intros lookup. unfold upsert_csfloat_listing, Session.first. fold lookup.
  destruct (find lookup (Session.csfloat_listings session)); reflexivity.
Qed.

(** X11: after [upsert_csfloat_listing], the lookup by external id finds the
    row returned, which is active, was checked at the time of the call and
    carries the price, discount and liquidity indicators of the feed
    record.  A listing already stored keeps its id, its key, its first-seen
    time and its item attributes, whatever the feed record says, and the
    table keeps its length; otherwise one row is appended, under an id no
    row had.  No row of another external id changes, the key constraints of
    the table are kept, and the cheapest active listing of the row's key
    costs no more than the feed record says. *)
Theorem X11_upsert_round_trip (session : Session.t)
        (listing_dto : CSFloatListingDTO.t) (now : Z) :
  let lookup :=
    fun r => String.eqb (CSFloatListing.csfloat_id r)
                        (CSFloatListingDTO.listing_id listing_dto) in
  let session' := fst (upsert_csfloat_listing session listing_dto now) in
  let row := snd (upsert_csfloat_listing session listing_dto now) in
  Session.first lookup (Session.csfloat_listings session') = Some row
  /\ (CSFloatListing.csfloat_id row = CSFloatListingDTO.listing_id listing_dto
      /\ CSFloatListing.price_cents row = CSFloatListingDTO.price_cents listing_dto
      /\ CSFloatListing.discount row = CSFloatListingDTO.discount listing_dto
      /\ CSFloatListing.reference_quantity row
         = CSFloatListingDTO.reference_quantity listing_dto
      /\ CSFloatListing.watchers row = CSFloatListingDTO.watchers listing_dto
      /\ CSFloatListing.is_active row = true
      /\ CSFloatListing.last_checked_at row = now)
  /\ (forall existing,
        Session.first lookup (Session.csfloat_listings session) = Some existing ->
        CSFloatListing.id row = CSFloatListing.id existing
        /\ CSFloatListing.market_hash_name row
           = CSFloatListing.market_hash_name existing
        /\ CSFloatListing.seen_at row = CSFloatListing.seen_at existing
        /\ CSFloatListing.float_value row = CSFloatListing.float_value existing
        /\ CSFloatListing.wear_name row = CSFloatListing.wear_name existing
        /\ List.length (Session.csfloat_listings session')
           = List.length (Session.csfloat_listings session))
  /\ (Session.first lookup (Session.csfloat_listings session) = None ->
      Session.csfloat_listings session' = Session.csfloat_listings session ++ [row]
      /\ CSFloatListing.market_hash_name row
         = CSFloatListingDTO.market_hash_name listing_dto
      /\ CSFloatListing.seen_at row = now
      /\ ~ In (CSFloatListing.id row)
              (map CSFloatListing.id (Session.csfloat_listings session)))
  /\ (forall l, In l (Session.csfloat_listings session) ->
                CSFloatListing.csfloat_id l
                <> CSFloatListingDTO.listing_id listing_dto ->
                In l (Session.csfloat_listings session'))
  /\ (listing_table_ok (Session.csfloat_listings session) ->
      listing_table_ok (Session.csfloat_listings session'))
  /\ (exists p,
        get_lowest_csfloat_price session' (CSFloatListing.market_hash_name row)
        = Some p
        /\ (p <= CSFloatListingDTO.price_cents listing_dto)%Z).
Proof.
  intros lookup session' row.
  pose proof (upsert_csfloat_listing_spec session listing_dto now)
    as (Hcs & Hin & Hok & _ & _).
  fold session' row in Hcs, Hin, Hok.
  pose proof (upsert_csfloat_listing_table session listing_dto now) as Htable.
  cbv zeta in Htable. fold lookup in Htable. unfold Session.first.
  assert (Hlow : CSFloatListing.is_active row = true ->
                 CSFloatListing.price_cents row
                 = CSFloatListingDTO.price_cents listing_dto ->
                 exists p,
                   get_lowest_csfloat_price
                     session' (CSFloatListing.market_hash_name row) = Some p
                   /\ (p <= CSFloatListingDTO.price_cents listing_dto)%Z).
  { intros Ha Hprice.
    destruct (lowest_price_bound session' row Hin Ha) as (p & Hp & Hle).
    exists p. split; [exact Hp | lia]. }
  destruct (find lookup (Session.csfloat_listings session)) as [existing|] eqn:E.
  - assert (Hrow : row = refresh_listing listing_dto now existing)
      by (subst row; rewrite Htable; reflexivity).
    assert (Hrows : Session.csfloat_listings session'
                    = Session.update_first lookup (refresh_listing listing_dto now)
                        (Session.csfloat_listings session))
      by (subst session'; rewrite Htable; reflexivity).
    split.
    { rewrite Hrows, find_update_first, E, Hrow; [reflexivity|].
      intros x Hx. exact Hx. }
    split; [split; [exact Hcs | rewrite Hrow; repeat split]|].
    split.
    { intros ex [= <-]. rewrite Hrow, Hrows.
      repeat split. apply update_first_length. }
    split; [discriminate|].
    split.
    { intros l Hl Hne. rewrite Hrows.
      destruct (update_first_split lookup (refresh_listing listing_dto now) _ _ E)
        as (before & after & Hsplit & Hkey & _ & Hupd).
      rewrite Hupd. rewrite Hsplit in Hl.
      apply in_app_or in Hl. apply in_or_app.
      destruct Hl as [Hl | [<- | Hl]]; [left; exact Hl | | right; right; exact Hl].
      exfalso. apply Hne. apply String.eqb_eq, Hkey. }
    split; [exact Hok|].
    apply Hlow; rewrite Hrow; reflexivity.
  - assert (Hrow : row = new_listing listing_dto
                           (Session.next_id CSFloatListing.id
                              (Session.csfloat_listings session)) now)
      by (subst row; rewrite Htable; reflexivity).
    assert (Hrows : Session.csfloat_listings session'
                    = Session.csfloat_listings session ++ [row])
      by (subst session'; rewrite Hrow, Htable; reflexivity).
    split.
    { rewrite Hrows. apply find_snoc; [exact E|].
      unfold lookup. rewrite Hcs. apply String.eqb_refl. }
    split; [split; [exact Hcs | rewrite Hrow; repeat split]|].
    split; [discriminate|].
    split.
    { intros _. split; [exact Hrows|]. rewrite Hrow.
      split; [reflexivity|]. split; [reflexivity|]. simpl.
      intros Hdup. apply in_map_iff in Hdup. destruct Hdup as (x & Hx & Hxin).
      pose proof (next_id_above CSFloatListing.id _ x Hxin). lia. }
    split.
    { intros l Hl _. rewrite Hrows. apply in_or_app. left. exact Hl. }
    split; [exact Hok|].
    apply Hlow; rewrite Hrow; reflexivity.
Qed.

(* ------------------------------------------------------------------ *)
(** ** Market-B listings: what an ingestion returns *)

Lemma upsert_csfloat_listing_row (session : Session.t)
      (listing_dto : CSFloatListingDTO.t) (now : Z) :
  let row := snd (upsert_csfloat_listing session listing_dto now) in
  CSFloatListing.csfloat_id row = CSFloatListingDTO.listing_id listing_dto
  /\ CSFloatListing.price_cents row = CSFloatListingDTO.price_cents listing_dto
  /\ CSFloatListing.is_active row = true.
Proof.
  unfold upsert_csfloat_listing, Session.first.
  destruct (find _ (Session.csfloat_listings session)) as [existing|] eqn:E;
    simpl; repeat split.
  apply find_some in E. apply String.eqb_eq, E.
Qed.

Lemma ingest_csfloat_loop_rows (config : Config.t) (clock : nat -> Z)
      (fetched : list CSFloatListingDTO.t) :
  forall (session : Session.t) (processed_ids : list string) (i : nat),
    let processed :=
      snd (ingest_csfloat_loop session config fetched processed_ids clock i) in
    Forall (fun row =>
              ~ In (CSFloatListing.csfloat_id row) processed_ids
              /\ CSFloatListing.is_active row = true
              /\ exists dto,
                   In dto fetched
                   /\ CSFloatListing.csfloat_id row
                      = CSFloatListingDTO.listing_id dto
                   /\ CSFloatListing.price_cents row
                      = CSFloatListingDTO.price_cents dto
                   /\ is_allowed_item_type
                        (CSFloatListingDTO.market_hash_name dto) config = true)
           processed
    /\ NoDup (map CSFloatListing.csfloat_id processed)
    /\ (List.length processed <= List.length fetched)%nat.
Proof.
  induction fetched as [|dto rest IH]; intros session processed_ids i; simpl.
  - split; [constructor|]. split; [constructor | lia].
  - assert (Hweaken : forall ids (rows : list CSFloatListing.t),
      (forall x, In x processed_ids -> In x ids) ->
      Forall (fun row =>
                ~ In (CSFloatListing.csfloat_id row) ids
                /\ CSFloatListing.is_active row = true
                /\ exists d, In d rest
                     /\ CSFloatListing.csfloat_id row = CSFloatListingDTO.listing_id d
                     /\ CSFloatListing.price_cents row = CSFloatListingDTO.price_cents d
                     /\ is_allowed_item_type
                          (CSFloatListingDTO.market_hash_name d) config = true)
             rows ->
      Forall (fun row =>
                ~ In (CSFloatListing.csfloat_id row) processed_ids
                /\ CSFloatListing.is_active row = true
                /\ exists d, In d (dto :: rest)
                     /\ CSFloatListing.csfloat_id row = CSFloatListingDTO.listing_id d
                     /\ CSFloatListing.price_cents row = CSFloatListingDTO.price_cents d
                     /\ is_allowed_item_type
                          (CSFloatListingDTO.market_hash_name d) config = true)
             rows).
    { intros ids rows Hsub Hrows. eapply Forall_impl; [|exact Hrows].
      intros row (Hnew & Ha & d & Hd & Hrest).
      split; [intros Hin; apply Hnew, Hsub, Hin|].
      split; [exact Ha|]. exists d. split; [right; exact Hd | exact Hrest]. }
    destruct (mem (CSFloatListingDTO.listing_id dto) processed_ids) eqn:Eseen.
    { destruct (IH session processed_ids (S i)) as (H1 & H2 & H3).
      split; [apply (Hweaken processed_ids); auto|]. split; [exact H2 | lia]. }
    destruct (is_allowed_item_type (CSFloatListingDTO.market_hash_name dto) config)
      eqn:Eallowed; simpl.
    + pose proof (upsert_csfloat_listing_row session dto (clock i)) as Hrow.
      destruct (upsert_csfloat_listing session dto (clock i))
        as [session1 listing].
      cbn [snd] in Hrow. destruct Hrow as (Hcs & Hprice & Hactive).
      specialize (IH session1 (CSFloatListingDTO.listing_id dto :: processed_ids)
                     (S i)).
      destruct (ingest_csfloat_loop session1 config rest
                  (CSFloatListingDTO.listing_id dto :: processed_ids) clock (S i))
        as [session2 processed].
      cbn [snd] in *. destruct IH as (H1 & H2 & H3).
      split.
      { constructor.
        - split.
          + rewrite Hcs. intros Hin. apply mem_In in Hin. congruence.
          + split; [exact Hactive|]. exists dto.
            split; [left; reflexivity | auto].
        - apply (Hweaken (CSFloatListingDTO.listing_id dto :: processed_ids));
            [intros x Hx; right; exact Hx | exact H1]. }
      split; [|simpl; lia].
      simpl. constructor; [|exact H2].
      intros Hdup. apply in_map_iff in Hdup. destruct Hdup as (r & Hr & Hrin).
      destruct (proj1 (Forall_forall _ _) H1 r Hrin) as [Hnew _].
      apply Hnew. left. congruence.
    + destruct (IH session (CSFloatListingDTO.listing_id dto :: processed_ids)
                   (S i)) as (H1 & H2 & H3).
      split.
      { apply (Hweaken (CSFloatListingDTO.listing_id dto :: processed_ids));
          [intros x Hx; right; exact Hx | exact H1]. }
      split; [exact H2 | lia].
Qed.

(** X12: the listings [ingest_csfloat_listings_once] returns are active
    rows, one per external id and at most one per fetched record; each
    carries the external id and the price of a fetched record whose item
    type is allowed.  On a table that keeps its key constraints, started
    with nothing unflushed, their ids are pairwise distinct and the signals
    of the store are left as they were. *)
Theorem X12_ingest_csfloat_listings_once
        (session : Session.t) (config : Config.t)
        (fetched : list CSFloatListingDTO.t) (clock : nat -> Z)
        (commit_time : Z) :
  let session' :=
    fst (ingest_csfloat_listings_once session config fetched clock commit_time) in
  let listings :=
    snd (ingest_csfloat_listings_once session config fetched clock commit_time) in
  Forall (fun row =>
            CSFloatListing.is_active row = true
            /\ exists dto,
                 In dto fetched
                 /\ CSFloatListing.csfloat_id row = CSFloatListingDTO.listing_id dto
                 /\ CSFloatListing.price_cents row = CSFloatListingDTO.price_cents dto
                 /\ is_allowed_item_type
                      (CSFloatListingDTO.market_hash_name dto) config = true)
         listings
  /\ NoDup (map CSFloatListing.csfloat_id listings)
  /\ (List.length listings <= List.length fetched)%nat
  /\ (listing_table_ok (Session.csfloat_listings session) ->
      Session.new_signals session = [] ->
      NoDup (map CSFloatListing.id listings)
      /\ Session.arbitrage_signals session' = Session.arbitrage_signals session).
Proof.
  intros session' listings.
  pose proof (ingest_csfloat_loop_rows config clock fetched session [] 0%nat)
    as Hrows.
  pose proof (ingest_csfloat_listings_once_spec
                session config fetched clock commit_time) as Hspec.
  fold session' listings in Hspec.
  subst session' listings. unfold ingest_csfloat_listings_once in *.
  destruct (ingest_csfloat_loop session config fetched [] clock 0)
    as [session1 processed].
  cbn [fst snd] in *. destruct Hrows as (H1 & H2 & H3).
  split.
  { eapply Forall_impl; [|exact H1]. intros row (_ & Ha & Hdto). auto. }
  split; [exact H2|]. split; [exact H3|].
  intros Hok Hflushed. destruct (Hspec Hok Hflushed) as (_ & Hsig & Hnodup).
  split; assumption.
Qed.

(* ------------------------------------------------------------------ *)
(** ** Market-A floors: a snapshot written is the floor read back *)

Lemma latest_snapshot_snoc (g : Z) (s s' : Session.t)
      (row : BuffPriceSnapshot.t) :
  Session.buff_price_snapshots s'
  = Session.buff_price_snapshots s ++ [row] ->
  (BuffPriceSnapshot.goods_id row <> g ->
   Session.latest_snapshot g s' = Session.latest_snapshot g s)
  /\ (BuffPriceSnapshot.goods_id row = g ->
      (forall old, In old (Session.buff_price_snapshots s) ->
         BuffPriceSnapshot.goods_id old = g ->
         (BuffPriceSnapshot.timestamp old < BuffPriceSnapshot.timestamp row)%Z) ->
      Session.latest_snapshot g s' = Some row).
Proof.
  intros Hrows. unfold Session.latest_snapshot. rewrite Hrows, fold_left_app.
  pose proof (latest_snapshot_fold g (Session.buff_price_snapshots s) None I)
    as Hfold.
  cbn [fold_left]. split.
  - intros Hother. apply Z.eqb_neq in Hother. rewrite Hother. reflexivity.
  - intros Hsame Hlater. rewrite (proj2 (Z.eqb_eq _ _) Hsame).
    destruct (fold_left _ (Session.buff_price_snapshots s) None) as [b|];
      [|reflexivity].
    destruct Hfold as (Hg & [Hin | Hin] & _); [|discriminate].
    specialize (Hlater b Hin Hg). apply Z.ltb_lt in Hlater.
    rewrite Hlater. reflexivity.
Qed.

(** X13: [create_price_snapshot] alone changes no floor a lookup reads (the
    session does not flush before a query).  Once committed at a time later
    than every stored snapshot of the goods id, in a session that held
    nothing else unflushed, the snapshot it returned is what both lookups
    of the floor give back: taken at the commit, with the overall minimum
    of the feed record, which is positive; the floors of all other goods
    ids are as before.  When it returns nothing, the commit stores
    nothing. *)
Theorem X13_floor_round_trip
        (session : Session.t) (item_dto : BuffItemDTO.t) (config : Config.t)
        (now : Z)
        (Hflushed : Session.new_snapshots session = [])
        (Hlater : forall old,
            In old (Session.buff_price_snapshots session) ->
            BuffPriceSnapshot.goods_id old = BuffItemDTO.goods_id item_dto ->
            (BuffPriceSnapshot.timestamp old < now)%Z) :
  let out := create_price_snapshot session item_dto config in
  let stored := Session.commit now (fst out) in
  (forall g, get_latest_buff_floor_by_goods_id (fst out) g
             = get_latest_buff_floor_by_goods_id session g)
  /\ (forall g, g <> BuffItemDTO.goods_id item_dto ->
        get_latest_buff_floor_by_goods_id stored g
        = get_latest_buff_floor_by_goods_id session g)
  /\ match snd out with
     | None =>
         Session.buff_price_snapshots stored
         = Session.buff_price_snapshots session
     | Some _ =>
         exists row,
           get_latest_buff_floor_by_goods_id stored
             (BuffItemDTO.goods_id item_dto) = Some row
           /\ BuffPriceSnapshot.timestamp row = now
           /\ BuffItemDTO.overall_min_price item_dto
              = Some (BuffPriceSnapshot.overall_min_price row)
           /\ 0 < BuffPriceSnapshot.overall_min_price row
           /\ BuffPriceSnapshot.stat_time row = BuffItemDTO.stat_time item_dto
           /\ ~ In (BuffPriceSnapshot.id row)
                   (map BuffPriceSnapshot.id
                        (Session.buff_price_snapshots session))
           /\ forall name item,
                item_by_name name session = Some item ->
                BuffItem.goods_id item = BuffItemDTO.goods_id item_dto ->
                get_latest_buff_floor stored name = Some row
     end.
Proof.
  intros out stored. subst out stored.
  unfold create_price_snapshot, get_latest_buff_floor_by_goods_id.
  destruct (BuffItemDTO.overall_min_price item_dto) as [overall_min|] eqn:Emin;
    cbn [fst snd].
  2:{ split; [reflexivity|]. unfold Session.commit, Session.flush.
      rewrite Hflushed. split; reflexivity. }
  destruct (Qleb overall_min 0) eqn:Epos; cbn [fst snd].
  { split; [reflexivity|]. unfold Session.commit, Session.flush.
    rewrite Hflushed. split; reflexivity. }
  set (snapshot := {| SnapshotInit.goods_id := BuffItemDTO.goods_id item_dto |}).
  set (row := {|
    BuffPriceSnapshot.id :=
      Session.next_id BuffPriceSnapshot.id (Session.buff_price_snapshots session);
    BuffPriceSnapshot.timestamp := now;
    BuffPriceSnapshot.goods_id := SnapshotInit.goods_id snapshot;
    BuffPriceSnapshot.overall_min_price := SnapshotInit.overall_min_price snapshot;
    BuffPriceSnapshot.tag_floors_json := SnapshotInit.tag_floors_json snapshot;
    BuffPriceSnapshot.stat_time := SnapshotInit.stat_time snapshot;
    BuffPriceSnapshot.within_target_range :=
      SnapshotInit.within_target_range snapshot |}).
  assert (Hrows :
    Session.buff_price_snapshots
      (Session.commit now (Session.add_snapshot snapshot session))
    = Session.buff_price_snapshots session ++ [row]).
  { unfold Session.commit, Session.flush, Session.add_snapshot.
    cbn [Session.buff_price_snapshots Session.new_snapshots].
    rewrite Hflushed. reflexivity. }
  destruct (latest_snapshot_snoc (BuffItemDTO.goods_id item_dto) session _ row Hrows)
    as [_ Hnew].
  specialize (Hnew eq_refl Hlater).
  split; [reflexivity|]. split.
  { intros g Hg.
    apply (proj1 (latest_snapshot_snoc g session _ row Hrows)).
    intros Heq. apply Hg. symmetry. exact Heq. }
  exists row. split; [exact Hnew|]. split; [reflexivity|].
  split; [reflexivity|]. split.
  { unfold Qleb in Epos. cbn [BuffPriceSnapshot.overall_min_price row
                               SnapshotInit.overall_min_price snapshot].
    destruct (overall_min ?= 0) eqn:E; try discriminate.
    apply Qgt_alt in E. exact E. }
  split; [reflexivity|]. split.
  { intros Hin. apply in_map_iff in Hin. destruct Hin as (old & Hid & Hold).
    pose proof (next_id_above BuffPriceSnapshot.id _ old Hold) as Habove.
    cbn [BuffPriceSnapshot.id row] in Hid. lia. }
  intros name item Hitem Hgoods. unfold get_latest_buff_floor.
  unfold item_by_name in Hitem.
  cbn [Session.buff_items Session.commit Session.flush Session.add_snapshot].
  rewrite Hitem, Hgoods. exact Hnew.
Qed.

Lemma X13_floor_round_trip_witness :
  exists row,
    get_latest_buff_floor_by_goods_id
      (Session.commit (example_snapshot_time + 1)
         (fst (create_price_snapshot example_session
                 {| BuffItemDTO.goods_id := 33912;
                    BuffItemDTO.market_hash_name := "AK-47 | Redline (Field-Tested)";
                    BuffItemDTO.update_time := None;
                    BuffItemDTO.stat_time := None;
                    BuffItemDTO.sales :=
                      [{| BuffSaleDTO.min_price := 990;
                          BuffSaleDTO.tag_id := None;
                          BuffSaleDTO.tag_name := None |}] |}
                 Config.default)))
      33912 = Some row
    /\ BuffPriceSnapshot.overall_min_price row = 990.
Proof.
  pose proof (X13_floor_round_trip example_session
                {| BuffItemDTO.goods_id := 33912;
                   BuffItemDTO.market_hash_name := "AK-47 | Redline (Field-Tested)";
                   BuffItemDTO.update_time := None;
                   BuffItemDTO.stat_time := None;
                   BuffItemDTO.sales :=
                     [{| BuffSaleDTO.min_price := 990;
                         BuffSaleDTO.tag_id := None;
                         BuffSaleDTO.tag_name := None |}] |}
                Config.default (example_snapshot_time + 1) eq_refl) as H.
  cbn zeta in H. destruct H as (_ & _ & row & Hrow & _ & Hmin & _).
  - intros old [<- | []] _. vm_compute. reflexivity.
  - exists row. split; [exact Hrow|]. injection Hmin as Hmin. symmetry. exact Hmin.
Defined.

(* ------------------------------------------------------------------ *)
(** ** Market-A floors: the per-tag prices of a snapshot *)

Lemma dict_get_set (d : list (string * Q)) (k k' : string) (v : Q) :
  dict_get (dict_set d k v) k'
  = if String.eqb k k' then Some v else dict_get d k'.
Proof.
  unfold dict_get. induction d as [|[k0 v0] d IH]; simpl.
  - destruct (String.eqb k k'); reflexivity.
  - destruct (String.eqb_spec k0 k) as [-> | Hk0]; simpl.
    + destruct (String.eqb k k'); reflexivity.
    + destruct (String.eqb_spec k0 k') as [-> | Hk']; [|exact IH].
      destruct (String.eqb_spec k k') as [-> | _]; [contradiction | reflexivity].
Qed.

Lemma dict_set_keys (d : list (string * Q)) (k : string) (v : Q) :
  NoDup (map fst d) -> NoDup (map fst (dict_set d k v))
  /\ forall k', In k' (map fst (dict_set d k v)) <-> k' = k \/ In k' (map fst d).
Proof.
  induction d as [|[k0 v0] d IH]; simpl; intros Hnodup.
  - split; [constructor; [intros [] | constructor]|]. intros k'. split.
    + intros [<- | []]. left. reflexivity.
    + intros [-> | []]. left. reflexivity.
  - inversion Hnodup as [|? ? Hfresh Hrest]; subst.
    destruct (String.eqb_spec k0 k) as [-> | Hk0]; simpl.
    + split; [exact Hnodup|]. intros k'. split; [auto|].
      intros [-> | H]; [left; reflexivity | exact H].
    + destruct (IH Hrest) as [Hn Hkeys]. split.
      * constructor; [|exact Hn]. intros Hin. apply Hkeys in Hin.
        destruct Hin as [Hin | Hin]; [congruence | contradiction].
      * intros k'. rewrite Hkeys. tauto.
Qed.

Lemma tag_floors_fold (sales : list BuffSaleDTO.t) :
  forall d : list (string * Q),
    NoDup (map fst d) -> ~ In EmptyString (map fst d) ->
    let step := fun tag_floors sale =>
                  match BuffSaleDTO.tag_name sale with
                  | Some name =>
                      if String.eqb name EmptyString then tag_floors
                      else dict_set tag_floors name (BuffSaleDTO.min_price sale)
                  | None => tag_floors
                  end in
    NoDup (map fst (fold_left step sales d))
    /\ ~ In EmptyString (map fst (fold_left step sales d))
    /\ (forall k, (forall sale, In sale sales -> ~ tagged k sale) ->
                  dict_get (fold_left step sales d) k = dict_get d k)
    /\ (forall k before sale after,
          sales = before ++ sale :: after ->
          tagged k sale -> k <> EmptyString ->
          (forall later, In later after -> ~ tagged k later) ->
          dict_get (fold_left step sales d) k
          = Some (BuffSaleDTO.min_price sale)).
Proof.
  induction sales as [|s sales IH]; intros d Hnodup Hempty step.
  - simpl. split; [exact Hnodup|]. split; [exact Hempty|].
    split; [reflexivity|]. intros k [|? ?] sale after E; discriminate.
  - cbn [fold_left].
    assert (Hstep : NoDup (map fst (step d s))
                    /\ ~ In EmptyString (map fst (step d s))
                    /\ (forall k, ~ tagged k s -> dict_get (step d s) k = dict_get d k)
                    /\ (forall k, tagged k s -> k <> EmptyString ->
                          dict_get (step d s) k = Some (BuffSaleDTO.min_price s))).
    { unfold step, tagged.
      destruct (BuffSaleDTO.tag_name s) as [name|].
      2:{ repeat split; auto. intros k Hk. discriminate. }
      destruct (String.eqb_spec name EmptyString) as [-> | Hname].
      { repeat split; auto. intros k [= <-] Hk. contradiction. }
      destruct (dict_set_keys d name (BuffSaleDTO.min_price s) Hnodup)
        as [Hn Hkeys].
      split; [exact Hn|]. split.
      { intros Hin. apply Hkeys in Hin. destruct Hin as [Hin | Hin];
          [congruence | contradiction]. }
      split.
      - intros k Hk. rewrite dict_get_set.
        destruct (String.eqb_spec name k) as [-> | _]; [|reflexivity].
        contradiction Hk. reflexivity.
      - intros k [= ->] _. rewrite dict_get_set, String.eqb_refl. reflexivity. }
    destruct Hstep as (Hn & He & Hkeep & Hput).
    destruct (IH (step d s) Hn He) as (H1 & H2 & H3 & H4).
    split; [exact H1|]. split; [exact H2|]. split.
    + intros k Hnone. transitivity (dict_get (step d s) k).
      * apply (H3 k). intros sale Hin. apply Hnone. right. exact Hin.
      * apply Hkeep, Hnone. left. reflexivity.
    + intros k before sale after E Hk Hne Hlast.
      destruct before as [|b before]; simpl in E; injection E as <- ->.
      * transitivity (dict_get (step d s) k);
          [apply (H3 k Hlast) | apply Hput; assumption].
      * apply (H4 k before sale after eq_refl Hk Hne Hlast).
Qed.

Lemma last_tagged_split (k : string) (sales : list BuffSaleDTO.t) :
  (exists sale, In sale sales /\ tagged k sale) ->
  exists before s after,
    sales = before ++ s :: after /\ tagged k s
    /\ forall later, In later after -> ~ tagged k later.
Proof.
  induction sales as [|s0 sales IH]; intros (sale & Hin & Ek);
    [contradiction|].
  destruct (existsb (fun s => option_eqb String.eqb
                                (BuffSaleDTO.tag_name s) (Some k)) sales)
    eqn:Elater.
  - apply existsb_exists in Elater. destruct Elater as (s1 & Hs1 & Etag).
    assert (Ht1 : tagged k s1).
    { unfold tagged, option_eqb in *.
      destruct (BuffSaleDTO.tag_name s1) as [k1|]; [|discriminate].
      apply String.eqb_eq in Etag. subst. reflexivity. }
    destruct (IH (ex_intro _ s1 (conj Hs1 Ht1)))
      as (before & s & after & E & Ht & Hl).
    exists (s0 :: before), s, after. rewrite E. auto.
  - assert (Hnone : forall later, In later sales -> ~ tagged k later).
    { intros later Hlater Htag.
      assert (existsb (fun s => option_eqb String.eqb
                                  (BuffSaleDTO.tag_name s) (Some k)) sales
              = true) as Hex.
      { apply existsb_exists. exists later. split; [exact Hlater|].
        unfold tagged in Htag. rewrite Htag. simpl. apply String.eqb_refl. }
      congruence. }
    destruct Hin as [Hin | Hin]; [|exfalso; exact (Hnone sale Hin Ek)].
    subst s0. exists [], sale, sales. auto.
Qed.

(** X14: the per-tag prices [create_price_snapshot] stores hold each tag
    once, never the empty tag, and under a tag the price of the LAST sale
    of the feed record carrying it, whether or not an earlier sale of the
    tag was cheaper; a tag no sale carries is absent.  The snapshot stores
    no per-tag prices at all exactly when no sale carries a non-empty
    tag. *)
Theorem X14_tag_floors_last_sale_wins (sales : list BuffSaleDTO.t) :
  NoDup (map fst (build_tag_floors sales))
  /\ dict_get (build_tag_floors sales) EmptyString = None
  /\ (forall k, (forall sale, In sale sales -> ~ tagged k sale) ->
                dict_get (build_tag_floors sales) k = None)
  /\ (forall k before sale after,
        sales = before ++ sale :: after ->
        tagged k sale -> k <> EmptyString ->
        (forall later, In later after -> ~ tagged k later) ->
        dict_get (build_tag_floors sales) k
        = Some (BuffSaleDTO.min_price sale))
  /\ (build_tag_floors sales = [] <->
      forall sale, In sale sales ->
        BuffSaleDTO.tag_name sale = None
        \/ BuffSaleDTO.tag_name sale = Some EmptyString)
  /\ (forall session item_dto config snapshot,
        BuffItemDTO.sales item_dto = sales ->
        snd (create_price_snapshot session item_dto config) = Some snapshot ->
        SnapshotInit.tag_floors_json snapshot
        = match build_tag_floors sales with
          | [] => None
          | _ :: _ => Some (build_tag_floors sales)
          end).
Proof.
  destruct (tag_floors_fold sales [] (NoDup_nil _) (fun H => H))
    as (Hnodup & Hempty & Hnone & Hlast).
  fold (build_tag_floors sales) in Hnodup, Hempty, Hnone, Hlast.
  assert (Habsent : forall d k, ~ In k (map fst d) -> dict_get d k = None).
  { intros d k. unfold dict_get. induction d as [|[k0 v0] d IH]; simpl;
      [reflexivity|]. intros Hk.
    destruct (String.eqb_spec k0 k) as [-> | _]; [|apply IH; tauto].
    contradiction Hk. left. reflexivity. }
  split; [exact Hnodup|]. split; [apply Habsent, Hempty|].
  split; [exact Hnone|]. split; [exact Hlast|]. split.
  - split.
    + intros Hnil sale Hin.
      destruct (BuffSaleDTO.tag_name sale) as [k|] eqn:Ek; [|left; reflexivity].
      right. destruct (String.eqb_spec k EmptyString) as [-> | Hk];
        [reflexivity|]. exfalso.
      assert (Hsome : exists v, dict_get (build_tag_floors sales) k = Some v).
      { clear Hnone Hnil Hnodup Hempty.
        destruct (last_tagged_split k sales (ex_intro _ sale (conj Hin Ek)))
          as (before & s & after & E & Ht & Hl).
        exists (BuffSaleDTO.min_price s).
        apply (Hlast k before s after E Ht Hk Hl). }
      destruct Hsome as [v Hv]. rewrite Hnil in Hv. discriminate.
    + intros Hfalsy. unfold build_tag_floors.
      clear Hnodup Hempty Hnone Hlast.
      assert (Hfold : forall d,
        fold_left
          (fun tag_floors sale =>
             match BuffSaleDTO.tag_name sale with
             | Some name =>
                 if String.eqb name EmptyString then tag_floors
                 else dict_set tag_floors name (BuffSaleDTO.min_price sale)
             | None => tag_floors
             end) sales d = d).
      { induction sales as [|s sales IH]; intros d; [reflexivity|].
        cbn [fold_left].
        destruct (Hfalsy s (or_introl eq_refl)) as [E | E]; rewrite E; simpl;
          apply IH; intros sale Hin; apply Hfalsy; right; exact Hin. }
      apply Hfold.
  - intros session item_dto config snapshot Hsales.
    unfold create_price_snapshot.
    destruct (BuffItemDTO.overall_min_price item_dto) as [m|];
      [|discriminate].
    destruct (Qleb m 0); [discriminate|]. cbn [snd]. intros [= <-].
    cbn [SnapshotInit.tag_floors_json]. rewrite Hsales.
    destruct (build_tag_floors sales); reflexivity.
Qed.

(* ------------------------------------------------------------------ *)
(** ** The classification filter: letter case and accessories *)

Lemma prefix_caseless (p : string) :
  Forall caseless (list_ascii_of_string p) ->
  forall s, String.prefix p (lower s) = String.prefix p s.
Proof.
  induction p as [|a p IH]; intros Hp s; [destruct s; reflexivity|].
  simpl in Hp. inversion Hp as [|? ? Ha Hrest]; subst.
  destruct s as [|b s]; simpl; [reflexivity|].
  destruct (ascii_dec a (lower_ascii b)) as [E | E];
    destruct (ascii_dec a b) as [E' | E'].
  - apply IH, Hrest.
  - exfalso. apply E'. symmetry. apply (proj2 Ha). symmetry. exact E.
  - exfalso. apply E. subst b. symmetry. apply (proj1 Ha).
  - reflexivity.
Qed.

Lemma contains_caseless (p : string) :
  Forall caseless (list_ascii_of_string p) ->
  forall s, contains p (lower s) = contains p s.
Proof.
  intros Hp s. induction s as [|c s IH].
  - reflexivity.
  - cbn [lower contains]. rewrite <- IH.
    rewrite <- (prefix_caseless p Hp (String c s)). reflexivity.
Qed.

Lemma caseless_separators :
  Forall caseless (list_ascii_of_string " | ")
  /\ Forall caseless (list_ascii_of_string "(").
Proof.
  assert (Hsp : caseless " "%char)
    by (split; [reflexivity|];
        intros [[] [] [] [] [] [] [] []]; vm_compute; congruence).
  assert (Hbar : caseless "|"%char)
    by (split; [reflexivity|];
        intros [[] [] [] [] [] [] [] []]; vm_compute; congruence).
  assert (Hpar : caseless "("%char)
    by (split; [reflexivity|];
        intros [[] [] [] [] [] [] [] []]; vm_compute; congruence).
  split; simpl; repeat (constructor; [assumption|]); constructor.
Qed.

(** X15: the classification filter does not see letter case: two names
    that agree once lowered get the same answer under every
    configuration, although the test of rule 9 reads the name as
    written. *)
Theorem X15_filter_ignores_letter_case
        (a b : string) (config : Config.t)
        (Hsame : lower a = lower b) :
  is_allowed_item_type a config = is_allowed_item_type b config.
Proof.
  destruct caseless_separators as [Hsep Hpar].
  unfold is_allowed_item_type.
  destruct (Config.allowed_item_types config) as [|t ts]; [reflexivity|].
  cbv zeta.
  rewrite <- (contains_caseless " | " Hsep a), <- (contains_caseless "(" Hpar a).
  rewrite <- (contains_caseless " | " Hsep b), <- (contains_caseless "(" Hpar b).
  rewrite Hsame. reflexivity.
Qed.

Lemma X15_filter_ignores_letter_case_witness :
  is_allowed_item_type "AK-47 | REDLINE (Field-Tested)" Config.default
  = is_allowed_item_type "ak-47 | Redline (field-tested)" Config.default.
Proof.
  apply (X15_filter_ignores_letter_case
           "AK-47 | REDLINE (Field-Tested)" "ak-47 | Redline (field-tested)"
           Config.default).
  reflexivity.
Defined.

(** X16: under an allowed set that is not empty and names none of the
    categories sticker, graffiti, patch, agent, music_kit, case and key
    (the default set is one), no name that, once lowered, shows a pattern
    of the rules 1-7 is allowed, in whatever letter case it is written and
    whatever else the name holds. *)
Theorem X16_accessories_are_excluded
        (name : string) (config : Config.t)
        (Hset : Config.allowed_item_types config <> [])
        (Hnone : forall c, In c accessory_categories ->
                           mem c (Config.allowed_item_types config) = false)
        (Hpattern : accessory_pattern (lower name) = true) :
  is_allowed_item_type name config = false.
Proof.
  unfold is_allowed_item_type.
  destruct (Config.allowed_item_types config) as [|t ts] eqn:Eallowed;
    [contradiction|].
  cbv zeta. unfold early_rules.
  assert (H1 := Hnone "sticker"%string). assert (H2 := Hnone "graffiti"%string).
  assert (H3 := Hnone "patch"%string). assert (H4 := Hnone "agent"%string).
  assert (H5 := Hnone "music_kit"%string). assert (H6 := Hnone "case"%string).
  assert (H7 := Hnone "key"%string).
  unfold accessory_categories in *.
  rewrite H1, H2, H3, H4, H5, H6, H7 by (simpl; tauto).
  clear H1 H2 H3 H4 H5 H6 H7 Hnone.
  unfold accessory_pattern in Hpattern.
  cbn [existsb].
  destruct (startswith "sticker |" (lower name)); [reflexivity|].
  destruct (contains "graffiti |" (lower name)); [reflexivity|].
  destruct (startswith "sealed graffiti" (lower name)); [reflexivity|].
  destruct (startswith "patch |" (lower name)); [reflexivity|].
  destruct (contains "agent |" (lower name)); [reflexivity|].
  destruct (contains "operator |" (lower name)); [reflexivity|].
  destruct (startswith "music kit |" (lower name)); [reflexivity|].
  destruct (endswith " case" (lower name)); [reflexivity|].
  destruct (endswith " key" (lower name)); [reflexivity|].
  cbn [orb] in Hpattern |- *.
  unfold skip_keywords in *. rewrite Hpattern. reflexivity.
Qed.

Lemma X16_accessories_are_excluded_witness :
  is_allowed_item_type "Sealed Graffiti | Recoil AK-47 (Juggler Green)"
                       Config.default = false.
Proof.
  apply (X16_accessories_are_excluded
           "Sealed Graffiti | Recoil AK-47 (Juggler Green)" Config.default).
  - discriminate.
  - intros c Hc. simpl in Hc.
    repeat (destruct Hc as [<- | Hc]; [reflexivity|]). contradiction.
  - reflexivity.
Defined.

(* ------------------------------------------------------------------ *)
(** ** Market-B listings: a batch with repeated external ids *)

Lemma find_update_first_apart {A} (p q : A -> bool) (f : A -> A)
      (rows : list A) :
  (forall x, p x = true -> q x = false /\ q (f x) = false) ->
  find q (Session.update_first p f rows) = find q rows.
Proof.
  intros Hapart. induction rows as [|x rows IH]; simpl; [reflexivity|].
  destruct (p x) eqn:E; simpl.
  - destruct (Hapart x E) as [-> ->]. reflexivity.
  - rewrite IH. reflexivity.
Qed.

Lemma find_snoc_apart {A} (q : A -> bool) (rows : list A) (x : A) :
  q x = false -> find q (rows ++ [x]) = find q rows.
Proof.
  intros Hx. induction rows as [|y rows IH]; simpl.
  - rewrite Hx. reflexivity.
  - destruct (q y); [reflexivity | exact IH].
Qed.

Lemma upsert_lookup (session : Session.t) (listing_dto : CSFloatListingDTO.t)
      (now : Z) :
  let out := upsert_csfloat_listing session listing_dto now in
  listing_by_external_id (CSFloatListingDTO.listing_id listing_dto) (fst out)
  = Some (snd out)
  /\ forall e, e <> CSFloatListingDTO.listing_id listing_dto ->
       listing_by_external_id e (fst out) = listing_by_external_id e session.
Proof.
  pose proof (upsert_csfloat_listing_table session listing_dto now) as Htable.
  cbv zeta in Htable. unfold listing_by_external_id, Session.first.
  set (lookup := fun r => String.eqb (CSFloatListing.csfloat_id r)
                            (CSFloatListingDTO.listing_id listing_dto)) in *.
  destruct (find lookup (Session.csfloat_listings session)) as [existing|]
    eqn:Efind; rewrite Htable; cbn [fst snd Session.flush Session.with_listings
                                     Session.csfloat_listings].
  - split.
    + rewrite find_update_first; [rewrite Efind; reflexivity|].
      intros x Hx. exact Hx.
    + intros e He. apply find_update_first_apart. intros x Hx.
      unfold lookup in Hx. apply String.eqb_eq in Hx.
      cbn [refresh_listing CSFloatListing.csfloat_id]. rewrite Hx.
      split; apply String.eqb_neq; congruence.
  - split.
    + apply find_snoc; [exact Efind|]. unfold lookup. simpl.
      apply String.eqb_refl.
    + intros e He. apply find_snoc_apart. simpl.
      apply String.eqb_neq. congruence.
Qed.

Lemma ingest_csfloat_loop_skips (config : Config.t) (clock : nat -> Z)
      (e : string) (fetched : list CSFloatListingDTO.t) :
  forall (session : Session.t) (processed_ids : list string) (i : nat),
    (forall d, In d fetched -> CSFloatListingDTO.listing_id d = e ->
               In e processed_ids) ->
    listing_by_external_id e
      (fst (ingest_csfloat_loop session config fetched processed_ids clock i))
    = listing_by_external_id e session.
Proof.
  induction fetched as [|dto rest IH]; intros session processed_ids i Hskip;
    [reflexivity|].
  cbn [ingest_csfloat_loop].
  assert (Hrest : forall ids, (forall x, In x processed_ids -> In x ids) ->
                    forall d, In d rest ->
                      CSFloatListingDTO.listing_id d = e -> In e ids).
  { intros ids Hsub d Hd Hid. apply Hsub, (Hskip d); [right; exact Hd | exact Hid]. }
  destruct (mem (CSFloatListingDTO.listing_id dto) processed_ids) eqn:Eseen.
  { apply IH, (Hrest processed_ids). auto. }
  assert (Hother : e <> CSFloatListingDTO.listing_id dto).
  { intros ->. specialize (Hskip dto (or_introl eq_refl) eq_refl).
    apply mem_In in Hskip. congruence. }
  destruct (is_allowed_item_type (CSFloatListingDTO.market_hash_name dto) config);
    cbn [negb].
  - destruct (upsert_lookup session dto (clock i)) as [_ Hkeep].
    specialize (Hkeep e Hother).
    destruct (upsert_csfloat_listing session dto (clock i)) as [session1 listing].
    cbn [fst] in Hkeep.
    specialize (IH session1 (CSFloatListingDTO.listing_id dto :: processed_ids)
                   (S i)).
    destruct (ingest_csfloat_loop session1 config rest
                (CSFloatListingDTO.listing_id dto :: processed_ids) clock (S i))
      as [session2 processed].
    cbn [fst] in *. rewrite IH; [exact Hkeep|].
    apply Hrest. intros x Hx. right. exact Hx.
  - apply IH, Hrest. intros x Hx. right. exact Hx.
Qed.

Lemma ingest_csfloat_loop_first (config : Config.t) (clock : nat -> Z)
      (dto : CSFloatListingDTO.t) (after : list CSFloatListingDTO.t) :
  forall (before : list CSFloatListingDTO.t) (session : Session.t)
         (processed_ids : list string) (i : nat),
    (forall d, In d before ->
       CSFloatListingDTO.listing_id d <> CSFloatListingDTO.listing_id dto) ->
    ~ In (CSFloatListingDTO.listing_id dto) processed_ids ->
    let out := ingest_csfloat_loop session config (before ++ dto :: after)
                                   processed_ids clock i in
    let found :=
      listing_by_external_id (CSFloatListingDTO.listing_id dto) (fst out) in
    if is_allowed_item_type (CSFloatListingDTO.market_hash_name dto) config
    then exists row,
           found = Some row /\ In row (snd out)
           /\ CSFloatListing.price_cents row = CSFloatListingDTO.price_cents dto
           /\ CSFloatListing.is_active row = true
           /\ CSFloatListing.last_checked_at row
              = clock (i + List.length before)%nat
    else found
         = listing_by_external_id (CSFloatListingDTO.listing_id dto) session.
Proof.
  induction before as [|b before IH]; intros session processed_ids i Hfirst Hnew.
  - cbn [app ingest_csfloat_loop List.length].
    destruct (mem (CSFloatListingDTO.listing_id dto) processed_ids) eqn:Eseen.
    { exfalso. apply Hnew, mem_In, Eseen. }
    assert (Hafter : forall d, In d after ->
              CSFloatListingDTO.listing_id d = CSFloatListingDTO.listing_id dto ->
              In (CSFloatListingDTO.listing_id dto)
                 (CSFloatListingDTO.listing_id dto :: processed_ids)).
    { intros d _ _. left. reflexivity. }
    destruct (is_allowed_item_type (CSFloatListingDTO.market_hash_name dto) config);
      cbn [negb].
    + destruct (upsert_lookup session dto (clock i)) as [Hfound _].
      pose proof (upsert_csfloat_listing_row session dto (clock i)) as Hrow.
      assert (Hchecked : CSFloatListing.last_checked_at
                           (snd (upsert_csfloat_listing session dto (clock i)))
                         = clock i).
      { pose proof (upsert_csfloat_listing_table session dto (clock i)) as Ht.
        cbv zeta in Ht.
        destruct (find _ (Session.csfloat_listings session)); rewrite Ht;
          reflexivity. }
      destruct (upsert_csfloat_listing session dto (clock i))
        as [session1 listing].
      cbn [fst snd] in Hfound, Hrow, Hchecked.
      pose proof (ingest_csfloat_loop_skips config clock
                    (CSFloatListingDTO.listing_id dto) after session1
                    (CSFloatListingDTO.listing_id dto :: processed_ids) (S i)
                    Hafter) as Hskip.
      destruct (ingest_csfloat_loop session1 config after
                  (CSFloatListingDTO.listing_id dto :: processed_ids) clock (S i))
        as [session2 processed].
      cbn [fst snd] in *. exists listing.
      split; [rewrite Hskip; exact Hfound|]. split; [left; reflexivity|].
      destruct Hrow as (_ & Hprice & Hactive).
      split; [exact Hprice|]. split; [exact Hactive|].
      rewrite Nat.add_0_r. exact Hchecked.
    + apply ingest_csfloat_loop_skips, Hafter.
  - cbn [app ingest_csfloat_loop List.length].
    assert (Hb : CSFloatListingDTO.listing_id b
                 <> CSFloatListingDTO.listing_id dto)
      by (apply Hfirst; left; reflexivity).
    assert (Hfirst' : forall d, In d before ->
              CSFloatListingDTO.listing_id d <> CSFloatListingDTO.listing_id dto)
      by (intros d Hd; apply Hfirst; right; exact Hd).
    assert (Hnew' : ~ In (CSFloatListingDTO.listing_id dto)
                         (CSFloatListingDTO.listing_id b :: processed_ids))
      by (intros [E | Hin]; [exact (Hb E) | exact (Hnew Hin)]).
    replace (i + S (List.length before))%nat
      with (S i + List.length before)%nat by lia.
    destruct (mem (CSFloatListingDTO.listing_id b) processed_ids).
    { apply (IH session processed_ids (S i) Hfirst' Hnew). }
    destruct (is_allowed_item_type (CSFloatListingDTO.market_hash_name b) config);
      cbn [negb].
    + destruct (upsert_lookup session b (clock i)) as [_ Hkeep].
      specialize (Hkeep _ (fun E => Hb (eq_sym E))).
      destruct (upsert_csfloat_listing session b (clock i))
        as [session1 listing].
      cbn [fst] in Hkeep.
      specialize (IH session1 (CSFloatListingDTO.listing_id b :: processed_ids)
                     (S i) Hfirst' Hnew').
      cbv zeta in IH.
      destruct (ingest_csfloat_loop session1 config (before ++ dto :: after)
                  (CSFloatListingDTO.listing_id b :: processed_ids) clock (S i))
        as [session2 processed].
      cbn [fst snd] in *.
      destruct (is_allowed_item_type
                  (CSFloatListingDTO.market_hash_name dto) config).
      * destruct IH as (row & H1 & H2 & H3).
        exists row. split; [exact H1|]. split; [right; exact H2 | exact H3].
      * rewrite IH. exact Hkeep.
    + apply (IH session (CSFloatListingDTO.listing_id b :: processed_ids)
                (S i) Hfirst' Hnew').
Qed.

(** X17: in a batch that holds an external id more than once, the FIRST
    record of the id decides.  When its item type is allowed, the listing
    of the id stored after [ingest_csfloat_listings_once] is active, was
    checked at the turn of that record, carries its price, whatever later
    records of the id say, and is among the listings returned; when its
    item type is not allowed, the stored listing of the id, if any, is as
    it was, even if a later record of the id has an allowed type.  The
    listing of an external id the batch does not hold is as it was. *)
Theorem X17_first_record_of_an_id_decides
        (session : Session.t) (config : Config.t) (clock : nat -> Z)
        (commit_time : Z)
        (before after : list CSFloatListingDTO.t) (dto : CSFloatListingDTO.t)
        (Hfirst : forall d, In d before ->
            CSFloatListingDTO.listing_id d <> CSFloatListingDTO.listing_id dto) :
  let fetched := before ++ dto :: after in
  let out := ingest_csfloat_listings_once
               session config fetched clock commit_time in
  let found :=
    listing_by_external_id (CSFloatListingDTO.listing_id dto) (fst out) in
  (if is_allowed_item_type (CSFloatListingDTO.market_hash_name dto) config
   then exists row,
          found = Some row /\ In row (snd out)
          /\ CSFloatListing.price_cents row = CSFloatListingDTO.price_cents dto
          /\ CSFloatListing.is_active row = true
          /\ CSFloatListing.last_checked_at row = clock (List.length before)
   else found
        = listing_by_external_id (CSFloatListingDTO.listing_id dto) session)
  /\ forall e, (forall d, In d fetched -> CSFloatListingDTO.listing_id d <> e) ->
       listing_by_external_id e (fst out) = listing_by_external_id e session.
Proof.
  intros fetched out found. subst fetched out found.
  unfold ingest_csfloat_listings_once.
  pose proof (ingest_csfloat_loop_first config clock dto after before session
                [] 0%nat Hfirst (fun H => H)) as Hloop.
  cbv zeta in Hloop.
  assert (Hother : forall e,
            (forall d, In d (before ++ dto :: after) ->
                       CSFloatListingDTO.listing_id d <> e) ->
            listing_by_external_id e
              (fst (ingest_csfloat_loop session config (before ++ dto :: after)
                                        [] clock 0))
            = listing_by_external_id e session).
  { intros e He. apply ingest_csfloat_loop_skips.
    intros d Hd Hid. exfalso. exact (He d Hd Hid). }
  destruct (ingest_csfloat_loop session config (before ++ dto :: after)
                                [] clock 0) as [session1 processed].
  cbn [fst snd] in *. split; [exact Hloop | exact Hother].
Qed.

Lemma X17_first_record_of_an_id_decides_witness :
  exists row,
    listing_by_external_id "890124"
      (fst (ingest_csfloat_listings_once example_session Config.default
              ([] ++ example_cheapest 9000 :: [example_cheapest 8000])
              (fun _ => (example_snapshot_time + 1)%Z)
              (example_snapshot_time + 2)%Z))
    = Some row
    /\ CSFloatListing.price_cents row = 9000%Z.
Proof.
  pose proof (X17_first_record_of_an_id_decides
                example_session Config.default
                (fun _ => (example_snapshot_time + 1)%Z)
                (example_snapshot_time + 2)%Z
                [] [example_cheapest 8000] (example_cheapest 9000)
                (fun d (H : In d []) => match H with end)) as [H _].
  destruct H as (row & Hfound & _ & Hprice & _).
  exists row. split; [exact Hfound | exact Hprice].
Defined.

(* ------------------------------------------------------------------ *)
(** ** The watch-list *)

Lemma mem_app_single (x y : string) (l : list string) :
  mem x (l ++ [y]) = mem x l || String.eqb x y.
Proof.
  unfold mem. rewrite existsb_app. simpl. rewrite orb_false_r. reflexivity.
Qed.

Lemma list_remove_count (x y : string) (l : list string) :
  count_occ string_dec (list_remove x l) y
  = if String.eqb y x then Nat.pred (count_occ string_dec l y)
    else count_occ string_dec l y.
Proof.
  induction l as [|z l IH]; simpl.
  - destruct (String.eqb y x); reflexivity.
  - destruct (String.eqb_spec z x) as [-> | Hz].
    + destruct (string_dec x y) as [-> | Hxy].
      * rewrite String.eqb_refl. reflexivity.
      * destruct (String.eqb_spec y x) as [-> | _];
          [contradiction | reflexivity].
    + simpl. destruct (string_dec z y) as [-> | Hzy].
      * destruct (String.eqb_spec y x) as [-> | _]; [contradiction|].
        rewrite IH. destruct (String.eqb_spec y x); [contradiction | reflexivity].
      * exact IH.
Qed.

Lemma mem_count (x : string) (l : list string) :
  mem x l = negb (count_occ string_dec l x =? 0)%nat.
Proof.
  induction l as [|y l IH]; simpl; [reflexivity|].
  destruct (string_dec y x) as [-> | Hyx].
  - rewrite String.eqb_refl. reflexivity.
  - destruct (String.eqb_spec x y) as [-> | _]; [contradiction | exact IH].
Qed.

Lemma NoDup_count (l : list string) :
  NoDup l <-> forall x, (count_occ string_dec l x <= 1)%nat.
Proof. apply NoDup_count_occ. Qed.

(** X18: the operations of the watch-list.  After [add] the name is on the
    list, once more than before exactly when it was absent, so adding
    twice is adding once and a list without repeated names stays so.
    [remove] returns whether the name was on the list and takes away ONE
    occurrence of it, the first: on a list without repeated names the name
    is gone afterwards, on a list that repeats it the name is still there.
    Neither changes how often another name occurs, and nothing is on a
    cleared list. *)
Theorem X18_watchlist_operations (w : Watchlist.t) (name : string) :
  Watchlist.contains (Watchlist.add w name) name = true
  /\ Watchlist.add (Watchlist.add w name) name = Watchlist.add w name
  /\ (NoDup (Watchlist.items w) ->
      NoDup (Watchlist.items (Watchlist.add w name)))
  /\ Watchlist.__len__ (Watchlist.add w name)
     = (if Watchlist.contains w name then Watchlist.__len__ w
        else S (Watchlist.__len__ w))
  /\ snd (Watchlist.remove w name) = Watchlist.contains w name
  /\ count_occ string_dec (Watchlist.items (fst (Watchlist.remove w name))) name
     = Nat.pred (count_occ string_dec (Watchlist.items w) name)
  /\ (NoDup (Watchlist.items w) ->
      Watchlist.contains (fst (Watchlist.remove w name)) name = false
      /\ NoDup (Watchlist.items (fst (Watchlist.remove w name))))
  /\ ((2 <= count_occ string_dec (Watchlist.items w) name)%nat ->
      Watchlist.contains (fst (Watchlist.remove w name)) name = true)
  /\ (forall other, other <> name ->
        count_occ string_dec (Watchlist.items (Watchlist.add w name)) other
        = count_occ string_dec (Watchlist.items w) other
        /\ count_occ string_dec
             (Watchlist.items (fst (Watchlist.remove w name))) other
           = count_occ string_dec (Watchlist.items w) other)
  /\ Watchlist.contains (Watchlist.clear w) name = false.
Proof.
  assert (Hremove : forall y,
    count_occ string_dec (Watchlist.items (fst (Watchlist.remove w name))) y
    = if String.eqb y name
      then Nat.pred (count_occ string_dec (Watchlist.items w) y)
      else count_occ string_dec (Watchlist.items w) y).
  { intros y. unfold Watchlist.remove.
    destruct (mem name (Watchlist.items w)) eqn:E; cbn [fst Watchlist.items].
    - apply list_remove_count.
    - destruct (String.eqb_spec y name) as [-> | _]; [|reflexivity].
      rewrite mem_count in E. apply negb_false_iff, Nat.eqb_eq in E.
      rewrite E. reflexivity. }
  assert (Hadd : forall y,
    count_occ string_dec (Watchlist.items (Watchlist.add w name)) y
    = if String.eqb y name
      then Nat.max 1 (count_occ string_dec (Watchlist.items w) y)
      else count_occ string_dec (Watchlist.items w) y).
  { intros y. unfold Watchlist.add.
    destruct (mem name (Watchlist.items w)) eqn:E; cbn [negb Watchlist.items].
    - destruct (String.eqb_spec y name) as [-> | _]; [|reflexivity].
      rewrite mem_count in E. apply negb_true_iff, Nat.eqb_neq in E. lia.
    - rewrite count_occ_app. simpl.
      destruct (string_dec name y) as [<- | Hy].
      + rewrite String.eqb_refl.
        rewrite mem_count in E. apply negb_false_iff, Nat.eqb_eq in E.
        rewrite E. reflexivity.
      + destruct (String.eqb_spec y name) as [-> | _]; [contradiction | lia]. }
  split.
  { unfold Watchlist.contains. rewrite mem_count, Hadd, String.eqb_refl.
    destruct (count_occ string_dec (Watchlist.items w) name); reflexivity. }
  split.
  { unfold Watchlist.add at 1.
    assert (Hin : mem name (Watchlist.items (Watchlist.add w name)) = true).
    { rewrite mem_count, Hadd, String.eqb_refl.
      destruct (count_occ string_dec (Watchlist.items w) name); reflexivity. }
    rewrite Hin. reflexivity. }
  split.
  { intros Hnodup. apply NoDup_count. intros x. rewrite Hadd.
    pose proof (proj1 (NoDup_count _) Hnodup x) as Hx.
    destruct (String.eqb x name); lia. }
  split.
  { unfold Watchlist.add, Watchlist.contains, Watchlist.__len__.
    destruct (mem name (Watchlist.items w)); cbn [negb Watchlist.items];
      [reflexivity|]. rewrite length_app. simpl. lia. }
  split.
  { unfold Watchlist.remove, Watchlist.contains.
    destruct (mem name (Watchlist.items w)); reflexivity. }
  split.
  { rewrite Hremove, String.eqb_refl. reflexivity. }
  split.
  { intros Hnodup. split.
    - unfold Watchlist.contains. rewrite mem_count, Hremove, String.eqb_refl.
      pose proof (proj1 (NoDup_count _) Hnodup name) as Hx.
      destruct (count_occ string_dec (Watchlist.items w) name) as [|[|n]];
        [reflexivity | reflexivity | lia].
    - apply NoDup_count. intros x. rewrite Hremove.
      pose proof (proj1 (NoDup_count _) Hnodup x) as Hx.
      destruct (String.eqb x name); lia. }
  split.
  { intros Htwice. unfold Watchlist.contains.
    rewrite mem_count, Hremove, String.eqb_refl.
    destruct (count_occ string_dec (Watchlist.items w) name) as [|[|n]];
      [lia | lia | reflexivity]. }
  split; [|reflexivity].
  intros other Hother. rewrite Hadd, Hremove.
  destruct (String.eqb_spec other name) as [-> | _];
    [contradiction | split; reflexivity].
Qed.

Lemma pass_B_keeps_one_active_per_name
      (session : Session.t) (config : Config.t) (watchlist : list string)
      (csfloat_client : string -> option CSFloatListingDTO.t)
      (commit_time : Z) :
  Session.new_signals session = [] ->
  NoDup watchlist ->
  one_active_per_name (Session.arbitrage_signals session) ->
  one_active_per_name
    (Session.arbitrage_signals
       (fst (compute_buff_to_csfloat_signals session config watchlist
                                             csfloat_client commit_time))).
Proof.
  intros Hflushed Hnodup Hinv. unfold compute_buff_to_csfloat_signals.
  pose proof (buff_to_csfloat_loop_counts config csfloat_client watchlist session)
    as [_ Hname].
  destruct (buff_to_csfloat_loop session config watchlist csfloat_client)
    as [session1 created].
  cbn [fst] in *. intros n. rewrite commit_signals_for_name.
  apply Hname; [exact Hnodup | |].
  - intros n'. unfold signals_for_name. rewrite Hflushed. simpl.
    rewrite Nat.add_0_r. apply Hinv.
  - intros n' _. rewrite Hflushed. reflexivity.
Qed.

(** X19: the watch-list a pass of direction B runs over.  A watch-list
    that holds a name is used as given; an EMPTY one is not: as when none
    is given, the default watch-list takes its place, which is the one of
    the file or, without a file, the 38 built-in names.  These are
    pairwise distinct and each passes the classification filter of the
    default configuration; so, started with nothing unflushed, a pass over
    them keeps at most one active signal per name. *)
Theorem X19_watchlist_of_a_pass
        (watchlist loaded : option Watchlist.t) :
  (forall w, watchlist = Some w -> Watchlist.items w <> [] ->
             watchlist_or_default watchlist loaded = w)
  /\ (forall w, watchlist = Some w -> Watchlist.items w = [] ->
                watchlist_or_default watchlist loaded
                = get_default_watchlist loaded)
  /\ watchlist_or_default (Some (Watchlist.clear (get_default_watchlist None)))
                          None
     = get_default_watchlist None
  /\ Watchlist.__len__ (get_default_watchlist None) = 38%nat
  /\ NoDup (Watchlist.items (get_default_watchlist None))
  /\ Forall (fun name => is_allowed_item_type name Config.default = true)
            (Watchlist.items (get_default_watchlist None))
  /\ forall session config csfloat_client commit_time,
       Session.new_signals session = [] ->
       one_active_per_name (Session.arbitrage_signals session) ->
       one_active_per_name
         (Session.arbitrage_signals
            (fst (compute_buff_to_csfloat_signals
                    session config
                    (Watchlist.items (watchlist_or_default None None))
                    csfloat_client commit_time))).
Proof.
  assert (Hdistinct : NoDup DEFAULT_WATCHLIST_ITEMS).
  { apply NoDup_count. intros x.
    destruct (in_dec string_dec x DEFAULT_WATCHLIST_ITEMS) as [Hin | Hout].
    - unfold DEFAULT_WATCHLIST_ITEMS in Hin. simpl in Hin.
      repeat (destruct Hin as [<- | Hin]; [vm_compute; lia|]). contradiction.
    - apply (count_occ_not_In string_dec) in Hout. lia. }
  split.
  { intros w -> Hitems. unfold watchlist_or_default, Watchlist.__len__.
    destruct (Watchlist.items w); [contradiction | reflexivity]. }
  split.
  { intros w -> Hitems. unfold watchlist_or_default, Watchlist.__len__.
    rewrite Hitems. reflexivity. }
  split; [reflexivity|]. split; [reflexivity|].
  split; [exact Hdistinct|]. split.
  { unfold get_default_watchlist, Watchlist.__init__, DEFAULT_WATCHLIST_ITEMS.
    cbn [Watchlist.items]. repeat (constructor; [vm_compute; reflexivity|]).
    constructor. }
  intros session config csfloat_client commit_time Hflushed Hinv.
  apply pass_B_keeps_one_active_per_name; assumption.
Qed.

(* ------------------------------------------------------------------ *)
(** ** The market-B client: pages of listings *)

Lemma fetch_pages_trace (request : Market) (min_price_cents : Z)
      (max_price_cents : option Z) (pages : nat) :
  forall (cursor : option string) (all_listings : list CSFloatListingDTO.t)
         (sent : list ListingsParams.t),
    let out := fetch_pages request min_price_cents max_price_cents pages
                           cursor all_listings sent in
    exists news,
      snd out = sent ++ news
      /\ fst out
         = all_listings ++ flat_map listings_of (responses request sent news)
      /\ (List.length news <= pages)%nat
      /\ ((0 < pages)%nat -> news <> [])
      /\ Forall (discounted_page_query min_price_cents max_price_cents) news
      /\ cursors_follow cursor news (responses request sent news)
      /\ Forall goes_on (removelast (responses request sent news))
      /\ ((List.length news < pages)%nat ->
          ~ goes_on (last (responses request sent news) None)).
Proof.
  induction pages as [|remaining IH]; intros cursor all_listings sent out.
  - exists []. subst out. simpl. rewrite !app_nil_r.
    repeat split; try constructor; lia.
  - subst out. cbn [fetch_pages fetch_listings].
    set (params := {| ListingsParams.type := "buy_now";
                      ListingsParams.cursor := if_str cursor |}).
    assert (Hquery : discounted_page_query min_price_cents max_price_cents params)
      by (repeat split).
    destruct (request sent params) as [[[|l listings] next_cursor]|] eqn:Eanswer.
    + exists [params]. cbn [fst snd responses flat_map removelast last
                             List.length cursors_follow].
      rewrite Eanswer. cbn [listings_of cursor_of app]. rewrite ?app_nil_r.
      split; [reflexivity|]. split; [reflexivity|]. split; [lia|].
      split; [discriminate|].
      split; [constructor; [exact Hquery | constructor]|].
      split; [split; [reflexivity | exact I]|]. split; [constructor|].
      intros _ [Hl _]. apply Hl. reflexivity.
    + destruct next_cursor as [c|].
      * specialize (IH (Some c) (all_listings ++ l :: listings)
                       (sent ++ [params])).
        cbv zeta in IH.
        destruct IH as (news & Hsent & Hall & Hlen & Hsome & Hq & Hc & Hgo & Hstop).
        exists (params :: news).
        cbn [responses flat_map List.length cursors_follow].
        rewrite Eanswer. cbn [listings_of cursor_of].
        split; [rewrite Hsent, <- app_assoc; reflexivity|].
        split; [rewrite Hall, <- app_assoc; reflexivity|].
        split; [lia|]. split; [discriminate|].
        split; [constructor; assumption|].
        split; [split; [reflexivity | exact Hc]|].
        destruct news as [|q news].
        -- cbn [responses removelast last]. split; [constructor|].
           intros Hshort. exfalso. simpl in Hshort.
           destruct remaining; [lia|]. apply Hsome; [lia | reflexivity].
        -- cbn [responses] in *. split.
           ++ change (Forall goes_on
                        (removelast
                           (Some (l :: listings, Some c)
                              :: request (sent ++ [params]) q
                              :: responses request ((sent ++ [params]) ++ [q])
                                           news))).
              cbn [removelast]. constructor; [|exact Hgo].
              split; discriminate.
           ++ intros Hshort. cbn [last]. apply Hstop. simpl in *. lia.
      * exists [params]. cbn [fst snd responses flat_map removelast last
                               List.length cursors_follow].
        rewrite Eanswer. cbn [listings_of cursor_of app]. rewrite ?app_nil_r.
        split; [reflexivity|]. split; [reflexivity|]. split; [lia|].
        split; [discriminate|].
        split; [constructor; [exact Hquery | constructor]|].
        split; [split; [reflexivity | exact I]|]. split; [constructor|].
        intros _ [_ Hc]. apply Hc. reflexivity.
    + exists [params]. cbn [fst snd responses flat_map removelast last
                             List.length cursors_follow].
      rewrite Eanswer. cbn [listings_of cursor_of app]. rewrite ?app_nil_r.
      split; [reflexivity|]. split; [reflexivity|]. split; [lia|].
      split; [discriminate|].
      split; [constructor; [exact Hquery | constructor]|].
      split; [split; [reflexivity | exact I]|]. split; [constructor|].
      intros _ [Hl _]. apply Hl. reflexivity.
Qed.

(** X20: [fetch_top_discounted_buy_now_listings] sends at most [pages]
    requests, none when [pages] is not positive; each asks for buy-now
    listings by highest discount, 50 a page, within the price bounds
    given; the first carries no cursor, each later one the cursor of the
    answer before it (none when that cursor is the empty string).  Every
    answer but the last held a listing and a cursor, and when fewer than
    [pages] requests were sent the last answer held no listing or no
    cursor, or the request failed.  The listings returned are those of
    the answers, in order, without those whose discount is missing or
    below [min_discount] when one is given; a failed request returns what
    the pages before it gave. *)
Theorem X20_pages_of_discounted_listings
        (request : Market) (sent : list ListingsParams.t)
        (min_price_cents : Z) (max_price_cents : option Z) (pages : Z)
        (min_discount : option Q) :
  let out := fetch_top_discounted_buy_now_listings
               request sent min_price_cents max_price_cents pages
               min_discount in
  exists news,
    snd out = sent ++ news
    /\ (Z.of_nat (List.length news) <= Z.max pages 0)%Z
    /\ ((0 < pages)%Z -> news <> [])
    /\ Forall (discounted_page_query min_price_cents max_price_cents) news
    /\ cursors_follow None news (responses request sent news)
    /\ Forall goes_on (removelast (responses request sent news))
    /\ ((Z.of_nat (List.length news) < pages)%Z ->
        ~ goes_on (last (responses request sent news) None))
    /\ fst out
       = match min_discount with
         | Some m =>
             filter (reaches_discount m)
                    (flat_map listings_of (responses request sent news))
         | None => flat_map listings_of (responses request sent news)
         end.
Proof.
  intros out. subst out. unfold fetch_top_discounted_buy_now_listings.
  destruct (fetch_pages_trace request min_price_cents max_price_cents
              (Z.to_nat pages) None [] sent)
    as (news & Hsent & Hall & Hlen & Hsome & Hq & Hc & Hgo & Hstop).
  destruct (fetch_pages request min_price_cents max_price_cents
              (Z.to_nat pages) None [] sent) as [all_listings sent'].
  cbn [fst snd] in *. exists news.
  split; [exact Hsent|]. split; [lia|]. split; [intros Hp; apply Hsome; lia|].
  split; [exact Hq|]. split; [exact Hc|]. split; [exact Hgo|].
  split; [intros Hshort; apply Hstop; lia|].
  rewrite Hall. destruct min_discount; reflexivity.
Qed.

(* ------------------------------------------------------------------ *)
(** ** Recording trades *)

Lemma update_first_marks {A} (p : A -> bool) (f : A -> A) (rows : list A) :
  Forall2 (fun a b => b = a \/ (p a = true /\ b = f a))
          rows (Session.update_first p f rows).
Proof.
  induction rows as [|x rows IH]; simpl; [constructor|].
  destruct (p x) eqn:E.
  - constructor; [right; split; [exact E | reflexivity]|].
    clear IH. induction rows; constructor; auto.
  - constructor; [left; reflexivity | exact IH].
Qed.

Lemma signal_of_trade_some (signal_id : option Z) (store : Store.t)
      (sg : ArbitrageSignal.t) :
  signal_of_trade signal_id store = Some sg ->
  signal_id = Some (ArbitrageSignal.id sg)
  /\ if_int signal_id = Some (ArbitrageSignal.id sg)
  /\ Session.first (fun x => (ArbitrageSignal.id x =? ArbitrageSignal.id sg)%Z)
                   (Session.arbitrage_signals (Store.session store))
     = Some sg.
Proof.
  unfold signal_of_trade, if_int. destruct signal_id as [n|]; [|discriminate].
  destruct (n =? 0)%Z eqn:En; [discriminate|]. intros Hsg.
  pose proof (find_some _ _ Hsg) as [_ Hid]. apply Z.eqb_eq in Hid.
  subst n. repeat split. exact Hsg.
Qed.

(** The trade [record-trade] constructs, and the database it commits. *)
Lemma record_trade_stores
      (store : Store.t) (direction buy_market : string)
      (sell_market : option string) (buy_price : Q) (sell_price : option Q)
      (item_name : option string) (signal_id : option Z)
      (note : option string) (now commit_time : Z) :
  let result := record_trade store direction buy_market sell_market buy_price
                             sell_price item_name signal_id note
                             now commit_time in
  let signal := signal_of_trade signal_id store in
  match direction_map direction,
        if_str (name_of_trade signal item_name) with
  | Some db_direction, Some name =>
      let trade := {|
        Trade.id := Session.next_id Trade.id (Store.trades store);
        Trade.signal_id := signal_id;
        Trade.market_hash_name := name;
        Trade.direction := db_direction;
        Trade.buy_market := buy_market;
        Trade.sell_market := sell_market;
        Trade.buy_price_usd := buy_price;
        Trade.sell_price_usd := sell_price;
        Trade.buy_time := commit_time;
        Trade.sell_time :=
          match if_float sell_price with
          | Some _ => Some now
          | None => None
          end;
        Trade.note := note
      |} in
      exists after,
        Store.trades after = Store.trades store ++ [trade]
        /\ same_markets (Store.session after) (Store.session store)
        /\ Session.arbitrage_signals (Store.session after)
           = match signal with
             | Some sg =>
                 Session.update_first
                   (fun x => (ArbitrageSignal.id x =? ArbitrageSignal.id sg)%Z)
                   mark_acted_on
                   (Session.arbitrage_signals (Store.session store))
             | None => Session.arbitrage_signals (Store.session store)
             end
        /\ ((result = Completed after
             /\ Trade.roi_pct trade <> ZeroDivisionError)
            \/ (result = Raised after
                /\ Trade.roi_pct trade = ZeroDivisionError))
  | _, _ => result = Exit 1 store
  end.
Proof.
  intros result signal. subst result signal.
  unfold record_trade, signal_of_trade, name_of_trade.
  destruct (direction_map direction) as [db_direction|]; [|reflexivity].
  cbv zeta.
  change (Session.arbitrage_signals (get_session (Store.session store)))
    with (Session.arbitrage_signals (Store.session store)).
  destruct (match if_int signal_id with
            | Some id =>
                Session.first (fun sg => (ArbitrageSignal.id sg =? id)%Z)
                  (Session.arbitrage_signals (Store.session store))
            | None => None
            end) as [sg|];
    (match goal with
     | |- context [if_str ?n] => destruct (if_str n) as [name|]
     end; [|reflexivity]);
    (match goal with
     | |- context [Trade.roi_pct ?t] => destruct (Trade.roi_pct t) eqn:Eroi
     end);
    (eexists; (split; [|split; [|split]]);
     [ | | | solve [left; split; [reflexivity | discriminate]
                   | right; split; reflexivity] ];
     [reflexivity | repeat split | reflexivity]).
Qed.

(** X21: the command [record-trade].  It ends by [Exit(1)], leaving the
    database as it was, exactly when the direction is neither
    "csfloat-to-buff" nor "buff-to-csfloat" or no name is known: the
    signal id is absent, zero or matches no signal and [--item] is absent
    or empty, or the signal has an empty name.  Otherwise it stores one
    more trade under a fresh id, bought at the time of the insert, named
    after the signal when the id matches one (whatever [--item] says) and
    after [--item] else, keeping the signal id even when it matches no
    signal; the matched signal is marked as acted on, active or not, and
    no other row of the engine's tables changes.  The trade has a sell
    time exactly when the sell price is given and not zero.  With a sell
    price and a buy price of 0 the command fails on the ROI it prints,
    after the trade is stored. *)
Theorem X21_record_trade
        (store : Store.t) (direction buy_market : string)
        (sell_market : option string) (buy_price : Q) (sell_price : option Q)
        (item_name : option string) (signal_id : option Z)
        (note : option string) (now commit_time : Z) :
  let result := record_trade store direction buy_market sell_market buy_price
                             sell_price item_name signal_id note
                             now commit_time in
  let signal := signal_of_trade signal_id store in
  (forall code s, result = Exit code s -> code = 1%Z /\ s = store)
  /\ ((exists code s, result = Exit code s)
      <-> direction_map direction = None
          \/ if_str (name_of_trade signal item_name) = None)
  /\ (forall s, stored result s ->
        exists trade,
          Store.trades s = Store.trades store ++ [trade]
          /\ ~ In (Trade.id trade) (map Trade.id (Store.trades store))
          /\ direction_map direction = Some (Trade.direction trade)
          /\ if_str (name_of_trade signal item_name)
             = Some (Trade.market_hash_name trade)
          /\ Trade.signal_id trade = signal_id
          /\ Trade.buy_market trade = buy_market
          /\ Trade.sell_market trade = sell_market
          /\ Trade.buy_price_usd trade = buy_price
          /\ Trade.sell_price_usd trade = sell_price
          /\ Trade.buy_time trade = commit_time
          /\ Trade.sell_time trade
             = match if_float sell_price with
               | Some _ => Some now
               | None => None
               end
          /\ Trade.note trade = note
          /\ same_markets (Store.session s) (Store.session store)
          /\ match signal with
             | Some sg =>
                 signal_of_trade signal_id s = Some (mark_acted_on sg)
                 /\ Forall2 (fun a b =>
                               b = a
                               \/ (Some (ArbitrageSignal.id a) = signal_id
                                   /\ b = mark_acted_on a))
                            (Session.arbitrage_signals (Store.session store))
                            (Session.arbitrage_signals (Store.session s))
             | None =>
                 Session.arbitrage_signals (Store.session s)
                 = Session.arbitrage_signals (Store.session store)
             end
          /\ (result = Raised s
              <-> sell_price <> None /\ buy_price == 0)).
Proof.
  intros result signal.
  pose proof (record_trade_stores store direction buy_market sell_market
                buy_price sell_price item_name signal_id note now commit_time)
    as Hspec.
  cbv zeta in Hspec. fold result signal in Hspec.
  destruct (direction_map direction) as [db_direction|].
  2:{ rewrite Hspec. split; [intros code s [= <- <-]; split; reflexivity|].
      split; [split; [left; reflexivity | intros _; eauto]|].
      intros s [H | H]; discriminate. }
  destruct (if_str (name_of_trade signal item_name)) as [name|].
  2:{ rewrite Hspec. split; [intros code s [= <- <-]; split; reflexivity|].
      split; [split; [right; reflexivity | intros _; eauto]|].
      intros s [H | H]; discriminate. }
  destruct Hspec as (after & Htrades & Hmarkets & Hsignals & Hresult).
  set (trade := {| Trade.id := Session.next_id Trade.id (Store.trades store);
                   Trade.note := note |}) in *.
  assert (Hroi : Trade.roi_pct trade = ZeroDivisionError
                 <-> sell_price <> None /\ buy_price == 0).
  { unfold Trade.roi_pct. cbn [trade Trade.sell_price_usd Trade.buy_price_usd].
    destruct sell_price as [p|].
    - destruct (Qeq_bool buy_price 0) eqn:Ez.
      + apply Qeq_bool_iff in Ez.
        split; [split; [discriminate | exact Ez] | reflexivity].
      + split; [discriminate|]. intros [_ Hz].
        apply Qeq_bool_iff in Hz. congruence.
    - split; [discriminate | intros [H _]; contradiction]. }
  assert (Hstored : forall s, stored result s -> s = after).
  { intros s [Hs | Hs]; destruct Hresult as [[Hr _] | [Hr _]]; congruence. }
  split.
  { intros code s Hs. destruct Hresult as [[Hr _] | [Hr _]]; congruence. }
  split.
  { split; [|intros [H | H]; discriminate].
    intros (code & s & Hs). destruct Hresult as [[Hr _] | [Hr _]]; congruence. }
  intros s Hs. apply Hstored in Hs. subst s. exists trade.
  split; [exact Htrades|]. split.
  { intros Hin. apply in_map_iff in Hin. destruct Hin as (old & Hid & Hold).
    pose proof (next_id_above Trade.id _ old Hold) as Habove.
    cbn [trade Trade.id] in Hid. lia. }
  do 10 (split; [reflexivity|]). split; [exact Hmarkets|]. split.
  - destruct signal as [sg|] eqn:Esignal; [|exact Hsignals].
    destruct (signal_of_trade_some signal_id store sg Esignal)
      as (Hid & Hint & Hfirst).
    split.
    + unfold signal_of_trade. rewrite Hint, Hsignals.
      unfold Session.first. rewrite find_update_first.
      * unfold Session.first in Hfirst. rewrite Hfirst. reflexivity.
      * intros x Hx. exact Hx.
    + rewrite Hsignals. eapply Forall2_impl; [|apply update_first_marks].
      intros a b [H | [Hp H]]; [left; exact H | right].
      split; [|exact H]. apply Z.eqb_eq in Hp. rewrite Hp, Hid. reflexivity.
  - split.
    + intros Hr. apply Hroi.
      destruct Hresult as [[Hc _] | [_ Hz]]; [congruence | exact Hz].
    + intros Hz. apply Hroi in Hz.
      destruct Hresult as [[_ Hn] | [Hr _]]; [contradiction | exact Hr].
Qed.

Lemma update_trade_stores
      (store : Store.t) (trade_id : Z) (sell_price : Q)
      (sell_market note : option string) (now commit_time : Z) :
  let result := update_trade store trade_id sell_price sell_market note
                             now commit_time in
  match trade_by_id trade_id store with
  | Some trade =>
      let closed := close_trade sell_price sell_market note now trade in
      exists after,
        Store.trades after
        = Session.update_first (fun t => (Trade.id t =? trade_id)%Z)
            (close_trade sell_price sell_market note now) (Store.trades store)
        /\ same_markets (Store.session after) (Store.session store)
        /\ Session.arbitrage_signals (Store.session after)
           = Session.arbitrage_signals (Store.session store)
        /\ ((result = Completed after
             /\ Trade.roi_pct closed <> ZeroDivisionError)
            \/ (result = Raised after
                /\ Trade.roi_pct closed = ZeroDivisionError))
  | None => result = Exit 1 store
  end.
Proof.
  intros result. subst result. unfold update_trade, trade_by_id.
  destruct (Session.first _ (Store.trades store)) as [trade|]; [|reflexivity].
  cbv zeta.
  destruct (Trade.roi_pct (close_trade sell_price sell_market note now trade))
    eqn:Eroi;
    (eexists; (split; [|split; [|split]]);
     [ | | | solve [left; split; [reflexivity | discriminate]
                   | right; split; reflexivity] ];
     [reflexivity | repeat split | reflexivity]).
Qed.

Lemma closed_trade_metrics (sell_price : Q) (sell_market note : option string)
      (now : Z) (trade : Trade.t) :
  let closed := close_trade sell_price sell_market note now trade in
  Trade.profit_usd closed = Some (sell_price - Trade.buy_price_usd trade)
  /\ Trade.hold_days closed
     = Some ((now - Trade.buy_time trade) / 86400000000)%Z
  /\ (Trade.roi_pct closed = ZeroDivisionError
      <-> Trade.buy_price_usd trade == 0)
  /\ (~ Trade.buy_price_usd trade == 0 ->
      Trade.roi_pct closed
      = Returns (Some ((sell_price - Trade.buy_price_usd trade)
                       / Trade.buy_price_usd trade))).
Proof.
  cbv zeta. unfold Trade.profit_usd, Trade.hold_days, Trade.roi_pct.
  cbn [close_trade Trade.sell_price_usd Trade.buy_price_usd Trade.sell_time
       Trade.buy_time].
  split; [reflexivity|]. split; [reflexivity|].
  destruct (Qeq_bool (Trade.buy_price_usd trade) 0) eqn:Ez.
  - apply Qeq_bool_iff in Ez. split; [tauto | contradiction].
  - assert (Hnz : ~ Trade.buy_price_usd trade == 0).
    { intros Hz. apply Qeq_bool_iff in Hz. congruence. }
    split; [split; [discriminate | contradiction] | reflexivity].
Qed.

(** X22: the command [update-trade].  It ends by [Exit(1)], leaving the
    database as it was, exactly when no trade has the id.  Otherwise the
    trade of the id gets the sell price and the time of the call as its
    sell time; its sell market and its note are replaced only by a value
    that is given and not empty; its id, signal, name, direction, buy
    market, buy price and buy time stay, and so do every other trade, the
    order of the table and the tables of the engine.  Its profit is then
    the sell price less the buy price and its hold time the whole days
    between buy time and the call.  With a buy price of 0 the command
    fails on the ROI it prints, after the update is stored. *)
Theorem X22_update_trade
        (store : Store.t) (trade_id : Z) (sell_price : Q)
        (sell_market note : option string) (now commit_time : Z) :
  let result := update_trade store trade_id sell_price sell_market note
                             now commit_time in
  (forall code s, result = Exit code s -> code = 1%Z /\ s = store)
  /\ ((exists code s, result = Exit code s)
      <-> trade_by_id trade_id store = None)
  /\ (forall s, stored result s ->
        exists trade closed,
          trade_by_id trade_id store = Some trade
          /\ trade_by_id trade_id s = Some closed
          /\ Trade.sell_price_usd closed = Some sell_price
          /\ Trade.sell_time closed = Some now
          /\ Trade.sell_market closed
             = match if_str sell_market with
               | Some m => Some m
               | None => Trade.sell_market trade
               end
          /\ Trade.note closed
             = match if_str note with
               | Some n => Some n
               | None => Trade.note trade
               end
          /\ Trade.id closed = trade_id
          /\ Trade.signal_id closed = Trade.signal_id trade
          /\ Trade.market_hash_name closed = Trade.market_hash_name trade
          /\ Trade.direction closed = Trade.direction trade
          /\ Trade.buy_market closed = Trade.buy_market trade
          /\ Trade.buy_price_usd closed = Trade.buy_price_usd trade
          /\ Trade.buy_time closed = Trade.buy_time trade
          /\ Forall2 (fun a b => b = a \/ Trade.id a = trade_id)
                     (Store.trades store) (Store.trades s)
          /\ map Trade.id (Store.trades s) = map Trade.id (Store.trades store)
          /\ same_markets (Store.session s) (Store.session store)
          /\ Session.arbitrage_signals (Store.session s)
             = Session.arbitrage_signals (Store.session store)
          /\ Trade.profit_usd closed
             = Some (sell_price - Trade.buy_price_usd trade)
          /\ Trade.hold_days closed
             = Some ((now - Trade.buy_time trade) / 86400000000)%Z
          /\ (result = Raised s <-> Trade.buy_price_usd trade == 0)
          /\ (~ Trade.buy_price_usd trade == 0 ->
              Trade.roi_pct closed
              = Returns (Some ((sell_price - Trade.buy_price_usd trade)
                               / Trade.buy_price_usd trade)))).
Proof.
  intros result.
  pose proof (update_trade_stores store trade_id sell_price sell_market note
                                  now commit_time) as Hspec.
  cbv zeta in Hspec. fold result in Hspec.
  destruct (trade_by_id trade_id store) as [trade|] eqn:Etrade.
  2:{ rewrite Hspec. split; [intros code s [= <- <-]; split; reflexivity|].
      split; [split; [reflexivity | intros _; eauto]|].
      intros s [H | H]; discriminate. }
  destruct Hspec as (after & Htrades & Hmarkets & Hsignals & Hresult).
  destruct (closed_trade_metrics sell_price sell_market note now trade)
    as (Hprofit & Hdays & Hzero & Hroi).
  pose proof (find_some _ _ Etrade) as [_ Hid]. apply Z.eqb_eq in Hid.
  split.
  { intros code s Hs. destruct Hresult as [[Hr _] | [Hr _]]; congruence. }
  split.
  { split; [|discriminate].
    intros (code & s & Hs). destruct Hresult as [[Hr _] | [Hr _]]; congruence. }
  intros s Hs.
  assert (s = after) as ->
    by (destruct Hs as [Hs | Hs]; destruct Hresult as [[Hr _] | [Hr _]];
        congruence).
  exists trade, (close_trade sell_price sell_market note now trade).
  split; [reflexivity|]. split.
  { unfold trade_by_id, Session.first in *. rewrite Htrades, find_update_first.
    - rewrite Etrade. reflexivity.
    - intros x Hx. exact Hx. }
  do 4 (split; [reflexivity|]). split; [exact Hid|].
  do 6 (split; [reflexivity|]). split.
  { rewrite Htrades. eapply Forall2_impl; [|apply update_first_marks].
    intros a b [H | [Hp _]]; [left; exact H | right].
    apply Z.eqb_eq in Hp. exact Hp. }
  split; [rewrite Htrades; apply update_first_keys; reflexivity|].
  split; [exact Hmarkets|]. split; [exact Hsignals|].
  split; [exact Hprofit|]. split; [exact Hdays|]. split; [|exact Hroi].
  split.
  - intros Hr. apply Hzero.
    destruct Hresult as [[Hc _] | [_ Hz]]; [congruence | exact Hz].
  - intros Hz. apply Hzero in Hz.
    destruct Hresult as [[_ Hn] | [Hr _]]; [contradiction | exact Hr].
Qed.

Lemma no_trade_of_id (trade_id : Z) (rows : list Trade.t) :
  (forall old, In old rows -> Trade.id old <> trade_id) ->
  find (fun t => (Trade.id t =? trade_id)%Z) rows = None.
Proof.
  induction rows as [|old rows IH]; intros Hnew; [reflexivity|].
  simpl. destruct (Z.eqb_spec (Trade.id old) trade_id) as [E | _].
  - exfalso. exact (Hnew old (or_introl eq_refl) E).
  - apply IH. intros o Ho. apply Hnew. right. exact Ho.
Qed.

(** X23: a trade recorded open and closed later.  With a known direction
    and a known name, [record-trade] without a sell price completes and
    stores an open trade: no ROI, no profit, no hold time.  Whatever else
    is recorded or updated in between is not at stake here: on the
    database it leaves, [update-trade] with the id of that trade finds it
    and stores the sale; the trade then shows the profit and, unless it
    was bought at 0, the ROI of the two prices, and as hold time the whole
    days from the insert of the trade to the update; the trade table has
    grown by this one trade. *)
Theorem X23_record_then_update
        (store : Store.t) (direction buy_market : string)
        (sell_market : option string) (buy_price : Q)
        (item_name : option string) (signal_id : option Z)
        (note : option string) (now commit_time : Z)
        (Hdirection : direction_map direction <> None)
        (Hname : if_str (name_of_trade (signal_of_trade signal_id store)
                                       item_name) <> None) :
  exists recorded trade,
    record_trade store direction buy_market sell_market buy_price None
                 item_name signal_id note now commit_time
    = Completed recorded
    /\ trade_by_id (Trade.id trade) recorded = Some trade
    /\ Trade.roi_pct trade = Returns None
    /\ Trade.profit_usd trade = None
    /\ Trade.hold_days trade = None
    /\ forall sell_price sold_at note' later commit_time',
         exists updated closed,
           stored (update_trade recorded (Trade.id trade) sell_price sold_at
                                note' later commit_time') updated
           /\ trade_by_id (Trade.id trade) updated = Some closed
           /\ Trade.profit_usd closed = Some (sell_price - buy_price)
           /\ (~ buy_price == 0 ->
               Trade.roi_pct closed
               = Returns (Some ((sell_price - buy_price) / buy_price)))
           /\ Trade.hold_days closed
              = Some ((later - commit_time) / 86400000000)%Z
           /\ List.length (Store.trades updated)
              = S (List.length (Store.trades store)).
Proof.
  pose proof (record_trade_stores store direction buy_market sell_market
                buy_price None item_name signal_id note now commit_time)
    as Hspec.
  cbv zeta in Hspec.
  destruct (direction_map direction) as [db_direction|]; [|contradiction].
  destruct (if_str (name_of_trade (signal_of_trade signal_id store) item_name))
    as [name|]; [|contradiction].
  destruct Hspec as (recorded & Htrades & _ & _ & Hresult).
  set (trade := {| Trade.id := Session.next_id Trade.id (Store.trades store);
                   Trade.note := note |}) in *.
  destruct Hresult as [[Hr _] | [_ Hz]]; [|discriminate Hz].
  assert (Hfound : trade_by_id (Trade.id trade) recorded = Some trade).
  { unfold trade_by_id, Session.first. rewrite Htrades. apply find_snoc.
    - apply no_trade_of_id. intros old Hold.
      pose proof (next_id_above Trade.id _ old Hold) as Habove.
      cbn [trade Trade.id]. lia.
    - apply Z.eqb_refl. }
  exists recorded, trade. split; [exact Hr|]. split; [exact Hfound|].
  do 3 (split; [reflexivity|]).
  intros sell_price sold_at note' later commit_time'.
  pose proof (update_trade_stores recorded (Trade.id trade) sell_price sold_at
                                  note' later commit_time') as Hupdate.
  cbv zeta in Hupdate. rewrite Hfound in Hupdate.
  destruct Hupdate as (updated & Hrows & _ & _ & Hresult).
  destruct (closed_trade_metrics sell_price sold_at note' later trade)
    as (Hprofit & Hdays & _ & Hroi).
  exists updated, (close_trade sell_price sold_at note' later trade).
  split; [destruct Hresult as [[H _] | [H _]]; [left | right]; exact H|].
  split.
  { unfold trade_by_id, Session.first in *. rewrite Hrows, find_update_first.
    - rewrite Hfound. reflexivity.
    - intros x Hx. exact Hx. }
  split; [exact Hprofit|]. split; [exact Hroi|]. split; [exact Hdays|].
  rewrite Hrows, update_first_length, Htrades, length_app. simpl. lia.
Qed.

Lemma X23_record_then_update_witness :
  exists recorded trade,
    record_trade {| Store.session := example_session; Store.trades := [] |}
                 "csfloat-to-buff" "csfloat" None 100 None
                 (Some "AK-47 | Redline (Field-Tested)"%string) None None
                 example_snapshot_time example_snapshot_time
    = Completed recorded
    /\ trade_by_id (Trade.id trade) recorded = Some trade
    /\ Trade.roi_pct trade = Returns None.
Proof.
  destruct (X23_record_then_update
              {| Store.session := example_session; Store.trades := [] |}
              "csfloat-to-buff" "csfloat" None 100
              (Some "AK-47 | Redline (Field-Tested)"%string) None None
              example_snapshot_time example_snapshot_time)
    as (recorded & trade & Hr & Hfound & Hroi & _).
  - discriminate.
  - discriminate.
  - exists recorded, trade. repeat split; assumption.
Defined.

(* ------------------------------------------------------------------ *)
(** ** The jobs of the bot keep the invariants *)

Lemma buff_to_csfloat_loop_listings (config : Config.t)
      (csfloat_client : string -> option CSFloatListingDTO.t)
      (items : list string) :
  forall session : Session.t,
    Session.csfloat_listings
      (fst (buff_to_csfloat_loop session config items csfloat_client))
    = Session.csfloat_listings session.
Proof.
  induction items as [|item items IH]; intros session; [reflexivity|].
  cbn [buff_to_csfloat_loop].
  assert (Hone : Session.csfloat_listings
                   (fst (_compute_buff_to_csfloat_signal session item config
                                                         csfloat_client))
                 = Session.csfloat_listings session).
  { destruct (compute_B_effect session item config csfloat_client)
      as [E | [(ex & cny & usd & price & roi & _ & E) | (init & _ & E & _)]];
      rewrite E; reflexivity. }
  destruct (_compute_buff_to_csfloat_signal session item config csfloat_client)
    as [session1 signal].
  specialize (IH session1).
  destruct (buff_to_csfloat_loop session1 config items csfloat_client)
    as [session2 created].
  cbn [fst] in *. rewrite IH. exact Hone.
Qed.

Lemma commit_keeps_listings (now : Z) (s : Session.t) :
  Session.csfloat_listings (Session.commit now s) = Session.csfloat_listings s.
Proof. reflexivity. Qed.

Lemma commit_nothing_new (now : Z) (s : Session.t) :
  Session.new_signals s = [] ->
  Session.arbitrage_signals (Session.commit now s) = Session.arbitrage_signals s.
Proof. intros H. apply (flush_nothing_new now s H). Qed.

Lemma run_csfloat_scan_keeps (store : Session.t) (config : Config.t)
      (fetched : list CSFloatListingDTO.t) (clock : ScanClock.t) :
  listing_table_ok (Session.csfloat_listings store) ->
  one_active_per_name (Session.arbitrage_signals store) ->
  listing_table_ok
    (Session.csfloat_listings (run_csfloat_scan store config fetched clock))
  /\ one_active_per_name
       (Session.arbitrage_signals (run_csfloat_scan store config fetched clock)).
Proof.
  intros Hok Hinv. unfold run_csfloat_scan. cbv zeta.
  set (session := get_session store).
  assert (Hflushed : Session.new_signals session = []) by reflexivity.
  change (one_active_per_name (Session.arbitrage_signals session)) in Hinv.
  change (listing_table_ok (Session.csfloat_listings session)) in Hok.
  unfold ingest_csfloat_listings_once.
  pose proof (ingest_csfloat_loop_spec config (ScanClock.ingest clock) fetched
                session [] 0%nat Hok Hflushed) as Hloop.
  destruct (ingest_csfloat_loop session config fetched [] (ScanClock.ingest clock) 0)
    as [session0 processed].
  cbn [fst snd] in Hloop. destruct Hloop as (Hok0 & Hflushed0 & Hsig0 & _).
  set (session1 := Session.commit (ScanClock.ingest_commit clock) session0).
  assert (Hok1 : listing_table_ok (Session.csfloat_listings session1))
    by exact Hok0.
  assert (Hflushed1 : Session.new_signals session1 = []) by reflexivity.
  assert (Hinv1 : one_active_per_name (Session.arbitrage_signals session1)).
  { unfold session1. rewrite (commit_nothing_new _ _ Hflushed0), Hsig0.
    exact Hinv. }
  clearbody session1. clear Hok0 Hflushed0 Hsig0.
  rewrite commit_keeps_listings.
  destruct processed as [|listing listings].
  - rewrite (commit_nothing_new _ _ Hflushed1). split; assumption.
  - pose proof (compute_pass_flushed
                  session1 config (Some (listing :: listings))
                  (ScanClock.compute clock) (ScanClock.compute_commit clock))
      as Hflushed2.
    rewrite (commit_nothing_new _ _ Hflushed2). clear Hflushed2.
    unfold compute_csfloat_to_buff_signals.
    pose proof (csfloat_to_buff_loop_accounting
                  config (ScanClock.compute clock) (listing :: listings)
                  session1 0%nat) as Hacc.
    pose proof (fun n => csfloat_to_buff_loop_counts_name
                  config (ScanClock.compute clock) (listing :: listings) n
                  session1 0%nat) as Hname.
    destruct (csfloat_to_buff_loop session1 config (listing :: listings)
                                   (ScanClock.compute clock) 0)
      as [session2 created].
    cbn [fst snd] in *. destruct Hacc as (_ & _ & (_ & _ & Hlist2) & _).
    split.
    + rewrite commit_keeps_listings, Hlist2. exact Hok1.
    + intros n. rewrite commit_signals_for_name, Hname.
      unfold signals_for_name. rewrite Hflushed1. simpl.
      rewrite Nat.add_0_r. apply Hinv1.
Qed.

Lemma run_buff_to_csfloat_scan_keeps
      (store : Session.t) (config : Config.t)
      (loaded loaded_again : option Watchlist.t)
      (csfloat_client : string -> option CSFloatListingDTO.t)
      (commit_time exit_commit : Z) :
  NoDup (Watchlist.items
           (watchlist_or_default (Some (get_default_watchlist loaded))
                                 loaded_again)) ->
  store_invariant store ->
  store_invariant
    (run_buff_to_csfloat_scan store config loaded loaded_again csfloat_client
                              commit_time exit_commit).
Proof.
  intros Hnodup (Hok & Hlisting & Hname).
  unfold run_buff_to_csfloat_scan. cbv zeta.
  set (items := Watchlist.items _) in *.
  set (session := get_session store).
  assert (Hflushed : Session.new_signals session = []) by reflexivity.
  pose proof (pass_B_keeps_one_active_per_name
                session config items csfloat_client commit_time
                Hflushed Hnodup Hname) as Hname'.
  unfold compute_buff_to_csfloat_signals in *.
  pose proof (buff_to_csfloat_loop_counts config csfloat_client items session)
    as [Hcount _].
  pose proof (buff_to_csfloat_loop_listings config csfloat_client items session)
    as Hlist.
  destruct (buff_to_csfloat_loop session config items csfloat_client)
    as [session1 created].
  cbn [fst] in *. unfold store_invariant.
  rewrite !commit_keeps_listings, Hlist.
  rewrite (commit_nothing_new exit_commit (Session.commit commit_time session1)
             eq_refl).
  split; [exact Hok|]. split; [|exact Hname'].
  intros L. rewrite commit_signals_for_listing, Hcount.
  unfold signals_for_listing. rewrite Hflushed. simpl.
  rewrite Nat.add_0_r. apply Hlisting.
Qed.

Lemma run_stale_cleanup_keeps (store : Session.t) (now exit_commit : Z) :
  store_invariant store ->
  store_invariant (run_stale_cleanup store now exit_commit).
Proof.
  intros (Hok & Hlisting & Hname).
  unfold run_stale_cleanup. cbv zeta.
  set (session := get_session store).
  destruct (sweep_signals session 24 now) as (added & Hswept & Hadded).
  change (Session.new_signals session) with (@nil SignalInit.t) in Hadded.
  inversion Hadded; subst. rewrite app_nil_r in Hswept.
  destruct (deactivate_stale_signals session 24 now) as [session1 count] eqn:E.
  assert (Hflushed1 : Session.new_signals session1 = []).
  { unfold deactivate_stale_signals in E. injection E as <- _. reflexivity. }
  assert (Hlist1 : Session.csfloat_listings session1
                   = Session.csfloat_listings store).
  { unfold deactivate_stale_signals in E. injection E as <- _. reflexivity. }
  cbn [fst] in Hswept. unfold store_invariant.
  rewrite commit_keeps_listings, Hlist1, (commit_nothing_new _ _ Hflushed1),
    Hswept.
  split; [exact Hok|]. split; intros key.
  - eapply Nat.le_trans; [apply sweep_filter_length | apply (Hlisting key)].
    intros sg. unfold existing_for_listing. simpl.
    rewrite andb_false_r. discriminate.
  - eapply Nat.le_trans; [apply sweep_filter_length | apply (Hname key)].
    intros sg. unfold existing_for_name. simpl.
    rewrite andb_false_r. discriminate.
Qed.

Lemma default_watchlist_distinct :
  NoDup (Watchlist.items
           (watchlist_or_default (Some (get_default_watchlist None)) None)).
Proof.
  change (NoDup DEFAULT_WATCHLIST_ITEMS).
  apply NoDup_count. intros x.
  destruct (in_dec string_dec x DEFAULT_WATCHLIST_ITEMS) as [Hin | Hout].
  - unfold DEFAULT_WATCHLIST_ITEMS in Hin. simpl in Hin.
    repeat (destruct Hin as [<- | Hin]; [vm_compute; lia|]). contradiction.
  - apply (count_occ_not_In string_dec) in Hout. lia.
Qed.

(** X24: the jobs of the bot keep the invariants of the store.  From a
    store in which the listing table keeps its keys and no listing and no
    name has more than one active signal (the empty store is one), any
    number of scans of market B, scans of direction B over watch-lists
    without repeated names and cleanups of stale signals, in any order,
    with whatever the markets answer, whatever the clock reads and
    whatever becomes of the tables of market A in between, leads to a
    store of which the same holds. *)
Theorem X24_bot_keeps_invariants
        (config : Config.t) (store store' : Session.t)
        (Hruns : bot_runs config store store')
        (Hinvariant : store_invariant store) :
  store_invariant store'.
Proof.
  induction Hruns as [store | store store1 store2 Hruns IH Hstep];
    [exact Hinvariant|].
  specialize (IH Hinvariant). clear Hruns Hinvariant.
  destruct Hstep as [s fetched clock
                    | s loaded loaded_again csfloat_client commit_time
                        exit_commit Hnodup
                    | s now exit_commit
                    | s items snapshots].
  - destruct IH as (Hok & Hlisting & Hname).
    destruct (run_csfloat_scan_keeps s config fetched clock Hok Hname)
      as [Hok' Hname'].
    split; [exact Hok'|]. split; [|exact Hname'].
    apply run_csfloat_scan_keeps_one_active; assumption.
  - apply run_buff_to_csfloat_scan_keeps; assumption.
  - apply run_stale_cleanup_keeps; assumption.
  - exact IH.
Qed.

Lemma X24_bot_keeps_invariants_witness :
  store_invariant
    (run_stale_cleanup
       (run_buff_to_csfloat_scan
          (run_csfloat_scan empty_store Config.default
             [example_cheapest 9000] (still_clock example_snapshot_time))
          Config.default None None (example_client 9000)
          example_snapshot_time example_snapshot_time)
       example_snapshot_time example_snapshot_time).
Proof.
  apply (X24_bot_keeps_invariants Config.default empty_store).
  - eapply runs_more; [eapply runs_more; [eapply runs_more; [apply runs_none|]|]|].
    + apply step_csfloat_scan.
    + apply step_buff_to_csfloat_scan.
      apply default_watchlist_distinct.
    + apply step_stale_cleanup.
  - split; [split; constructor|]. split; intros key; simpl; lia.
Defined.

(* ------------------------------------------------------------------ *)
(** ** What the dashboard and [list-opps] show *)




(* ------------------------------------------------------------------ *)
(** ** Names of items: weapon, skin and wear *)

Local Open Scope string_scope.





























Local Close Scope string_scope.

(* ------------------------------------------------------------------ *)
(** ** Direction A: a pass signals what is profitable *)










(* ------------------------------------------------------------------ *)
(** ** The scheduled scan signals what is profitable *)





(* ------------------------------------------------------------------ *)
(** ** Market-A items: seen again, or new and not flushed *)

(** X29: [upsert_buff_item].  An item whose goods id is stored is only
    seen again: its row gets the time of the call as last-seen time and
    keeps everything else, its name and its parts too, whatever name the
    feed record carries; no other row changes and nothing is added.  An
    item whose goods id is not stored is handed to the session with the
    goods id and the name of the feed record and the parts
    [parse_item_name] finds in the name, and is not flushed: the table is
    as it was, the lookup by goods id still finds nothing, and a second
    upsert of the same record in the same session hands a second, equal
    item to the session. *)
Theorem X29_upsert_buff_item
        (s : ItemSession.t) (item_dto : BuffItemDTO.t) (now : Z) :
  let out := upsert_buff_item s item_dto now in
  let goods_id := BuffItemDTO.goods_id item_dto in
  match item_by_goods_id goods_id s with
  | Some existing =>
      exists row,
        snd out = ExistingItem row
        /\ item_by_goods_id goods_id (fst out) = Some row
        /\ BuffItem.last_seen_at row = now
        /\ BuffItem.id row = BuffItem.id existing
        /\ BuffItem.goods_id row = goods_id
        /\ BuffItem.market_hash_name row = BuffItem.market_hash_name existing
        /\ BuffItem.weapon row = BuffItem.weapon existing
        /\ BuffItem.skin_name row = BuffItem.skin_name existing
        /\ BuffItem.wear row = BuffItem.wear existing
        /\ BuffItem.first_seen_at row = BuffItem.first_seen_at existing
        /\ ItemSession.new_items (fst out) = ItemSession.new_items s
        /\ Forall2 (fun a b => b = a \/ (BuffItem.goods_id a = goods_id
                                         /\ b = seen_again now a))
                   (Session.buff_items (ItemSession.session s))
                   (Session.buff_items (ItemSession.session (fst out)))
  | None =>
      exists item,
        snd out = NewItem item
        /\ ItemSession.new_items (fst out) = ItemSession.new_items s ++ [item]
        /\ ItemSession.session (fst out) = ItemSession.session s
        /\ item_by_goods_id goods_id (fst out) = None
        /\ BuffItemInit.goods_id item = goods_id
        /\ BuffItemInit.market_hash_name item
           = BuffItemDTO.market_hash_name item_dto
        /\ (BuffItemInit.weapon item, BuffItemInit.skin_name item,
            BuffItemInit.wear item)
           = parse_item_name (BuffItemDTO.market_hash_name item_dto)
        /\ forall later,
             ItemSession.new_items
               (fst (upsert_buff_item (fst out) item_dto later))
             = ItemSession.new_items s ++ [item; item]
  end.
Proof.
  intros out goods_id. subst out goods_id.
  unfold upsert_buff_item, item_by_goods_id.
  destruct (Session.first _ (Session.buff_items (ItemSession.session s)))
    as [existing|] eqn:Efind.
  - exists (seen_again now existing). cbn [fst snd].
    pose proof (find_some _ _ Efind) as [_ Hid]. apply Z.eqb_eq in Hid.
    split; [reflexivity|]. split.
    { cbn [ItemSession.session with_items Session.buff_items].
      unfold Session.first in *. rewrite find_update_first.
      - rewrite Efind. reflexivity.
      - intros x Hx. exact Hx. }
    split; [reflexivity|]. split; [reflexivity|]. split; [exact Hid|].
    do 6 (split; [reflexivity|]).
    cbn [ItemSession.session with_items Session.buff_items].
    eapply Forall2_impl; [|apply update_first_marks].
    intros a b [H | [Hp H]]; [left; exact H | right].
    split; [apply Z.eqb_eq, Hp | exact H].
  - destruct (parse_item_name (BuffItemDTO.market_hash_name item_dto))
      as [[weapon skin_name] wear] eqn:Eparse.
    eexists. cbn [fst snd ItemSession.session ItemSession.new_items].
    split; [reflexivity|]. split; [reflexivity|]. split; [reflexivity|].
    split; [exact Efind|]. split; [reflexivity|]. split; [reflexivity|].
    split; [reflexivity|].
    intros later. rewrite Efind.
    cbn [fst ItemSession.new_items]. rewrite <- app_assoc. reflexivity.
Qed.
